(** * The resumable crawl engine of the golf-course scraper

    A shallow embedding of [src/config.py], [src/database.py],
    [src/scraper.py], [src/main.py] and [update_start_id.py], and the
    properties of the crawl engine proved on it.

    Conventions of the embedding:
    - Python integers are [Z]; points in time and durations are [Z] in
      milliseconds (the source uses seconds, with the one fractional
      constant 1.5 s); SQLite takes the integers of 64 bits ([int64]),
      and the theorems on what the store's methods raise, return or
      store are stated for those;
    - the SQLite store is a record of tables, a table with a primary or
      unique key being a [gmap] from that key; the connection keeps the
      last committed store next to the working one, so that [commit] and
      [rollback] are the operations of the source;
    - a method that touches the store, the clock or the network is a
      computation in the monad [M]: a function from the world to either a
      value or a raised Python exception, both with the world they leave;
    - the clock moves when the program sleeps and while a GET is under
      way, by the time the remote side takes;
    - the [while] loop of [scrape] is observed for a number of iterations
      ([fuel]): a run that is still in the loop then is reported as
      running, with its cursor, and the theorems on results hold for
      every longer observation. *)

From stdpp Require Import gmap strings list fin_maps.

Local Open Scope string_scope.
Local Open Scope list_scope.
Local Open Scope Z_scope.

(** ** Configuration ([src/config.py]) *)

(** The options read from the environment. *)
Record Config := {
  API_KEY : option string;
  MAX_CALLS_PER_DAY : Z;
  CONSECUTIVE_404_LIMIT : Z
}.

Definition seconds (s : Z) : Z := 1000 * s.
Definition hours (h : Z) : Z := 3600 * seconds h.

(** The constants of class [Config]. *)
Definition RATE_LIMIT_WINDOW_HOURS : Z := 24.
(** 1.5 seconds, in milliseconds. *)
Definition REQUEST_DELAY_SECONDS : Z := 1500.
Definition RETRY_DELAY_SECONDS : Z := 300.
Definition RETRY_MAX_ATTEMPTS : Z := 3.
Definition RATE_LIMIT_SLEEP_SECONDS : Z := 3600.

(** [Config.validate]: [None] when the configuration is accepted, the
    message of the [ValueError] otherwise. *)
Definition validate (cfg : Config) : option string :=
  match API_KEY cfg with
  | None | Some "" => Some "GOLFCOURSEAPI_API_KEY not found in environment variables"
  | Some _ =>
      if MAX_CALLS_PER_DAY cfg <=? 0
      then Some "MAX_CALLS_PER_DAY must be greater than 0"
      else None
  end.

Definition default_config : Config :=
  {| API_KEY := Some "key"; MAX_CALLS_PER_DAY := 295; CONSECUTIVE_404_LIMIT := 1000 |}.

(** ** The payload of the remote API *)

(** A JSON scalar as the program handles it: it is only ever tested for
    null and bound to an SQL parameter.  A real number is kept as its
    literal. *)
Inductive jval :=
| JNull
| JInt (n : Z)
| JReal (literal : string)
| JStr (s : string).

(** A field of a JSON object: [None] when the key is absent. *)
Definition field := option jval.

(** [d.get(k)] and [d.get(k, dflt)]. *)
Definition get (f : field) : jval := default JNull f.
Definition get_or (f : field) (dflt : jval) : jval := default dflt f.

Record Hole := {
  hole_par : field;
  hole_yardage : field;
  hole_handicap : field
}.

Record Tee := {
  tee_name : field;
  course_rating : field;
  slope_rating : field;
  bogey_rating : field;
  total_yards : field;
  total_meters : field;
  number_of_holes : field;
  par_total : field;
  front_course_rating : field;
  front_slope_rating : field;
  front_bogey_rating : field;
  back_course_rating : field;
  back_slope_rating : field;
  back_bogey_rating : field;
  tee_holes : list Hole
}.

Record Location := {
  address : field;
  city : field;
  state : field;
  country : field;
  latitude : field;
  longitude : field
}.

(** The object under the key ['course'], with the fields that
    [save_course] reads.  The identifier is a JSON integer when present
    ([None]: absent or null); [course_location] is [None] when the key is
    absent or the object is empty, the two cases in which the source
    skips the location; a list that is absent is empty. *)
Record Course := {
  course_id_of : option Z;
  club_name : field;
  course_name : field;
  course_location : option Location;
  tees_male : list Tee;
  tees_female : list Tee
}.

(** The decoded body of a 200 response, a JSON object: the ['course']
    object when the key is there, and whether the body has any other key
    (an object without keys is falsy in Python). *)
Record Payload := {
  payload_course : option Course;
  payload_other_keys : bool
}.

(** [course_data.get('course', {})]. *)
Definition empty_course : Course :=
  {| course_id_of := None; club_name := None; course_name := None;
     course_location := None; tees_male := []; tees_female := [] |}.

Definition course_of (course_data : Payload) : Course :=
  default empty_course (payload_course course_data).

(** The truth value of [course_data] in [if course_data:]. *)
Definition truthy (course_data : Payload) : bool :=
  match payload_course course_data with
  | Some _ => true
  | None => payload_other_keys course_data
  end.

(** ** The store ([_create_tables]) *)

(** A row of scrape_attempts, keyed by course_id.  [attempted_at] is
    the default of the column, SQLite's CURRENT_TIMESTAMP, read here
    off the clock of the world. *)
Record AttemptRow := {
  status_code : Z;
  success : bool;
  attempted_at : Z
}.

(** A row of courses, keyed by id, with the values as they are bound
    ([c_created_at] is the default of the column, as for an attempt);
    the form in which SQLite stores a value that is not of the type of
    its column is not followed. *)
Record CourseRow := {
  c_club_name : jval;
  c_course_name : jval;
  c_created_at : Z
}.

(** A row of locations, keyed by its unique course_id. *)
Record LocationRow := {
  l_address : jval;
  l_city : jval;
  l_state : jval;
  l_country : jval;
  l_latitude : jval;
  l_longitude : jval
}.

(** A row of tees; [t_id] is the AUTOINCREMENT key that holes refer to. *)
Record TeeRow := {
  t_id : Z;
  t_course_id : Z;
  t_gender : string;
  t_tee_name : jval;
  t_course_rating : jval;
  t_slope_rating : jval;
  t_bogey_rating : jval;
  t_total_yards : jval;
  t_total_meters : jval;
  t_number_of_holes : jval;
  t_par_total : jval;
  t_front_course_rating : jval;
  t_front_slope_rating : jval;
  t_front_bogey_rating : jval;
  t_back_course_rating : jval;
  t_back_slope_rating : jval;
  t_back_bogey_rating : jval
}.

(** A row of holes. *)
Record HoleRow := {
  h_tee_id : Z;
  h_hole_number : Z;
  h_par : jval;
  h_yardage : jval;
  h_handicap : jval
}.

(** The six tables.  scrape_metadata holds its single row (id = 1), which
    [_create_tables] inserts when the table is empty, as the dictionary
    that [get_scrape_metadata] returns: column name to value, booleans as
    0 and 1.  api_calls is the list of its timestamps, oldest first.
    [tees_seq] is the last key AUTOINCREMENT gave to a row of tees; the
    generated keys of api_calls, locations and holes are never read by the
    program and are left out. *)
Record Store := {
  scrape_metadata : gmap string Z;
  api_calls : list Z;
  scrape_attempts : gmap Z AttemptRow;
  courses : gmap Z CourseRow;
  locations : gmap Z LocationRow;
  tees : list TeeRow;
  tees_seq : Z;
  holes : list HoleRow
}.

Definition set_scrape_metadata (v : gmap string Z) (s : Store) : Store :=
  {| scrape_metadata := v; api_calls := api_calls s;
     scrape_attempts := scrape_attempts s; courses := courses s;
     locations := locations s; tees := tees s; tees_seq := tees_seq s;
     holes := holes s |}.

Definition set_api_calls (v : list Z) (s : Store) : Store :=
  {| scrape_metadata := scrape_metadata s; api_calls := v;
     scrape_attempts := scrape_attempts s; courses := courses s;
     locations := locations s; tees := tees s; tees_seq := tees_seq s;
     holes := holes s |}.

Definition set_scrape_attempts (v : gmap Z AttemptRow) (s : Store) : Store :=
  {| scrape_metadata := scrape_metadata s; api_calls := api_calls s;
     scrape_attempts := v; courses := courses s;
     locations := locations s; tees := tees s; tees_seq := tees_seq s;
     holes := holes s |}.

Definition set_courses (v : gmap Z CourseRow) (s : Store) : Store :=
  {| scrape_metadata := scrape_metadata s; api_calls := api_calls s;
     scrape_attempts := scrape_attempts s; courses := v;
     locations := locations s; tees := tees s; tees_seq := tees_seq s;
     holes := holes s |}.

Definition set_locations (v : gmap Z LocationRow) (s : Store) : Store :=
  {| scrape_metadata := scrape_metadata s; api_calls := api_calls s;
     scrape_attempts := scrape_attempts s; courses := courses s;
     locations := v; tees := tees s; tees_seq := tees_seq s;
     holes := holes s |}.

Definition add_tee (r : TeeRow) (s : Store) : Store :=
  {| scrape_metadata := scrape_metadata s; api_calls := api_calls s;
     scrape_attempts := scrape_attempts s; courses := courses s;
     locations := locations s; tees := tees s ++ [r]; tees_seq := t_id r;
     holes := holes s |}.

Definition add_hole (r : HoleRow) (s : Store) : Store :=
  {| scrape_metadata := scrape_metadata s; api_calls := api_calls s;
     scrape_attempts := scrape_attempts s; courses := courses s;
     locations := locations s; tees := tees s; tees_seq := tees_seq s;
     holes := holes s ++ [r] |}.

(** The columns of scrape_metadata. *)
Definition metadata_columns : list string :=
  ["id"; "last_scraped_id"; "consecutive_404s"; "total_courses_scraped";
   "scraping_complete"; "last_updated"; "created_at"].

(** The row that [_create_tables] inserts at time [t]. *)
Definition initial_metadata (t : Z) : gmap string Z :=
  <["id" := 1]> (<["last_scraped_id" := 0]> (<["consecutive_404s" := 0]>
  (<["total_courses_scraped" := 0]> (<["scraping_complete" := 0]>
  (<["last_updated" := t]> (<["created_at" := t]> ∅)))))).

Definition empty_store (t : Z) : Store :=
  {| scrape_metadata := initial_metadata t; api_calls := [];
     scrape_attempts := ∅; courses := ∅; locations := ∅; tees := [];
     tees_seq := 0; holes := [] |}.

(** ** The world and the monad of effects *)

(** The SQLite connection: what the last [commit] left, and the store as
    the statements executed since then see it. *)
Record Connection := {
  committed : Store;
  working : Store
}.

(** What one GET of the session gives: an exception of the requests
    library (no response), or a response with its status and its body,
    [None] when the body is not valid JSON. *)
Inductive Response :=
| NoResponse
| Http (status : Z) (body : option Payload).

(** What the program does to the outside, most recent first. *)
Inductive event :=
| EvGet (course_id : Z) (r : Response)
| EvSleep (ms : Z)
| EvRateCheck
| EvClose.

Record World := {
  conn : Connection;
  now : Z;
  trace : list event
}.

Definition db (w : World) : Store := working (conn w).

Inductive exn :=
| RequestException
| ValueError (msg : string)
| IntegrityError (msg : string)
| OperationalError (msg : string).

Inductive result (A : Type) :=
| Ok (a : A) (w : World)
| Raise (e : exn) (w : World).
Arguments Ok {A} a w.
Arguments Raise {A} e w.

Definition M (A : Type) : Type := World → result A.

Definition ret {A} (a : A) : M A := fun w => Ok a w.
Definition raise {A} (e : exn) : M A := fun w => Raise e w.
Definition bind {A B} (c : M A) (k : A → M B) : M B :=
  fun w => match c w with
           | Ok a w' => k a w'
           | Raise e w' => Raise e w'
           end.

Notation "'let*' x ':=' c 'in' k" := (bind c (fun x => k))
  (at level 10, x pattern, c at level 100, k at level 200).
Notation "c1 '>>' c2" := (bind c1 (fun _ => c2))
  (at level 100, c2 at level 200, right associativity).

(** [try: body except ...: handler]: [handler e] is [None] for the
    exceptions that no [except] clause matches. *)
Definition try_except {A} (body : M A) (handler : exn → option (M A)) : M A :=
  fun w => match body w with
           | Ok a w' => Ok a w'
           | Raise e w' =>
               match handler e with
               | Some h => h w'
               | None => Raise e w'
               end
           end.

(** The world a computation leaves, however it ends. *)
Definition world_of {A} (r : result A) : World :=
  match r with Ok _ w => w | Raise _ w => w end.

Definition with_working (f : Store → Store) : M unit :=
  fun w => Ok tt {| conn := {| committed := committed (conn w);
                               working := f (working (conn w)) |};
                    now := now w; trace := trace w |}.

Definition read {A} (f : Store → A) : M A := fun w => Ok (f (db w)) w.
Definition datetime_now : M Z := fun w => Ok (now w) w.

Definition log_event (e : event) : M unit :=
  fun w => Ok tt {| conn := conn w; now := now w; trace := e :: trace w |}.

Definition advance (ms : Z) : M unit :=
  fun w => Ok tt {| conn := conn w; now := now w + ms; trace := trace w |}.

(** [time.sleep]. *)
Definition sleep (ms : Z) : M unit := log_event (EvSleep ms) >> advance ms.

(** [self.conn.commit()] and [self.conn.rollback()]. *)
Definition commit (w : World) : World :=
  {| conn := {| committed := working (conn w); working := working (conn w) |};
     now := now w; trace := trace w |}.
Definition rollback (w : World) : World :=
  {| conn := {| committed := committed (conn w); working := committed (conn w) |};
     now := now w; trace := trace w |}.

(** [Database.transaction]: the body, then [commit]; on an exception,
    [rollback] and the exception raised again. *)
Definition transaction {A} (body : M A) : M A :=
  fun w => match body w with
           | Ok a w' => Ok a (commit w')
           | Raise e w' => Raise e (rollback w')
           end.

(** ** The store's methods ([src/database.py]) *)

Definition get_scrape_metadata : M (gmap string Z) := read scrape_metadata.

(** [UPDATE scrape_metadata SET k1 = ?, ..., kn = ? WHERE id = 1] with the
    given values, [None] being NULL.  The statement fails as a whole on a
    name that is no column.  Of several assignments to one column SQLite
    keeps the rightmost; every column is NOT NULL, and id is checked to
    be 1. *)
Definition assignments (sets : list (string * option Z)) : gmap string (option Z) :=
  list_to_map (reverse sets).

Definition not_null (asg : gmap string (option Z)) : bool :=
  bool_decide (map_Forall (fun _ v => is_Some v) asg).

Definition check_id (asg : gmap string (option Z)) : bool :=
  match asg !! "id" with
  | Some (Some v) => bool_decide (v = 1)
  | _ => true
  end.

Definition execute_update_metadata (sets : list (string * option Z)) : M unit :=
  fun w =>
    if forallb (fun kv => bool_decide (fst kv ∈ metadata_columns)) sets
    then if not_null (assignments sets)
         then if check_id (assignments sets)
              then with_working
                     (fun s => set_scrape_metadata
                                 (omap (fun v => v) (assignments sets) ∪ scrape_metadata s) s) w
              else Raise (IntegrityError "CHECK constraint failed: id = 1") w
         else Raise (IntegrityError "NOT NULL constraint failed") w
    else Raise (OperationalError "no such column") w.

(** [update_scrape_metadata]: [kwargs] are the keyword arguments in the
    order of the call. *)
Definition update_scrape_metadata (kwargs : list (string * option Z)) : M unit :=
  transaction
    (let* t := datetime_now in
     execute_update_metadata (kwargs ++ [("last_updated", Some t)])).

Definition record_api_call : M unit :=
  transaction
    (let* t := datetime_now in
     with_working (fun s => set_api_calls (api_calls s ++ [t]) s)).

Definition window_start (t : Z) : Z := t - hours RATE_LIMIT_WINDOW_HOURS.

Definition in_window (t : Z) (timestamp : Z) : bool := window_start t <? timestamp.

Definition get_api_calls_in_window : M Z :=
  let* t := datetime_now in
  read (fun s => Z.of_nat (length (filter (fun ts => in_window t ts = true) (api_calls s)))).

Definition cleanup_old_api_calls : M unit :=
  transaction
    (let* t := datetime_now in
     with_working (fun s => set_api_calls
                     (filter (fun ts => ¬ (ts ≤ window_start t)) (api_calls s)) s)).

(** [SELECT MIN(timestamp)]: NULL over no row. *)
Definition min_timestamp (l : list Z) : option Z :=
  match l with
  | [] => None
  | x :: l' => Some (foldr Z.min x l')
  end.

Definition get_oldest_api_call_in_window : M (option Z) :=
  let* t := datetime_now in
  read (fun s => min_timestamp (filter (fun ts => in_window t ts = true) (api_calls s))).

Definition is_course_already_attempted (course_id : Z) : M bool :=
  read (fun s => bool_decide (is_Some (scrape_attempts s !! course_id))).

Definition record_scrape_attempt (course_id status : Z) (ok : bool) : M unit :=
  transaction
    (let* t := datetime_now in
     with_working (fun s => set_scrape_attempts
                     (<[course_id := {| status_code := status; success := ok;
                                        attempted_at := t |}]> (scrape_attempts s)) s)).

(** [for x in l: body x]. *)
Fixpoint for_each {A} (l : list A) (body : A → M unit) : M unit :=
  match l with
  | [] => ret tt
  | x :: l' => body x >> for_each l' body
  end.

(** [enumerate(l, start)]. *)
Fixpoint enumerate {A} (l : list A) (start : Z) : list (Z * A) :=
  match l with
  | [] => []
  | x :: l' => (start, x) :: enumerate l' (start + 1)
  end.

Definition is_null (v : jval) : bool :=
  match v with JNull => true | _ => false end.

(** [INSERT OR REPLACE INTO courses]: club_name and course_name are
    NOT NULL. *)
Definition insert_course (course_id : Z) (club course : jval) : M unit :=
  if is_null club || is_null course
  then raise (IntegrityError "NOT NULL constraint failed: courses")
  else
    let* t := datetime_now in
    with_working (fun s => set_courses
                    (<[course_id := {| c_club_name := club; c_course_name := course;
                                       c_created_at := t |}]> (courses s)) s).

(** [INSERT OR REPLACE INTO locations]: the row of the same course_id, if
    any, is replaced. *)
Definition insert_location (course_id : Z) (location : Location) : M unit :=
  with_working (fun s => set_locations
                  (<[course_id := {| l_address := get (address location);
                                     l_city := get (city location);
                                     l_state := get (state location);
                                     l_country := get (country location);
                                     l_latitude := get (latitude location);
                                     l_longitude := get (longitude location) |}]>
                     (locations s)) s).

(** [INSERT INTO tees]: tee_name is NOT NULL (gender is one of the two
    strings the check allows).  Returns [cursor.lastrowid]. *)
Definition insert_tee (course_id : Z) (gender : string) (tee : Tee) : M Z :=
  if is_null (get (tee_name tee))
  then raise (IntegrityError "NOT NULL constraint failed: tees.tee_name")
  else
    let* tee_id := read (fun s => tees_seq s + 1) in
    with_working (add_tee
      {| t_id := tee_id; t_course_id := course_id; t_gender := gender;
         t_tee_name := get (tee_name tee);
         t_course_rating := get (course_rating tee);
         t_slope_rating := get (slope_rating tee);
         t_bogey_rating := get (bogey_rating tee);
         t_total_yards := get (total_yards tee);
         t_total_meters := get (total_meters tee);
         t_number_of_holes := get (number_of_holes tee);
         t_par_total := get (par_total tee);
         t_front_course_rating := get (front_course_rating tee);
         t_front_slope_rating := get (front_slope_rating tee);
         t_front_bogey_rating := get (front_bogey_rating tee);
         t_back_course_rating := get (back_course_rating tee);
         t_back_slope_rating := get (back_slope_rating tee);
         t_back_bogey_rating := get (back_bogey_rating tee) |}) >>
    ret tee_id.

(** [INSERT INTO holes]: hole_number is checked to be between 1 and 18. *)
Definition insert_hole (tee_id hole_num : Z) (hole : Hole) : M unit :=
  if (1 <=? hole_num) && (hole_num <=? 18)
  then with_working (add_hole
         {| h_tee_id := tee_id; h_hole_number := hole_num;
            h_par := get (hole_par hole);
            h_yardage := get (hole_yardage hole);
            h_handicap := get (hole_handicap hole) |})
  else raise (IntegrityError "CHECK constraint failed: holes.hole_number").

(** [UPDATE scrape_metadata SET total_courses_scraped =
    total_courses_scraped + 1, last_updated = ? WHERE id = 1]. *)
Definition increment_total_courses : M unit :=
  let* t := datetime_now in
  with_working (fun s => set_scrape_metadata
                  (<["last_updated" := t]>
                     (alter (fun n => n + 1) "total_courses_scraped" (scrape_metadata s))) s).

Definition save_tees (course_id : Z) (gender : string) (tees_list : list Tee) : M unit :=
  for_each tees_list (fun tee =>
    let* tee_id := insert_tee course_id gender tee in
    for_each (enumerate (tee_holes tee) 1) (fun '(hole_num, hole) =>
      insert_hole tee_id hole_num hole)).

Definition save_course (course_data : Payload) : M unit :=
  transaction
    (let course := course_of course_data in
     match course_id_of course with
     | None | Some 0 => raise (ValueError "Course data missing 'id'")
     | Some course_id =>
         insert_course course_id (get_or (club_name course) (JStr ""))
                       (get_or (course_name course) (JStr "")) >>
         match course_location course with
         | Some location => insert_location course_id location
         | None => ret tt
         end >>
         save_tees course_id "male" (tees_male course) >>
         save_tees course_id "female" (tees_female course) >>
         increment_total_courses
     end).

(** [Database.close]: SQLite drops what has not been committed. *)
Definition close : M unit := log_event EvClose >> (fun w => Ok tt (rollback w)).

(** ** The scraper ([src/scraper.py]) *)

(** How a loop of the scraper ends an iteration: [return v], or on to the
    next iteration ([continue], or the end of the body). *)
Inductive flow (A : Type) :=
| Return (v : A)
| Next.
Arguments Return {A} v.
Arguments Next {A}.

(** How a run of [scrape] that is observed for a bounded number of
    iterations of its [while] loop ends: the loop was left, or it is
    still running with this cursor and this count of consecutive 404s. *)
Inductive loop_end :=
| Finished
| Running (current_id consecutive_404s : Z).

Definition is_get_of (course_id : Z) (e : event) : bool :=
  match e with
  | EvGet i _ => bool_decide (i = course_id)
  | _ => false
  end.

(** The number of GETs already made for an id. *)
Definition gets_of (course_id : Z) (tr : list event) : nat :=
  length (List.filter (is_get_of course_id) tr).

Section Scraper.

Variable cfg : Config.

(** The remote API and the network: what the GET number [k] (from 0)
    for a course id gives, and the time it takes.  Within a world no
    GET has the same id and number as another, so that this covers
    every behaviour of the remote side. *)
Variable remote : Z → nat → N * Response.

(** [self.session.get(url, timeout=30)]: the response, or a
    [RequestException]. *)
Definition session_get (course_id : Z) : M (Z * option Payload) :=
  fun w =>
    let '(elapsed, r) := remote course_id (gets_of course_id (trace w)) in
    let w' := {| conn := conn w; now := now w + Z.of_N elapsed;
                 trace := EvGet course_id r :: trace w |} in
    match r with
    | NoResponse => Raise RequestException w'
    | Http status body => Ok (status, body) w'
    end.

(** [response.json()]: the JSONDecodeError of the requests library is a
    [RequestException]. *)
Definition response_json (body : option Payload) : M Payload :=
  match body with
  | Some course_data => ret course_data
  | None => raise RequestException
  end.

(** The body of the [for attempt in range(1, RETRY_MAX_ATTEMPTS + 1)]
    loop of [fetch_course]. *)
Definition fetch_attempt (course_id attempt : Z) : M (flow (option Payload)) :=
  try_except
    (let* (status, body) := session_get course_id in
     record_api_call >>
     if status =? 200 then
       let* course_data := response_json body in
       ret (Return (Some course_data))
     else if status =? 404 then
       ret (Return None)
     else if status =? 401 then
       raise (ValueError "Invalid API key")
     else if status =? 429 then
       sleep (seconds RATE_LIMIT_SLEEP_SECONDS) >>
       ret Next
     else
       if attempt <? RETRY_MAX_ATTEMPTS then
         let wait_time := RETRY_DELAY_SECONDS * attempt in
         sleep (seconds wait_time) >>
         ret Next
       else
         ret (Return None))
    (fun e =>
       match e with
       | RequestException =>
           Some (if attempt <? RETRY_MAX_ATTEMPTS then
                   let wait_time := RETRY_DELAY_SECONDS * attempt in
                   sleep (seconds wait_time) >>
                   ret Next
                 else
                   ret (Return None))
       | _ => None
       end).

Fixpoint fetch_attempts (attempts : list Z) (course_id : Z) : M (option Payload) :=
  match attempts with
  | [] => ret None
  | attempt :: rest =>
      let* r := fetch_attempt course_id attempt in
      match r with
      | Return v => ret v
      | Next => fetch_attempts rest course_id
      end
  end.

(** [range(a, b)]. *)
Definition range (a b : Z) : list Z := seqZ a (b - a).

Definition fetch_course (course_id : Z) : M (option Payload) :=
  fetch_attempts (range 1 (RETRY_MAX_ATTEMPTS + 1)) course_id.

Definition check_rate_limit : M bool :=
  log_event EvRateCheck >>
  let* calls_in_window := get_api_calls_in_window in
  ret (calls_in_window <? MAX_CALLS_PER_DAY cfg).

Definition wait_for_rate_limit_window : M unit :=
  let* oldest_call := get_oldest_api_call_in_window in
  match oldest_call with
  | Some oldest =>
      let window_reset_time := oldest + hours RATE_LIMIT_WINDOW_HOURS in
      let* t := datetime_now in
      if t <? window_reset_time then
        let wait_seconds := window_reset_time - t in
        sleep (wait_seconds + seconds 1)
      else
        cleanup_old_api_calls
  | None =>
      sleep (seconds 60)
  end.

(** [metadata.get(key, 0)] and the truth value of [metadata.get(key)]. *)
Definition metadata_get (metadata : gmap string Z) (key : string) : Z :=
  default 0 (metadata !! key).
Definition metadata_true (metadata : gmap string Z) (key : string) : bool :=
  negb (metadata_get metadata key =? 0).

(** The part of the loop body from the rate-limit check to the fetch. *)
Definition gated_fetch (current_id : Z) : M (option Payload) :=
  let* allowed := check_rate_limit in
  (if negb allowed then
     get_api_calls_in_window >>
     wait_for_rate_limit_window >>
     cleanup_old_api_calls
   else ret tt) >>
  fetch_course current_id.

(** The branch of a fetched course: the save, the attempt record (of
    the failure when the save raised), the reset of the count. *)
Definition on_course (current_id : Z) (course_data : Payload) : M Z :=
  try_except
    (save_course course_data >>
     record_scrape_attempt current_id 200 true)
    (fun _ => Some (record_scrape_attempt current_id 200 false)) >>
  update_scrape_metadata [("last_scraped_id", Some current_id);
                          ("consecutive_404s", Some 0)] >>
  ret 0.

(** The branch "got 404 or error". *)
Definition on_miss (current_id consecutive_404s : Z) : M Z :=
  record_scrape_attempt current_id 404 false >>
  let consecutive_404s := consecutive_404s + 1 in
  update_scrape_metadata [("last_scraped_id", Some current_id);
                          ("consecutive_404s", Some consecutive_404s)] >>
  ret consecutive_404s.

(** The truth value of what [fetch_course] returned. *)
Definition fetched_course (fetched : option Payload) : option Payload :=
  match fetched with
  | Some course_data => if truthy course_data then Some course_data else None
  | None => None
  end.

(** One iteration of the [while] loop of [scrape]: the cursor and the
    count of consecutive 404s at its end. *)
Definition scrape_iteration (current_id consecutive_404s : Z) : M (Z * Z) :=
  let* attempted := is_course_already_attempted current_id in
  if attempted then
    ret (current_id + 1, consecutive_404s)
  else
    let* fetched := gated_fetch current_id in
    let* consecutive_404s :=
      match fetched_course fetched with
      | Some course_data => on_course current_id course_data
      | None => on_miss current_id consecutive_404s
      end in
    let current_id := current_id + 1 in
    sleep REQUEST_DELAY_SECONDS >>
    (if current_id mod 100 =? 0 then cleanup_old_api_calls else ret tt) >>
    ret (current_id, consecutive_404s).

(** The [while consecutive_404s < CONSECUTIVE_404_LIMIT] loop, observed
    for at most [fuel] iterations. *)
Fixpoint scrape_loop (fuel : nat) (current_id consecutive_404s : Z) : M loop_end :=
  if consecutive_404s <? CONSECUTIVE_404_LIMIT cfg then
    match fuel with
    | O => ret (Running current_id consecutive_404s)
    | S fuel' =>
        let* (current_id, consecutive_404s) :=
          scrape_iteration current_id consecutive_404s in
        scrape_loop fuel' current_id consecutive_404s
    end
  else ret Finished.

(** [scrape]. *)
Definition scrape (fuel : nat) : M loop_end :=
  let* metadata := get_scrape_metadata in
  if metadata_true metadata "scraping_complete" then
    ret Finished
  else
    let current_id := metadata_get metadata "last_scraped_id" + 1 in
    let consecutive_404s := metadata_get metadata "consecutive_404s" in
    let* r := scrape_loop fuel current_id consecutive_404s in
    match r with
    | Finished =>
        get_scrape_metadata >>
        update_scrape_metadata [("scraping_complete", Some 1)] >>
        ret Finished
    | Running _ _ => ret r
    end.

(** ** The entry point ([src/main.py]) *)

(** How the process is seen to end: with an exit code, or still in the
    loop when the observation stops. *)
Inductive exit :=
| Exit (code : Z)
| StillRunning.

(** [main], from the point where [Database()] has connected and made
    sure of the tables and of the row of scrape_metadata. *)
Definition main (fuel : nat) (w : World) : exit * World :=
  match validate cfg with
  | Some _ => (Exit 1, w)
  | None =>
      let run :=
        let* metadata := get_scrape_metadata in
        if metadata_true metadata "scraping_complete" then ret Finished
        else scrape fuel in
      match run w with
      | Ok Finished w' => (Exit 0, world_of (close w'))
      | Ok (Running _ _) w' => (StillRunning, w')
      | Raise _ w' => (Exit 1, world_of (close w'))
      end
  end.

End Scraper.

(** ** Readings of the persisted state *)

Definition last_id (w : World) : Z := metadata_get (scrape_metadata (db w)) "last_scraped_id".
Definition consecutive_misses (w : World) : Z :=
  metadata_get (scrape_metadata (db w)) "consecutive_404s".
Definition total_saved (w : World) : Z :=
  metadata_get (scrape_metadata (db w)) "total_courses_scraped".
Definition complete (w : World) : bool :=
  metadata_true (scrape_metadata (db w)) "scraping_complete".

(** [count_in_window] of the call ledger at the world's time. *)
Definition count_in_window (w : World) : Z :=
  Z.of_nat (length (filter (fun ts => in_window (now w) ts = true) (api_calls (db w)))).

(** Nothing is pending on the connection. *)
Definition clean (w : World) : Prop := committed (conn w) = working (conn w).

(** A world around a store, at a given time, with nothing done yet. *)
Definition world_at (s : Store) (t : Z) : World :=
  {| conn := {| committed := s; working := s |}; now := t; trace := [] |}.

Definition fresh_world : World := world_at (empty_store 0) 0.

(** The GETs of a trace, oldest first. *)
Definition get_of (e : event) : option (Z * Response) :=
  match e with EvGet i r => Some (i, r) | _ => None end.

Definition gets (tr : list event) : list (Z * Response) := reverse (omap get_of tr).

(** A store that a crawl has left after the ids 1 to 100, none of which
    was found, and a world around it. *)
Definition resumed_store : Store :=
  {| scrape_metadata := <["last_scraped_id" := 100]> (<["consecutive_404s" := 100]>
                          (initial_metadata 0));
     api_calls := [];
     scrape_attempts :=
       list_to_map ((fun i => (i, {| status_code := 404; success := false;
                                     attempted_at := 0 |})) <$> seqZ 1 100);
     courses := ∅; locations := ∅; tees := []; tees_seq := 0; holes := [] |}.

Definition resumed_world : World := world_at resumed_store (hours 48).

Definition answered (r : Response) : bool :=
  match r with Http _ _ => true | NoResponse => false end.

(** ** The worlds that the primitive steps leave *)

(** The world whose store, committed, is [s]. *)
Definition put (s : Store) (w : World) : World :=
  {| conn := {| committed := s; working := s |}; now := now w; trace := trace w |}.

(** After [time.sleep(ms)]. *)
Definition slept (ms : Z) (w : World) : World :=
  {| conn := conn w; now := now w + ms; trace := EvSleep ms :: trace w |}.

(** After a GET for [course_id] that took [elapsed] and gave [r]. *)
Definition got (course_id : Z) (elapsed : N) (r : Response) (w : World) : World :=
  {| conn := conn w; now := now w + Z.of_N elapsed; trace := EvGet course_id r :: trace w |}.

(** After [record_api_call]. *)
Definition called (w : World) : World :=
  put (set_api_calls (api_calls (db w) ++ [now w]) (db w)) w.

(** After [cleanup_old_api_calls]. *)
Definition cleaned (w : World) : World :=
  put (set_api_calls (filter (fun ts => ¬ (ts ≤ window_start (now w))) (api_calls (db w)))
         (db w)) w.

(** After [record_scrape_attempt]. *)
Definition attempted (course_id status : Z) (ok : bool) (w : World) : World :=
  put (set_scrape_attempts
         (<[course_id := {| status_code := status; success := ok; attempted_at := now w |}]>
            (scrape_attempts (db w))) (db w)) w.

(** After the engine's update of the crawl position. *)
Definition positioned (current_id consecutive_404s : Z) (w : World) : World :=
  put (set_scrape_metadata
         (<["last_updated" := now w]>
            (<["consecutive_404s" := consecutive_404s]>
               (<["last_scraped_id" := current_id]> (scrape_metadata (db w)))))
         (db w)) w.

(** After the update that marks the crawl complete. *)
Definition completed (w : World) : World :=
  put (set_scrape_metadata
         (<["last_updated" := now w]>
            (<["scraping_complete" := 1]> (scrape_metadata (db w))))
         (db w)) w.

(** The value a computation returned, if it did. *)
Definition value_of {A} (r : result A) : option A :=
  match r with Ok a _ => Some a | Raise _ _ => None end.

(** The number of GETs in a trace that got a response, and the number
    of all its GETs. *)
Definition is_get (e : event) : bool :=
  match e with EvGet _ _ => true | _ => false end.
Definition is_answered_get (e : event) : bool :=
  match e with EvGet _ r => answered r | _ => false end.
Definition is_sleep (e : event) : bool :=
  match e with EvSleep _ => true | _ => false end.

(** After the wait of a transient error at the given attempt: the
    backoff and on to the next attempt, or the end of the fetch when the
    attempt was the last. *)
Definition backoff (attempt : Z) (w : World) : result (flow (option Payload)) :=
  if attempt <? RETRY_MAX_ATTEMPTS
  then Ok Next (slept (seconds (RETRY_DELAY_SECONDS * attempt)) w)
  else Ok (Return None) w.

(** What a fetch for [course_id] may do to the world, in at most [n]
    GETs: it makes GETs for that id and sleeps, appends to the call ledger
    one timestamp for each GET that got a response, each taken between
    the start and the end, and leaves everything else as it was. *)
Definition fetch_effect (course_id : Z) (n : nat) (w w' : World) : Prop :=
  ∃ (evs : list event) (ts : list Z),
    trace w' = evs ++ trace w ∧
    Forall (fun e => is_get_of course_id e = true ∨ is_sleep e = true) evs ∧
    (length (List.filter is_get evs) ≤ n)%nat ∧
    length ts = length (List.filter is_answered_get evs) ∧
    db w' = set_api_calls (api_calls (db w) ++ ts) (db w) ∧
    Forall (fun t => now w ≤ t ≤ now w') ts ∧
    now w ≤ now w' ∧
    (clean w → clean w').

(** A computation keeps a relation between the world it starts in and
    the world it leaves, however it ends. *)
Definition keeps {A} (R : World → World → Prop) (c : M A) : Prop :=
  ∀ w, R w (world_of (c w)).

(** What the statements inside [save_course] may do before the final
    update of the counter: they change the working tables of courses,
    locations, tees and holes, and nothing else. *)
Definition save_step (w w' : World) : Prop :=
  committed (conn w') = committed (conn w) ∧ now w' = now w ∧ trace w' = trace w ∧
  scrape_metadata (db w') = scrape_metadata (db w) ∧
  api_calls (db w') = api_calls (db w) ∧
  scrape_attempts (db w') = scrape_attempts (db w).

(** The payloads that the constraints of the store accept: an identifier
    that is there and not 0, names that are not null, and for every tee a
    name that is not null and at most eighteen holes. *)
Definition tee_acceptable (tee : Tee) : bool :=
  negb (is_null (get (tee_name tee))) && (length (tee_holes tee) <=? 18)%nat.

Definition acceptable (course_data : Payload) : bool :=
  let course := course_of course_data in
  match course_id_of course with
  | None | Some 0 => false
  | Some _ => true
  end &&
  negb (is_null (get_or (club_name course) (JStr ""))) &&
  negb (is_null (get_or (course_name course) (JStr ""))) &&
  forallb tee_acceptable (tees_male course) &&
  forallb tee_acceptable (tees_female course).

(** After a successful [save_course], as far as the progress row goes. *)
Definition counted (row : gmap string Z) (t : Z) : gmap string Z :=
  <["last_updated" := t]> (alter (fun n => n + 1) "total_courses_scraped" row).

(** How the body of the transaction of [save_course] ends, from [w]:
    nothing committed, the clock and the outside as they were and, when
    it does not raise, the ledgers as they were and the counter of saved
    courses one up. *)
Definition save_body_post (w : World) (r : result unit) : Prop :=
  committed (conn (world_of r)) = committed (conn w) ∧
  now (world_of r) = now w ∧ trace (world_of r) = trace w ∧
  match r with
  | Ok _ w' =>
      api_calls (db w') = api_calls (db w) ∧
      scrape_attempts (db w') = scrape_attempts (db w) ∧
      scrape_metadata (db w') = counted (scrape_metadata (db w)) (now w)
  | Raise _ _ => True
  end.

(** After [wait_for_rate_limit_window]. *)
Definition waited (w : World) : World :=
  match min_timestamp (filter (fun ts => in_window (now w) ts = true) (api_calls (db w))) with
  | Some oldest =>
      let window_reset_time := oldest + hours RATE_LIMIT_WINDOW_HOURS in
      if now w <? window_reset_time
      then slept (window_reset_time - now w + seconds 1) w
      else cleaned w
  | None => slept (seconds 60) w
  end.

Definition logged (e : event) (w : World) : World :=
  {| conn := conn w; now := now w; trace := e :: trace w |}.

(** After the rate-limit gate of an iteration, before the fetch. *)
Definition gated (cfg : Config) (w : World) : World :=
  let w1 := logged EvRateCheck w in
  if count_in_window w1 <? MAX_CALLS_PER_DAY cfg then w1
  else cleaned (waited w1).

(** After the end of an iteration at [current_id]: the delay between
    requests and the periodic cleanup. *)
Definition ended (current_id : Z) (w : World) : World :=
  let w1 := slept REQUEST_DELAY_SECONDS w in
  if (current_id + 1) mod 100 =? 0 then cleaned w1 else w1.

(** After the save of a fetched course and the record of the attempt. *)
Definition saved (current_id : Z) (course_data : Payload) (w : World) : World :=
  match save_course course_data w with
  | Ok _ w1 => attempted current_id 200 true w1
  | Raise _ w1 => attempted current_id 200 false w1
  end.

(** What an iteration of the loop at [current_id] may do to a world with
    nothing pending: it leaves nothing pending, makes no GET but for
    [current_id], keeps the attempts it found, moves the last id nowhere
    but to [current_id], and leaves the completion flag alone. *)
Definition engine_step (current_id : Z) (w w' : World) : Prop :=
  clean w →
  clean w' ∧
  (∃ evs, trace w' = evs ++ trace w ∧ ∀ i r, EvGet i r ∈ evs → i = current_id) ∧
  dom (scrape_attempts (db w)) ⊆ dom (scrape_attempts (db w')) ∧
  (last_id w' = last_id w ∨ last_id w' = current_id) ∧
  complete w' = complete w.

(** What the loop may do from the cursor [current_id] on. *)
Definition run_step (current_id : Z) (w w' : World) : Prop :=
  clean w →
  clean w' ∧
  (∃ evs, trace w' = evs ++ trace w ∧
          ∀ i r, EvGet i r ∈ evs →
                 current_id ≤ i ∧ scrape_attempts (db w) !! i = None) ∧
  dom (scrape_attempts (db w)) ⊆ dom (scrape_attempts (db w')) ∧
  (last_id w' = last_id w ∨ current_id ≤ last_id w') ∧
  complete w' = complete w.

(** The number of rows that the store holds for a course id: in courses,
    in locations, in tees, and in holes through their tee. *)
Definition course_rows (course_id : Z) (s : Store) : nat :=
  (length (filter (fun i => i = course_id) (elements (dom (courses s)))) +
   length (filter (fun i => i = course_id) (elements (dom (locations s)))) +
   length (filter (fun t => t_course_id t = course_id) (tees s)) +
   length (filter (fun h => h_tee_id h ∈ t_id <$> filter (fun t => t_course_id t = course_id)
                                                     (tees s))
             (holes s)))%nat.


(** ** Remote sides used as examples *)

Definition a_tee : Tee :=
  {| tee_name := Some (JStr "Blue"); course_rating := Some (JReal "72.5");
     slope_rating := Some (JInt 130); bogey_rating := None; total_yards := Some (JInt 6500);
     total_meters := None; number_of_holes := Some (JInt 18); par_total := Some (JInt 72);
     front_course_rating := None; front_slope_rating := None; front_bogey_rating := None;
     back_course_rating := None; back_slope_rating := None; back_bogey_rating := None;
     tee_holes := [ {| hole_par := Some (JInt 4); hole_yardage := Some (JInt 400);
                       hole_handicap := Some (JInt 7) |} ] |}.

(** A payload that the store accepts. *)
Definition a_course (course_id : Z) : Payload :=
  {| payload_course :=
       Some {| course_id_of := Some course_id; club_name := Some (JStr "Club");
               course_name := Some (JStr "Course"); course_location := None;
               tees_male := [a_tee]; tees_female := [] |};
     payload_other_keys := false |}.

(** A tee of nineteen holes, which the check on hole_number refuses. *)
Definition long_tee : Tee :=
  {| tee_name := Some (JStr "Long"); course_rating := None; slope_rating := None;
     bogey_rating := None; total_yards := None; total_meters := None;
     number_of_holes := None; par_total := None; front_course_rating := None;
     front_slope_rating := None; front_bogey_rating := None; back_course_rating := None;
     back_slope_rating := None; back_bogey_rating := None;
     tee_holes := replicate 19 {| hole_par := None; hole_yardage := None;
                                  hole_handicap := None |} |}.

(** A payload whose save fails after the course, a tee and eighteen
    holes were inserted. *)
Definition a_bad_course (course_id : Z) : Payload :=
  {| payload_course :=
       Some {| course_id_of := Some course_id; club_name := Some (JStr "Club");
               course_name := Some (JStr "Course"); course_location := None;
               tees_male := [a_tee; long_tee]; tees_female := [] |};
     payload_other_keys := false |}.

(** Every GET gets the same response, at once. *)
Definition always (r : Response) : Z → nat → N * Response := fun _ _ => (0%N, r).

(** 429, then 500 twice, then the course. *)
Definition throttled_then_errors : Z → nat → N * Response :=
  fun course_id k =>
    match k with
    | O => (0%N, Http 429 None)
    | 1%nat | 2%nat => (0%N, Http 500 None)
    | _ => (0%N, Http 200 (Some (a_course course_id)))
    end.

(** The scenario of the specification: 1 and 2 are found, 3 is not, 4 is
    throttled once and then found. *)
Definition scenario : Z → nat → N * Response :=
  fun course_id k =>
    if course_id =? 3 then (0%N, Http 404 None)
    else if (course_id =? 4) && bool_decide (k = O) then (0%N, Http 429 None)
    else (0%N, Http 200 (Some (a_course course_id))).

(** The key is revoked after the first id: 1 is not found, every later
    GET gets 401. *)
Definition revoked : Z → nat → N * Response :=
  fun course_id _ =>
    if course_id =? 1 then (0%N, Http 404 None) else (0%N, Http 401 None).

(** A configuration that stops after two consecutive misses. *)
Definition short_config : Config :=
  {| API_KEY := Some "key"; MAX_CALLS_PER_DAY := 295; CONSECUTIVE_404_LIMIT := 2 |}.

(** A store whose call ledger is one call short of the default limit,
    and a world around it at the time of those calls. *)
Definition busy_store : Store :=
  set_api_calls (replicate 294 0) (empty_store 0).

Definition busy_world : World := world_at busy_store 0.

(** The world right after a first attempt for id 1 that was throttled. *)
Definition throttled_world : World :=
  slept (seconds RATE_LIMIT_SLEEP_SECONDS)
    (called (got 1 0%N (Http 429 None) fresh_world)).

(** ** The integers that SQLite takes *)

(** The sqlite3 binding hands a Python integer to SQLite as a signed
    integer of 64 bits, and raises OverflowError for one that does not
    fit.  The embedding leaves that exception out: the store's methods
    are written for integers that fit, and the theorems that say what
    is raised, returned or stored say so. *)
Definition int64 (n : Z) : Prop := - 2 ^ 63 ≤ n < 2 ^ 63.

(** The ids and the counts of misses that a run hands to the store in
    [fuel] iterations from [w] fit. *)
Definition within_int64 (w : World) (fuel : nat) : Prop :=
  int64 (last_id w + 1) ∧ int64 (last_id w + 1 + Z.of_nat fuel) ∧
  int64 (consecutive_misses w) ∧ int64 (consecutive_misses w + Z.of_nat fuel).

(** The integers of a payload that [save_course] binds fit. *)
Definition bindable_field (f : field) : bool :=
  match get f with
  | JInt n => bool_decide (int64 n)
  | _ => true
  end.

Definition bindable_hole (hole : Hole) : bool :=
  bindable_field (hole_par hole) && bindable_field (hole_yardage hole) &&
  bindable_field (hole_handicap hole).

Definition bindable_tee (tee : Tee) : bool :=
  bindable_field (tee_name tee) && bindable_field (course_rating tee) &&
  bindable_field (slope_rating tee) && bindable_field (bogey_rating tee) &&
  bindable_field (total_yards tee) && bindable_field (total_meters tee) &&
  bindable_field (number_of_holes tee) && bindable_field (par_total tee) &&
  bindable_field (front_course_rating tee) && bindable_field (front_slope_rating tee) &&
  bindable_field (front_bogey_rating tee) && bindable_field (back_course_rating tee) &&
  bindable_field (back_slope_rating tee) && bindable_field (back_bogey_rating tee) &&
  forallb bindable_hole (tee_holes tee).

Definition bindable_location (location : Location) : bool :=
  bindable_field (address location) && bindable_field (city location) &&
  bindable_field (state location) && bindable_field (country location) &&
  bindable_field (latitude location) && bindable_field (longitude location).

Definition bindable (course_data : Payload) : bool :=
  let course := course_of course_data in
  match course_id_of course with
  | Some course_id => bool_decide (int64 course_id)
  | None => true
  end &&
  bindable_field (club_name course) && bindable_field (course_name course) &&
  match course_location course with
  | Some location => bindable_location location
  | None => true
  end &&
  forallb bindable_tee (tees_male course) && forallb bindable_tee (tees_female course).

(** The key is revoked while an id is being retried: the first GET for
    an id gets 500, every later one 401. *)
Definition late_revoked : Z → nat → N * Response :=
  fun _ k =>
    match k with
    | O => (0%N, Http 500 None)
    | _ => (0%N, Http 401 None)
    end.

(** ** The script that sets the start id ([update_start_id.py]) *)

(** The script from the point where its argument is read as an integer
    and [Database()] has connected: the update of the progress row, the
    reading of it for the report, and the close.  The row that is read
    back has every column of the table, so that the lookups of the
    report do not fail; the printing itself is left out. *)
Definition update_start_id (start_id : Z) : M unit :=
  let last_scraped_id := start_id - 1 in
  update_scrape_metadata [("last_scraped_id", Some last_scraped_id);
                          ("consecutive_404s", Some 0)] >>
  get_scrape_metadata >>
  close.

(** ** Further readings of responses, traces and the store *)

(** A response that the fetcher takes for a transient error: no
    response, a body of a 200 that is no JSON, or a status that has no
    case of its own. *)
Definition transient (r : Response) : bool :=
  match r with
  | NoResponse => true
  | Http status body =>
      if status =? 200 then negb (bool_decide (is_Some body))
      else negb ((status =? 404) || (status =? 401) || (status =? 429))
  end.

(** The sleeps of a trace, oldest first. *)
Definition sleeps (tr : list event) : list Z :=
  reverse (omap (fun e => match e with EvSleep ms => Some ms | _ => None end) tr).

(** The invariant of the loop that makes a restart safe: the persisted
    count is the count of the loop, the last id is below the cursor, and
    every id between them has an attempt record. *)
Definition resumable (current_id consecutive_404s : Z) (w : World) : Prop :=
  consecutive_misses w = consecutive_404s ∧ last_id w < current_id ∧
  ∀ i, last_id w < i < current_id → is_Some (scrape_attempts (db w) !! i).

(** The number of successful attempts, as [check_data.py] reports it:
    [SUM(CASE WHEN success = 1 THEN 1 ELSE 0 END)] over scrape_attempts. *)
Definition successful (s : Store) : nat :=
  size (filter (fun kv : Z * AttemptRow => success kv.2 = true) (scrape_attempts s)).

(** * Properties *)

(** ** The progress row and its update *)

Lemma assignments_snoc sets key value :
  assignments (sets ++ [(key, value)]) = <[key := value]> (assignments sets).
Proof. unfold assignments. by rewrite reverse_snoc. Qed.

Lemma assignments_lookup sets key value :
  NoDup sets.*1 → (key, value) ∈ sets → assignments sets !! key = Some value.
Proof.
  intros Hnd Hin. unfold assignments. apply elem_of_list_to_map_1.
  - by rewrite fmap_reverse, reverse_Permutation.
  - by apply elem_of_reverse.
Qed.

Lemma assignments_lookup_None sets key :
  key ∉ sets.*1 → assignments sets !! key = None.
Proof.
  intros Hin. unfold assignments. apply not_elem_of_list_to_map_1.
  rewrite fmap_reverse. by rewrite elem_of_reverse.
Qed.

Lemma not_null_lookup asg key value :
  not_null asg = true → asg !! key = Some value → is_Some value.
Proof.
  unfold not_null. intros H%bool_decide_eq_true Hk.
  exact (map_Forall_lookup_1 _ _ _ _ H Hk).
Qed.

(** What a successful UPDATE of the progress row leaves. *)
Lemma execute_update_metadata_Ok sets w w' :
  execute_update_metadata sets w = Ok tt w' →
  not_null (assignments sets) = true ∧
  w' = {| conn := {| committed := committed (conn w);
                     working := set_scrape_metadata
                       (omap (fun v => v) (assignments sets) ∪ scrape_metadata (db w))
                       (db w) |};
          now := now w; trace := trace w |}.
Proof.
  unfold execute_update_metadata.
  destruct (forallb _ sets); [|discriminate].
  destruct (not_null _); [|discriminate].
  destruct (check_id _); [|discriminate].
  unfold with_working. intros [= <-]. done.
Qed.

(** An update that fails leaves the world as it was when nothing was
    pending. *)
Lemma update_scrape_metadata_Raise kwargs w e w' :
  clean w → update_scrape_metadata kwargs w = Raise e w' → w' = w.
Proof.
  unfold clean, update_scrape_metadata, transaction, bind, datetime_now,
    execute_update_metadata, with_working, rollback. intros Hclean.
  destruct w as [[c wk] t tr]. simpl in *. subst c.
  repeat case_match; try done; simplify_eq; by intros [= _ <-].
Qed.

(** C10. Frame property of the update of the progress row: a call of
    [update_scrape_metadata] that succeeds sets every named field to the
    value passed for it and last_updated to the current time; every
    column that is not named keeps its value; no other table, nor the
    clock, nor the outside is touched, and the change is committed. *)
Theorem update_scrape_metadata_frame (kwargs : list (string * option Z)) (w w' : World) :
  NoDup kwargs.*1 →
  update_scrape_metadata kwargs w = Ok tt w' →
  (∀ key value, (key, value) ∈ kwargs → key ≠ "last_updated" →
     scrape_metadata (db w') !! key = value) ∧
  scrape_metadata (db w') !! "last_updated" = Some (now w) ∧
  (∀ key, key ∉ kwargs.*1 → key ≠ "last_updated" →
     scrape_metadata (db w') !! key = scrape_metadata (db w) !! key) ∧
  api_calls (db w') = api_calls (db w) ∧
  scrape_attempts (db w') = scrape_attempts (db w) ∧
  courses (db w') = courses (db w) ∧
  locations (db w') = locations (db w) ∧
  tees (db w') = tees (db w) ∧
  tees_seq (db w') = tees_seq (db w) ∧
  holes (db w') = holes (db w) ∧
  clean w' ∧ now w' = now w ∧ trace w' = trace w.
Proof.
  intros Hnd. unfold update_scrape_metadata, transaction, bind, datetime_now.
  destruct (execute_update_metadata _ w) as [[] w1|e w1] eqn:Hex; [|discriminate].
  intros [= <-]. apply execute_update_metadata_Ok in Hex as [Hnn ->].
  rewrite assignments_snoc in *. unfold db, clean. simpl.
  split_and!; try done.
  - intros key value Hin Hne.
    assert (Hk : assignments kwargs !! key = Some value)
      by by apply assignments_lookup.
    assert (Hs : is_Some value).
    { eapply not_null_lookup; [exact Hnn|]. by rewrite lookup_insert_ne. }
    destruct Hs as [v ->].
    apply lookup_union_Some_l. rewrite lookup_omap, lookup_insert_ne by done.
    by rewrite Hk.
  - apply lookup_union_Some_l. by rewrite lookup_omap, lookup_insert_eq.
  - intros key Hin Hne. apply lookup_union_r.
    rewrite lookup_omap, lookup_insert_ne by done.
    by rewrite assignments_lookup_None.
Qed.

(** ** The store's methods, as equations *)



Lemma record_scrape_attempt_eq course_id status ok w :
  record_scrape_attempt course_id status ok w = Ok tt (attempted course_id status ok w).
Proof. reflexivity. Qed.

Lemma get_api_calls_in_window_eq w :
  get_api_calls_in_window w = Ok (count_in_window w) w.
Proof. reflexivity. Qed.




(** Lookups in a row built by insertions at columns given by name. *)
Ltac lookup_row :=
  repeat rewrite lookup_insert; rewrite ?lookup_empty;
  repeat case_decide; simplify_eq; simpl;
  try match goal with |- context [scrape_metadata ?s !! ?k] =>
                     destruct (scrape_metadata s !! k) end;
  done.

Lemma not_null_all_Some sets :
  Forall (fun kv => is_Some kv.2) sets → not_null (assignments sets) = true.
Proof.
  intros Hall. apply bool_decide_eq_true. intros key value Hk.
  apply elem_of_list_to_map_2 in Hk. rewrite elem_of_reverse in Hk.
  rewrite Forall_forall in Hall. exact (Hall _ Hk).
Qed.

Lemma check_id_absent sets : "id" ∉ sets.*1 → check_id (assignments sets) = true.
Proof. intros H. unfold check_id. by rewrite assignments_lookup_None. Qed.

(** The update succeeds when it names columns other than id and passes
    values that are not null. *)
Lemma update_scrape_metadata_Ok kwargs w :
  Forall (fun kv => kv.1 ∈ metadata_columns ∧ kv.1 ≠ "id" ∧ is_Some kv.2) kwargs →
  update_scrape_metadata kwargs w =
  Ok tt (put (set_scrape_metadata
                (omap (fun v => v) (assignments (kwargs ++ [("last_updated", Some (now w))]))
                   ∪ scrape_metadata (db w)) (db w)) w).
Proof.
  intros Hall.
  unfold update_scrape_metadata, transaction, bind, datetime_now, execute_update_metadata.
  rewrite (proj2 (forallb_forall _ _)); cycle 1.
  { intros kv [Hin| ->%list_elem_of_singleton]%list_elem_of_In%elem_of_app.
    - rewrite Forall_forall in Hall. apply bool_decide_eq_true. by apply Hall.
    - apply bool_decide_eq_true. unfold metadata_columns. set_solver. }
  rewrite not_null_all_Some; cycle 1.
  { apply Forall_app. split; [|by repeat constructor; eauto].
    eapply Forall_impl; [exact Hall|]. by intros kv (_ & _ & ?). }
  rewrite check_id_absent; cycle 1.
  { rewrite fmap_app, elem_of_app. intros [Hin|Hin].
    - apply list_elem_of_fmap in Hin as [kv [Hid Hin]].
      rewrite Forall_forall in Hall. destruct (Hall _ Hin) as (_ & Hne & _). congruence.
    - by apply list_elem_of_singleton in Hin. }
  reflexivity.
Qed.

Lemma update_position_eq current_id consecutive_404s w :
  update_scrape_metadata [("last_scraped_id", Some current_id);
                          ("consecutive_404s", Some consecutive_404s)] w
  = Ok tt (positioned current_id consecutive_404s w).
Proof.
  rewrite update_scrape_metadata_Ok; cycle 1.
  { unfold metadata_columns. repeat constructor; simpl; eauto; set_solver. }
  unfold positioned.
  apply (f_equal (fun m => Ok tt (put (set_scrape_metadata m (db w)) w))).
  apply map_eq. intros key. rewrite lookup_union, lookup_omap.
  unfold assignments. simpl.
  lookup_row.
Qed.

Lemma update_complete_eq w :
  update_scrape_metadata [("scraping_complete", Some 1)] w = Ok tt (completed w).
Proof.
  rewrite update_scrape_metadata_Ok; cycle 1.
  { unfold metadata_columns. repeat constructor; simpl; eauto; set_solver. }
  unfold completed.
  apply (f_equal (fun m => Ok tt (put (set_scrape_metadata m (db w)) w))).
  apply map_eq. intros key. rewrite lookup_union, lookup_omap.
  unfold assignments. simpl.
  lookup_row.
Qed.

(** ** The fetcher *)

Lemma set_api_calls_id s : set_api_calls (api_calls s ++ []) s = s.
Proof. destruct s. unfold set_api_calls. simpl. by rewrite app_nil_r. Qed.

Lemma fetch_effect_refl course_id n w : fetch_effect course_id n w w.
Proof.
  exists [], []. split_and!; simpl; try done; try lia.
  by rewrite set_api_calls_id.
Qed.

Lemma fetch_effect_trans course_id n1 n2 w1 w2 w3 :
  fetch_effect course_id n1 w1 w2 → fetch_effect course_id n2 w2 w3 →
  fetch_effect course_id (n1 + n2) w1 w3.
Proof.
  intros (evs1 & ts1 & Ht1 & Hev1 & Hn1 & Hl1 & Hdb1 & Hts1 & Hnow1 & Hc1)
         (evs2 & ts2 & Ht2 & Hev2 & Hn2 & Hl2 & Hdb2 & Hts2 & Hnow2 & Hc2).
  exists (evs2 ++ evs1), (ts1 ++ ts2). split_and!.
  - by rewrite Ht2, Ht1, app_assoc.
  - by apply Forall_app.
  - rewrite List.filter_app, length_app. lia.
  - rewrite List.filter_app, !length_app. lia.
  - rewrite Hdb2, Hdb1. unfold set_api_calls. simpl. by rewrite app_assoc.
  - apply Forall_app. split.
    + eapply Forall_impl; [exact Hts1|]. simpl. lia.
    + eapply Forall_impl; [exact Hts2|]. simpl. lia.
  - lia.
  - auto.
Qed.

Lemma fetch_effect_mono course_id n m w w' :
  (n ≤ m)%nat → fetch_effect course_id n w w' → fetch_effect course_id m w w'.
Proof.
  intros Hle (evs & ts & ? & ? & ? & ?). exists evs, ts. split_and!; try tauto. lia.
Qed.

Lemma fetch_effect_slept course_id ms w :
  0 ≤ ms → fetch_effect course_id 0 w (slept ms w).
Proof.
  intros Hms. exists [EvSleep ms], []. split_and!; simpl; try done; try lia.
  - apply Forall_singleton. by right.
  - by rewrite set_api_calls_id.
Qed.

Lemma fetch_effect_got course_id elapsed w :
  fetch_effect course_id 1 w (got course_id elapsed NoResponse w).
Proof.
  exists [EvGet course_id NoResponse], []. split_and!; simpl; try done; try lia.
  - apply Forall_singleton. left. by apply bool_decide_eq_true.
  - by rewrite set_api_calls_id.
Qed.

Lemma fetch_effect_called course_id elapsed status body w :
  fetch_effect course_id 1 w (called (got course_id elapsed (Http status body) w)).
Proof.
  exists [EvGet course_id (Http status body)], [now w + Z.of_N elapsed].
  split_and!; simpl; try done; try lia.
  - apply Forall_singleton. left. by apply bool_decide_eq_true.
  - repeat constructor; simpl; lia.
Qed.

Section Fetcher.

Variable remote : Z → nat → N * Response.

(** An attempt whose GET raises: no call is recorded. *)
Lemma fetch_attempt_no_response course_id attempt w elapsed :
  remote course_id (gets_of course_id (trace w)) = (elapsed, NoResponse) →
  fetch_attempt remote course_id attempt w
  = backoff attempt (got course_id elapsed NoResponse w).
Proof.
  intros Hr. unfold fetch_attempt, try_except, bind, session_get, backoff.
  rewrite Hr. simpl. by destruct (attempt <? RETRY_MAX_ATTEMPTS).
Qed.

(** An attempt whose GET gets a response, by status. *)
Lemma fetch_attempt_http course_id attempt w elapsed status body :
  remote course_id (gets_of course_id (trace w)) = (elapsed, Http status body) →
  fetch_attempt remote course_id attempt w =
  let w' := called (got course_id elapsed (Http status body) w) in
  if status =? 200 then
    match body with
    | Some course_data => Ok (Return (Some course_data)) w'
    | None => backoff attempt w'
    end
  else if status =? 404 then Ok (Return None) w'
  else if status =? 401 then Raise (ValueError "Invalid API key") w'
  else if status =? 429 then Ok Next (slept (seconds RATE_LIMIT_SLEEP_SECONDS) w')
  else backoff attempt w'.
Proof.
  intros Hr. unfold fetch_attempt, try_except, bind, session_get, backoff.
  rewrite Hr. simpl.
  destruct (status =? 200); [by destruct body, (attempt <? RETRY_MAX_ATTEMPTS)|].
  destruct (status =? 404); [done|].
  destruct (status =? 401); [done|].
  destruct (status =? 429); [done|].
  by destruct (attempt <? RETRY_MAX_ATTEMPTS).
Qed.

Lemma backoff_effect course_id attempt w :
  0 ≤ attempt → fetch_effect course_id 0 w (world_of (backoff attempt w)).
Proof.
  intros Ha. unfold backoff. destruct (attempt <? RETRY_MAX_ATTEMPTS); simpl.
  - apply fetch_effect_slept. unfold seconds, RETRY_DELAY_SECONDS. lia.
  - apply fetch_effect_refl.
Qed.

Lemma fetch_attempt_effect course_id attempt w :
  0 ≤ attempt →
  fetch_effect course_id 1 w (world_of (fetch_attempt remote course_id attempt w)).
Proof.
  intros Ha.
  destruct (remote course_id (gets_of course_id (trace w))) as [elapsed [|status body]] eqn:Hr.
  - rewrite (fetch_attempt_no_response _ _ _ _ Hr).
    apply (fetch_effect_trans _ 1 0 _ (got course_id elapsed NoResponse w));
      [apply fetch_effect_got | by apply backoff_effect].
  - rewrite (fetch_attempt_http _ _ _ _ _ _ Hr). cbv zeta.
    pose proof (fetch_effect_called course_id elapsed status body w) as Hcall.
    assert (Hback : fetch_effect course_id 1 w
              (world_of (backoff attempt
                 (called (got course_id elapsed (Http status body) w))))).
    { apply (fetch_effect_trans _ 1 0 _ _ _ Hcall). by apply backoff_effect. }
    destruct (status =? 200); [by destruct body|].
    destruct (status =? 404); [done|].
    destruct (status =? 401); [done|].
    destruct (status =? 429); [|done].
    apply (fetch_effect_trans _ 1 0 _ _ _ Hcall). simpl.
    apply fetch_effect_slept. unfold seconds, RATE_LIMIT_SLEEP_SECONDS. lia.
Qed.

Lemma fetch_attempts_effect attempts course_id w :
  Forall (fun attempt => 0 ≤ attempt) attempts →
  fetch_effect course_id (length attempts) w
    (world_of (fetch_attempts remote attempts course_id w)).
Proof.
  intros Hall. revert w. induction Hall as [|attempt rest Ha Hall IH]; intros w.
  - apply fetch_effect_refl.
  - pose proof (fetch_attempt_effect course_id attempt w Ha) as Hone.
    simpl. unfold bind.
    destruct (fetch_attempt remote course_id attempt w) as [[v|] w1|e w1]; simpl in *.
    + eapply fetch_effect_mono; [|exact Hone]. lia.
    + apply (fetch_effect_trans _ 1 (length rest) _ _ _ Hone), IH.
    + eapply fetch_effect_mono; [|exact Hone]. lia.
Qed.

Lemma fetch_course_effect course_id w :
  fetch_effect course_id (Z.to_nat RETRY_MAX_ATTEMPTS) w
    (world_of (fetch_course remote course_id w)).
Proof.
  apply (fetch_attempts_effect (range 1 (RETRY_MAX_ATTEMPTS + 1))).
  vm_compute. repeat constructor; discriminate.
Qed.

Lemma fetch_attempts_throttled course_id attempt rest w elapsed body :
  remote course_id (gets_of course_id (trace w)) = (elapsed, Http 429 body) →
  fetch_attempts remote (attempt :: rest) course_id w
  = fetch_attempts remote rest course_id
      (slept (seconds RATE_LIMIT_SLEEP_SECONDS)
         (called (got course_id elapsed (Http 429 body) w))).
Proof.
  intros Hr. simpl. unfold bind. by rewrite (fetch_attempt_http _ _ _ _ _ _ Hr).
Qed.

(** A remote side that throttles every GET for an id wears the attempts
    out: the fetch ends with nothing. *)
Lemma fetch_attempts_all_throttled course_id attempts w :
  (∀ k, ∃ elapsed body, remote course_id k = (elapsed, Http 429 body)) →
  value_of (fetch_attempts remote attempts course_id w) = Some None.
Proof.
  intros Hall. revert w. induction attempts as [|attempt rest IH]; intros w; [done|].
  destruct (Hall (gets_of course_id (trace w))) as (elapsed & body & Hr).
  rewrite (fetch_attempts_throttled _ _ _ _ _ _ Hr). apply IH.
Qed.

(** C3, as the code has it. A 429 makes the fetcher record the call,
    sleep the fixed cooldown, whatever the attempt, and go on with the
    same id at the next attempt: the throttled attempt has used one of
    the [RETRY_MAX_ATTEMPTS] slots that it shares with the transient
    errors, so that only the attempts after it are left.  In all, a
    fetch makes at most [RETRY_MAX_ATTEMPTS] GETs, and an id that is
    throttled at every attempt is given up as absent. *)
Theorem throttled_retry_takes_an_attempt course_id attempt rest w elapsed body :
  remote course_id (gets_of course_id (trace w)) = (elapsed, Http 429 body) →
  fetch_attempts remote (attempt :: rest) course_id w
  = fetch_attempts remote rest course_id
      (slept (seconds RATE_LIMIT_SLEEP_SECONDS)
         (called (got course_id elapsed (Http 429 body) w))) ∧
  (∃ evs, trace (world_of (fetch_course remote course_id w)) = evs ++ trace w ∧
          (length (List.filter is_get evs) ≤ Z.to_nat RETRY_MAX_ATTEMPTS)%nat) ∧
  ((∀ k, ∃ elapsed' body', remote course_id k = (elapsed', Http 429 body')) →
   value_of (fetch_course remote course_id w) = Some None).
Proof.
  intros Hr. split_and!.
  - by apply fetch_attempts_throttled.
  - destruct (fetch_course_effect course_id w) as (evs & ts & ? & ? & ? & ?). eauto.
  - intros Hall. by apply fetch_attempts_all_throttled.
Qed.

(** C8, as the code has it. A fetch appends to the call ledger exactly
    one record for each GET that got a response, whatever its status; a
    GET that raised a network exception adds none, and neither do the
    sleeps. *)
Theorem call_ledger_counts_responses course_id w :
  ∃ evs, trace (world_of (fetch_course remote course_id w)) = evs ++ trace w ∧
         length (api_calls (db (world_of (fetch_course remote course_id w))))
         = (length (api_calls (db w)) + length (List.filter is_answered_get evs))%nat.
Proof.
  destruct (fetch_course_effect course_id w)
    as (evs & ts & Htr & _ & _ & Hlen & Hdb & _).
  exists evs. split; [done|]. rewrite Hdb. simpl. rewrite length_app. lia.
Qed.

End Fetcher.

(** ** A response 401 *)

(** No event of a short list is a GET that got 401. *)
Ltac not_unauthorized :=
  let Hin := fresh "Hin" in
  intros ? ? Hin;
  repeat (apply elem_of_cons in Hin as [Hin|Hin];
          [discriminate Hin || (injection Hin; intros; subst; done)|]);
  by apply elem_of_nil in Hin.

Section Unauthorized.
Variable remote : Z → nat → N * Response.

(** An attempt either gets a 401 and raises there, the call recorded, or
    returns after events none of which is a GET that got 401. *)
Lemma fetch_attempt_cases course_id attempt w :
  (∃ elapsed body,
      remote course_id (gets_of course_id (trace w)) = (elapsed, Http 401 body) ∧
      fetch_attempt remote course_id attempt w
      = Raise (ValueError "Invalid API key")
          (called (got course_id elapsed (Http 401 body) w)))
  ∨ (∃ r w1 evs,
        fetch_attempt remote course_id attempt w = Ok r w1 ∧
        trace w1 = evs ++ trace w ∧ ∀ i body, EvGet i (Http 401 body) ∉ evs).
Proof.
  destruct (remote course_id (gets_of course_id (trace w))) as [elapsed [|status body]] eqn:Hr.
  - right. rewrite (fetch_attempt_no_response _ _ _ _ _ Hr). unfold backoff.
    destruct (_ <? _).
    + eexists _, _, [_; _]. split; [reflexivity|]. split; [reflexivity|].
      not_unauthorized.
    + eexists _, _, [_]. split; [reflexivity|]. split; [reflexivity|].
      not_unauthorized.
  - rewrite (fetch_attempt_http _ _ _ _ _ _ _ Hr). cbv zeta.
    destruct (status =? 401) eqn:H401.
    { apply Z.eqb_eq in H401 as ->. left. by exists elapsed, body. }
    apply Z.eqb_neq in H401. right.
    assert (Hback : ∃ r w1 evs,
              backoff attempt (called (got course_id elapsed (Http status body) w)) = Ok r w1 ∧
              trace w1 = evs ++ trace w ∧ ∀ i b, EvGet i (Http 401 b) ∉ evs).
    { unfold backoff. destruct (_ <? _).
      - eexists _, _, [_; _]. split; [reflexivity|]. split; [reflexivity|].
        not_unauthorized.
      - eexists _, _, [_]. split; [reflexivity|]. split; [reflexivity|].
        not_unauthorized. }
    destruct (status =? 200).
    { destruct body as [course_data|]; [|exact Hback].
      eexists _, _, [_]. split; [reflexivity|]. split; [reflexivity|].
      not_unauthorized. }
    destruct (status =? 404).
    { eexists _, _, [_]. split; [reflexivity|]. split; [reflexivity|].
      not_unauthorized. }
    destruct (status =? 429); [|exact Hback].
    eexists _, _, [_; _]. split; [reflexivity|]. split; [reflexivity|].
    not_unauthorized.
Qed.

Lemma fetch_attempts_trace attempts course_id w :
  ∃ evs, trace (world_of (fetch_attempts remote attempts course_id w)) = evs ++ trace w.
Proof.
  revert w. induction attempts as [|attempt rest IH]; intros w.
  - by exists [].
  - simpl. unfold bind.
    destruct (fetch_attempt_cases course_id attempt w)
      as [(elapsed & body & Hr & ->)|(r & w1 & evs1 & -> & Ht1 & _)].
    + by exists [EvGet course_id (Http 401 body)].
    + destruct r as [v|]; [by exists evs1|].
      destruct (IH w1) as [evs2 Ht2]. exists (evs2 ++ evs1).
      by rewrite Ht2, Ht1, app_assoc.
Qed.

(** A fetch that gets a 401 at any of its GETs raises there: the call
    is recorded, and nothing follows, no retry and no sleep. *)
Lemma fetch_attempts_unauthorized attempts course_id w evs i body :
  trace (world_of (fetch_attempts remote attempts course_id w)) = evs ++ trace w →
  EvGet i (Http 401 body) ∈ evs →
  ∃ elapsed w_k,
    fetch_attempts remote attempts course_id w
    = Raise (ValueError "Invalid API key")
        (called (got course_id elapsed (Http 401 body) w_k)) ∧
    head evs = Some (EvGet course_id (Http 401 body)).
Proof.
  revert w evs. induction attempts as [|attempt rest IH]; intros w evs Ht Hin.
  - simpl in Ht. apply (app_inv_tail _ [] evs) in Ht. subst evs. by apply elem_of_nil in Hin.
  - revert Ht. simpl. unfold bind.
    destruct (fetch_attempt_cases course_id attempt w)
      as [(elapsed & body0 & Hr & ->)|(r & w1 & evs1 & -> & Ht1 & Hnot)].
    + cbn [world_of]. intros Ht.
      change (trace (called (got course_id elapsed (Http 401 body0) w)))
        with ([EvGet course_id (Http 401 body0)] ++ trace w) in Ht.
      apply app_inv_tail in Ht. subst evs.
      apply list_elem_of_singleton in Hin. injection Hin as -> ->.
      by exists elapsed, w.
    + destruct r as [v|].
      * simpl. rewrite Ht1. intros Ht%app_inv_tail. subst evs. by destruct (Hnot i body).
      * intros Ht. destruct (fetch_attempts_trace rest course_id w1) as [evs2 Ht2].
        rewrite Ht2, Ht1, app_assoc in Ht. apply app_inv_tail in Ht. subst evs.
        apply elem_of_app in Hin as [Hin|Hin]; [|by destruct (Hnot i body)].
        destruct (IH w1 evs2 Ht2 Hin) as (elapsed & w_k & Hf & Hhead).
        exists elapsed, w_k. split; [done|].
        destruct evs2; [done|]. done.
Qed.

End Unauthorized.

(** ** Composition of what computations keep *)

Section Keeps.

Context (R : World → World → Prop) `{!Reflexive R} `{!Transitive R}.

Lemma keeps_ret {A} (a : A) : keeps R (ret a).
Proof. intros w. simpl. reflexivity. Qed.


Lemma keeps_bind {A B} (c : M A) (k : A → M B) :
  keeps R c → (∀ a, keeps R (k a)) → keeps R (bind c k).
Proof.
  intros Hc Hk w. unfold bind. specialize (Hc w).
  destruct (c w) as [a w1|e w1]; simpl in *; [|done].
  etransitivity; [exact Hc|]. apply Hk.
Qed.

Lemma keeps_try_except {A} (body : M A) handler :
  keeps R body → (∀ e h, handler e = Some h → keeps R h) →
  keeps R (try_except body handler).
Proof.
  intros Hb Hh w. unfold try_except. specialize (Hb w).
  destruct (body w) as [a w1|e w1]; simpl in *; [done|].
  destruct (handler e) as [h|] eqn:He; [|done].
  etransitivity; [exact Hb|]. by eapply Hh.
Qed.

Lemma keeps_for_each {A} (l : list A) (body : A → M unit) :
  (∀ x, keeps R (body x)) → keeps R (for_each l body).
Proof.
  intros Hb. induction l as [|x l IH]; simpl.
  - apply keeps_ret.
  - apply keeps_bind; [apply Hb | by intros _].
Qed.



End Keeps.

(** ** The save of a course *)

Global Instance save_step_refl : Reflexive save_step.
Proof. by intros w. Qed.

Global Instance save_step_trans : Transitive save_step.
Proof. intros w1 w2 w3 (?&?&?&?&?&?) (?&?&?&?&?&?). unfold save_step. naive_solver congruence. Qed.

Lemma insert_course_keeps course_id club course :
  keeps save_step (insert_course course_id club course).
Proof. intros w. unfold insert_course. by destruct (_ || _). Qed.

Lemma insert_location_keeps course_id location :
  keeps save_step (insert_location course_id location).
Proof. by intros w. Qed.

Lemma insert_tee_keeps course_id gender tee :
  keeps save_step (insert_tee course_id gender tee).
Proof. intros w. unfold insert_tee. by destruct (is_null _). Qed.

Lemma insert_hole_keeps tee_id hole_num hole :
  keeps save_step (insert_hole tee_id hole_num hole).
Proof. intros w. unfold insert_hole. by destruct (_ && _). Qed.

Lemma save_tees_keeps course_id gender tees_list :
  keeps save_step (save_tees course_id gender tees_list).
Proof.
  apply keeps_for_each; [apply _ ..|]. intros tee.
  apply keeps_bind; [apply _ | apply insert_tee_keeps |]. intros tee_id.
  apply keeps_for_each; [apply _ ..|]. intros [hole_num hole].
  apply insert_hole_keeps.
Qed.

Lemma save_body_post_bind {A} (c : M A) (k : A → M unit) w0 w :
  keeps save_step c → save_step w0 w →
  (∀ a w1, save_step w0 w1 → save_body_post w0 (k a w1)) →
  save_body_post w0 (bind c k w).
Proof.
  intros Hc Hw Hk. unfold bind. specialize (Hc w).
  destruct (c w) as [a w1|e w1]; simpl in Hc.
  - apply Hk. by etransitivity.
  - destruct Hw as (?&?&?&_), Hc as (?&?&?&_).
    unfold save_body_post. simpl. split_and!; [congruence..|done].
Qed.

Lemma increment_total_courses_post w0 w :
  save_step w0 w → save_body_post w0 (increment_total_courses w).
Proof.
  intros (Hc & Hn & Ht & Hm & Ha & Hs). unfold save_body_post, counted, db in *.
  simpl. rewrite Hm, Hn. done.
Qed.

Lemma rollback_clean w w1 :
  clean w → committed (conn w1) = committed (conn w) → now w1 = now w →
  trace w1 = trace w → rollback w1 = w.
Proof.
  unfold clean, rollback. destruct w as [[c wk] t tr]. simpl.
  by intros -> -> -> ->.
Qed.

(** A save either commits the new rows and the counter, the ledgers
    being as they were, or raises and leaves the world it found. *)
Lemma save_course_cases course_data w :
  clean w →
  match save_course course_data w with
  | Ok _ w' =>
      clean w' ∧ now w' = now w ∧ trace w' = trace w ∧
      api_calls (db w') = api_calls (db w) ∧
      scrape_attempts (db w') = scrape_attempts (db w) ∧
      scrape_metadata (db w') = counted (scrape_metadata (db w)) (now w)
  | Raise _ w' => w' = w
  end.
Proof.
  intros Hclean. unfold save_course, transaction.
  match goal with |- context [match ?b w with _ => _ end] =>
    assert (Hpost : save_body_post w (b w)) end.
  { destruct (course_id_of (course_of course_data)) as [[|course_id|course_id]|];
      try by (unfold save_body_post; simpl).
    all: apply save_body_post_bind; [apply insert_course_keeps | done |];
      intros _ w1 H1;
      apply save_body_post_bind;
        [destruct (course_location _);
           [apply insert_location_keeps | apply keeps_ret, _] | done |];
      intros _ w2 H2;
      apply save_body_post_bind; [apply save_tees_keeps | done |];
      intros _ w3 H3;
      apply save_body_post_bind; [apply save_tees_keeps | done |];
      intros _ w4 H4;
      by apply increment_total_courses_post. }
  match goal with |- context [match ?b w with _ => _ end] =>
    destruct (b w) as [[] w1|e w1] end.
  - destruct Hpost as (?&?&?&?&?&?). simpl in *. unfold clean, db in *. simpl.
    done.
  - destruct Hpost as (?&?&?&_). simpl in *. by apply rollback_clean.
Qed.

Lemma save_holes_Ok holes tee_id start w :
  1 ≤ start → start + Z.of_nat (length holes) ≤ 19 →
  ∃ w', for_each (enumerate holes start)
          (fun '(hole_num, hole) => insert_hole tee_id hole_num hole) w = Ok tt w'.
Proof.
  revert start w. induction holes as [|hole holes IH]; intros start w Hs Hl.
  - by eexists.
  - simpl in *. unfold bind, insert_hole.
    replace ((1 <=? start) && (start <=? 18)) with true by lia.
    simpl. apply IH; lia.
Qed.

Lemma save_tees_Ok course_id gender tees_list w :
  forallb tee_acceptable tees_list = true →
  ∃ w', save_tees course_id gender tees_list w = Ok tt w'.
Proof.
  revert w. induction tees_list as [|tee tees_list IH]; intros w Hacc.
  - by eexists.
  - simpl in Hacc. apply andb_prop in Hacc as [[Hname Hlen]%andb_prop Hrest].
    unfold save_tees in *. simpl. unfold bind at 1 2. unfold insert_tee.
    destruct (is_null (get (tee_name tee))); [done|]. simpl.
    unfold bind at 1. simpl.
    match goal with |- context [for_each (enumerate _ 1) ?f ?w1] =>
      destruct (save_holes_Ok (tee_holes tee) (tees_seq (db w) + 1) 1 w1)
        as [w2 Hw2] end; [lia | apply Nat.leb_le in Hlen; lia |].
    rewrite Hw2. by apply IH.
Qed.

Lemma save_holes_Ok_inv holes tee_id start w w' :
  start ≤ 19 →
  for_each (enumerate holes start)
    (fun '(hole_num, hole) => insert_hole tee_id hole_num hole) w = Ok tt w' →
  start + Z.of_nat (length holes) ≤ 19.
Proof.
  revert start w. induction holes as [|hole holes IH]; intros start w Hs; simpl.
  - lia.
  - unfold bind, insert_hole.
    destruct ((1 <=? start) && (start <=? 18)) eqn:Hrange; [|done]. simpl.
    intros Hrest. apply IH in Hrest; lia.
Qed.

Lemma save_tees_Ok_inv course_id gender tees_list w w' :
  save_tees course_id gender tees_list w = Ok tt w' →
  forallb tee_acceptable tees_list = true.
Proof.
  revert w. induction tees_list as [|tee tees_list IH]; intros w; [done|].
  intros Hsave. cbn [forallb]. apply andb_true_iff.
  unfold save_tees in *. simpl in Hsave. unfold bind at 1 2 in Hsave.
  unfold insert_tee, tee_acceptable in *.
  destruct (is_null (get (tee_name tee))); [done|]. simpl in Hsave.
  unfold bind at 1 in Hsave. simpl in Hsave.
  match type of Hsave with context [for_each (enumerate _ 1) ?f ?w1] =>
    destruct (for_each (enumerate (tee_holes tee) 1) f w1) as [[] w2|e w2] eqn:Hholes end;
    [|done].
  apply save_holes_Ok_inv in Hholes; [|lia]. split; [|by eapply IH].
  apply Nat.leb_le. lia.
Qed.

(** The store takes the acceptable payloads, and no other. *)
Lemma save_course_Ok_acceptable course_data w w' :
  save_course course_data w = Ok tt w' → acceptable course_data = true.
Proof.
  unfold acceptable, save_course, transaction.
  destruct (course_id_of (course_of course_data)) as [[|course_id|course_id]|];
    try done.
  all: unfold bind at 1; unfold insert_course;
    destruct (is_null (get_or (club_name _) _)); [done|];
    destruct (is_null (get_or (course_name _) _)); [done|]; simpl;
    unfold bind at 1;
    destruct (course_location (course_of course_data)) as [location|]; simpl;
    unfold bind at 1;
    match goal with |- context [save_tees ?i "male" ?l ?w1] =>
      destruct (save_tees i "male" l w1) as [[] w3|e w3] eqn:Hm end; try done;
    apply save_tees_Ok_inv in Hm; rewrite Hm;
    unfold bind at 1;
    match goal with |- context [save_tees ?i "female" ?l ?w1] =>
      destruct (save_tees i "female" l w1) as [[] w4|e w4] eqn:Hf end; try done;
    apply save_tees_Ok_inv in Hf; by rewrite Hf.
Qed.

Lemma save_course_acceptable course_data w :
  acceptable course_data = true → ∃ w', save_course course_data w = Ok tt w'.
Proof.
  unfold acceptable, save_course, transaction.
  intros [[[[Hid Hclub]%andb_prop Hname]%andb_prop Hm]%andb_prop Hf]%andb_prop.
  destruct (course_id_of (course_of course_data)) as [[|course_id|course_id]|];
    try done.
  all: unfold bind at 1; unfold insert_course;
    apply negb_true_iff in Hclub; apply negb_true_iff in Hname;
    rewrite Hclub, Hname; simpl;
    unfold bind at 1;
    destruct (course_location (course_of course_data)) as [location|]; simpl;
    unfold bind at 1;
    match goal with |- context [save_tees ?i "male" ?l ?w1] =>
      destruct (save_tees_Ok i "male" l w1 Hm) as [w3 ->] end;
    unfold bind at 1;
    match goal with |- context [save_tees ?i "female" ?l ?w1] =>
      destruct (save_tees_Ok i "female" l w1 Hf) as [w4 ->] end;
    by eexists.
Qed.

(** ** One iteration of the crawl loop *)

Global Instance engine_step_refl current_id : Reflexive (engine_step current_id).
Proof.
  intros w Hc. split_and!; try done; [|by left].
  exists []. split; [done|]. by intros i r ?%elem_of_nil.
Qed.

Global Instance engine_step_trans current_id : Transitive (engine_step current_id).
Proof.
  intros w1 w2 w3 H12 H23 Hc.
  destruct (H12 Hc) as (Hc2 & (evs1 & Ht1 & Hg1) & Hd1 & Hl1 & Hf1).
  destruct (H23 Hc2) as (Hc3 & (evs2 & Ht2 & Hg2) & Hd2 & Hl2 & Hf2).
  split_and!; try done.
  - exists (evs2 ++ evs1). split; [by rewrite Ht2, Ht1, app_assoc|].
    intros i r [?|?]%elem_of_app; eauto.
  - by etransitivity.
  - destruct Hl1, Hl2; [left|right|right|right]; congruence.
  - congruence.
Qed.

(** A step that only changes the ledger of calls, the clock and the
    trace, the latter by events that are no GET. *)
Lemma engine_step_quiet current_id w w' evs :
  (clean w → clean w') →
  trace w' = evs ++ trace w → Forall (fun e => is_get e = false) evs →
  scrape_attempts (db w') = scrape_attempts (db w) →
  scrape_metadata (db w') = scrape_metadata (db w) →
  engine_step current_id w w'.
Proof.
  intros Hc Ht Hev Ha Hm Hclean. unfold last_id, complete.
  rewrite Ha, Hm. split_and!; auto.
  exists evs. split; [done|]. intros i r Hin.
  rewrite Forall_forall in Hev. by specialize (Hev _ Hin).
Qed.

Lemma engine_step_slept current_id ms w : engine_step current_id w (slept ms w).
Proof. by apply (engine_step_quiet _ _ _ [EvSleep ms]); [..|repeat constructor| |]. Qed.

Lemma engine_step_logged current_id w :
  engine_step current_id w (logged EvRateCheck w).
Proof. by apply (engine_step_quiet _ _ _ [EvRateCheck]); [..|repeat constructor| |]. Qed.

Lemma engine_step_cleaned current_id w : engine_step current_id w (cleaned w).
Proof. by apply (engine_step_quiet _ _ _ []). Qed.

Lemma engine_step_waited current_id w : engine_step current_id w (waited w).
Proof.
  unfold waited. destruct (min_timestamp _) as [oldest|].
  - destruct (now w <? _); [apply engine_step_slept | apply engine_step_cleaned].
  - apply engine_step_slept.
Qed.

Lemma engine_step_gated cfg current_id w : engine_step current_id w (gated cfg w).
Proof.
  unfold gated. cbv zeta. destruct (_ <? _).
  - apply engine_step_logged.
  - etransitivity; [apply engine_step_logged|].
    etransitivity; [apply engine_step_waited | apply engine_step_cleaned].
Qed.

Lemma engine_step_ended current_id w : engine_step current_id w (ended current_id w).
Proof.
  unfold ended. cbv zeta. destruct (_ =? 0).
  - etransitivity; [apply engine_step_slept | apply engine_step_cleaned].
  - apply engine_step_slept.
Qed.

Lemma engine_step_fetched current_id n w w' :
  fetch_effect current_id n w w' → engine_step current_id w w'.
Proof.
  intros (evs & ts & Ht & Hev & _ & _ & Hdb & _ & _ & Hc) Hclean.
  unfold last_id, complete. rewrite Hdb. simpl. split_and!; auto.
  exists evs. split; [done|]. intros i r Hin.
  rewrite Forall_forall in Hev. destruct (Hev _ Hin) as [Hg|Hs]; [|done].
  simpl in Hg. by apply bool_decide_eq_true in Hg.
Qed.

Lemma engine_step_attempted current_id status ok w :
  engine_step current_id w (attempted current_id status ok w).
Proof.
  intros Hclean. unfold last_id, complete. simpl. split_and!; try done.
  - exists []. split; [done|]. by intros i r ?%elem_of_nil.
  - rewrite dom_insert. set_solver.
  - by left.
Qed.

Lemma metadata_get_insert_ne row key key' v :
  key ≠ key' → metadata_get (<[key := v]> row) key' = metadata_get row key'.
Proof. intros Hne. unfold metadata_get. by rewrite lookup_insert_ne. Qed.

Lemma metadata_get_insert row key v : metadata_get (<[key := v]> row) key = v.
Proof. unfold metadata_get. by rewrite lookup_insert_eq. Qed.

Lemma last_id_positioned current_id consecutive_404s w :
  last_id (positioned current_id consecutive_404s w) = current_id.
Proof.
  unfold last_id, positioned, put, db. cbn [conn working scrape_metadata set_scrape_metadata].
  rewrite !metadata_get_insert_ne by done. by rewrite metadata_get_insert.
Qed.

Lemma consecutive_misses_positioned current_id consecutive_404s w :
  consecutive_misses (positioned current_id consecutive_404s w) = consecutive_404s.
Proof.
  unfold consecutive_misses, positioned, put, db.
  cbn [conn working scrape_metadata set_scrape_metadata].
  rewrite !metadata_get_insert_ne by done. by rewrite metadata_get_insert.
Qed.

Lemma complete_positioned current_id consecutive_404s w :
  complete (positioned current_id consecutive_404s w) = complete w.
Proof.
  unfold complete, metadata_true, positioned, put, db.
  cbn [conn working scrape_metadata set_scrape_metadata].
  by rewrite !metadata_get_insert_ne by done.
Qed.

Lemma total_saved_positioned current_id consecutive_404s w :
  total_saved (positioned current_id consecutive_404s w) = total_saved w.
Proof.
  unfold total_saved, positioned, put, db.
  cbn [conn working scrape_metadata set_scrape_metadata].
  by rewrite !metadata_get_insert_ne by done.
Qed.

Lemma engine_step_positioned current_id consecutive_404s w :
  engine_step current_id w (positioned current_id consecutive_404s w).
Proof.
  intros Hclean. rewrite last_id_positioned, complete_positioned.
  split_and!; try done; [|by right].
  exists []. split; [done|]. by intros i r ?%elem_of_nil.
Qed.

Lemma metadata_get_counted row t key :
  key ≠ "last_updated" → key ≠ "total_courses_scraped" →
  metadata_get (counted row t) key = metadata_get row key.
Proof.
  intros H1 H2. unfold counted, metadata_get.
  by rewrite lookup_insert_ne, lookup_alter_ne.
Qed.

Lemma engine_step_save_course current_id course_data w :
  engine_step current_id w (world_of (save_course course_data w)).
Proof.
  intros Hclean. pose proof (save_course_cases course_data w Hclean) as H.
  destruct (save_course course_data w) as [[] w1|e w1]; simpl.
  - destruct H as (Hc & Hn & Ht & Hcalls & Hatt & Hmeta).
    unfold last_id, complete, metadata_true. rewrite Hatt, Hmeta.
    rewrite !metadata_get_counted by done. split_and!; try done; [|by left].
    exists []. split; [done|]. by intros i r ?%elem_of_nil.
  - subst w1. by apply engine_step_refl.
Qed.

Lemma engine_step_saved current_id course_data w :
  engine_step current_id w (saved current_id course_data w).
Proof.
  pose proof (engine_step_save_course current_id course_data w) as H.
  unfold saved. destruct (save_course course_data w) as [[] w1|e w1]; simpl in H;
    (etransitivity; [exact H | apply engine_step_attempted]).
Qed.

Section Engine.

Variable cfg : Config.
Variable remote : Z → nat → N * Response.

(** The gate and the fetch: the fetch follows the gate whatever the
    gate found. *)
Lemma gated_fetch_eq current_id w :
  gated_fetch cfg remote current_id w = fetch_course remote current_id (gated cfg w).
Proof.
  unfold gated_fetch, check_rate_limit, gated, bind, log_event, ret.
  rewrite get_api_calls_in_window_eq. cbv zeta.
  destruct (count_in_window (logged EvRateCheck w) <? MAX_CALLS_PER_DAY cfg) eqn:Hlt;
    unfold logged in *; rewrite Hlt; simpl; [done|].
  unfold wait_for_rate_limit_window, get_oldest_api_call_in_window, bind, read,
    datetime_now, waited. simpl.
  destruct (min_timestamp _) as [oldest|]; [|done].
  cbn [now]. by destruct (now w <? _).
Qed.

Lemma on_miss_eq current_id consecutive_404s w :
  on_miss current_id consecutive_404s w
  = Ok (consecutive_404s + 1)
      (positioned current_id (consecutive_404s + 1) (attempted current_id 404 false w)).
Proof.
  unfold on_miss, bind. rewrite record_scrape_attempt_eq.
  by rewrite update_position_eq.
Qed.

Lemma on_course_eq current_id course_data w :
  on_course current_id course_data w
  = Ok 0 (positioned current_id 0 (saved current_id course_data w)).
Proof.
  unfold on_course, bind, try_except, saved.
  destruct (save_course course_data w) as [[] w1|e w1];
    rewrite record_scrape_attempt_eq; by rewrite update_position_eq.
Qed.

(** Step 1 of the loop: an id that has an attempt record is skipped, the
    cursor moves on and nothing else happens. *)
Lemma scrape_iteration_skip current_id consecutive_404s w :
  is_Some (scrape_attempts (db w) !! current_id) →
  scrape_iteration cfg remote current_id consecutive_404s w
  = Ok (current_id + 1, consecutive_404s) w.
Proof.
  intros Hsome. unfold scrape_iteration, bind, is_course_already_attempted, read.
  by rewrite bool_decide_eq_true_2.
Qed.

(** Steps 2 to 8 for an id without attempt record. *)
Lemma scrape_iteration_fetch current_id consecutive_404s w :
  scrape_attempts (db w) !! current_id = None →
  scrape_iteration cfg remote current_id consecutive_404s w =
  match fetch_course remote current_id (gated cfg w) with
  | Ok fetched w1 =>
      match fetched_course fetched with
      | Some course_data =>
          Ok (current_id + 1, 0)
             (ended current_id (positioned current_id 0 (saved current_id course_data w1)))
      | None =>
          Ok (current_id + 1, consecutive_404s + 1)
             (ended current_id
                (positioned current_id (consecutive_404s + 1)
                   (attempted current_id 404 false w1)))
      end
  | Raise e w1 => Raise e w1
  end.
Proof.
  intros Hnone. unfold scrape_iteration, is_course_already_attempted, read.
  unfold bind at 1. rewrite bool_decide_eq_false_2 by by rewrite Hnone; intros [].
  unfold bind at 1. rewrite gated_fetch_eq.
  destruct (fetch_course remote current_id (gated cfg w)) as [fetched w1|e w1]; [|done].
  unfold bind at 1.
  destruct (fetched_course fetched) as [course_data|].
  - rewrite on_course_eq. unfold bind, sleep, log_event, advance, ended, slept. cbv zeta.
    simpl. by destruct (_ =? 0).
  - rewrite on_miss_eq. unfold bind, sleep, log_event, advance, ended, slept. cbv zeta.
    simpl. by destruct (_ =? 0).
Qed.

(** What any iteration does to the world, and to the cursor. *)
Lemma scrape_iteration_step current_id consecutive_404s w :
  engine_step current_id w
    (world_of (scrape_iteration cfg remote current_id consecutive_404s w)) ∧
  (clean w →
   ∃ evs, trace (world_of (scrape_iteration cfg remote current_id consecutive_404s w))
          = evs ++ trace w ∧
          ∀ i r, EvGet i r ∈ evs →
                 i = current_id ∧ scrape_attempts (db w) !! i = None) ∧
  (∀ current_id' consecutive_404s' w',
      scrape_iteration cfg remote current_id consecutive_404s w
      = Ok (current_id', consecutive_404s') w' →
      current_id' = current_id + 1).
Proof.
  destruct (scrape_attempts (db w) !! current_id) as [row|] eqn:Hrow.
  { rewrite scrape_iteration_skip by by rewrite Hrow.
    split_and!; [reflexivity | | by intros ??? [= <- _ _]].
    intros _. exists []. split; [done|]. by intros i r ?%elem_of_nil. }
  assert (Hstep : engine_step current_id w
            (world_of (scrape_iteration cfg remote current_id consecutive_404s w))).
  { rewrite scrape_iteration_fetch by done.
    pose proof (fetch_course_effect remote current_id (gated cfg w)) as Hf.
    apply engine_step_fetched in Hf.
    etransitivity; [apply engine_step_gated|].
    destruct (fetch_course remote current_id (gated cfg w)) as [fetched w1|e w1];
      simpl in Hf; [|done].
    etransitivity; [exact Hf|].
    destruct (fetched_course fetched) as [course_data|]; simpl.
    + etransitivity; [apply engine_step_saved|].
      etransitivity; [apply engine_step_positioned | apply engine_step_ended].
    + etransitivity; [apply engine_step_attempted|].
      etransitivity; [apply engine_step_positioned | apply engine_step_ended]. }
  split_and!; [done| |].
  - intros Hclean. destruct (Hstep Hclean) as (_ & (evs & Ht & Hg) & _).
    exists evs. split; [done|]. intros i r Hin.
    rewrite (Hg i r Hin). done.
  - rewrite scrape_iteration_fetch by done.
    destruct (fetch_course remote current_id (gated cfg w)) as [fetched w1|e w1];
      [|done].
    by destruct (fetched_course fetched); intros ??? [= <- _ _].
Qed.

(** What the loop does from a cursor on, however long it is observed. *)
Lemma scrape_loop_run fuel current_id consecutive_404s w :
  run_step current_id w
    (world_of (scrape_loop cfg remote fuel current_id consecutive_404s w)).
Proof.
  revert current_id consecutive_404s w.
  induction fuel as [|fuel IH]; intros current_id consecutive_404s w Hclean; simpl.
  - destruct (_ <? _); simpl; (split_and!; [done| |done|by left|done]);
      exists []; (split; [done|]); by intros i r ?%elem_of_nil.
  - destruct (_ <? _); simpl; cycle 1.
    { split_and!; [done| |done|by left|done].
      exists []. split; [done|]. by intros i r ?%elem_of_nil. }
    destruct (scrape_iteration_step current_id consecutive_404s w)
      as (Hstep & Hgets & Hcur).
    destruct (Hstep Hclean) as (Hc1 & _ & Hd1 & Hl1 & Hf1).
    destruct (Hgets Hclean) as (evs1 & Ht1 & Hg1).
    unfold bind.
    destruct (scrape_iteration cfg remote current_id consecutive_404s w)
      as [[current_id' consecutive_404s'] w1|e w1] eqn:Hit; simpl in *.
    + rewrite (Hcur _ _ _ eq_refl).
      destruct (IH (current_id + 1) consecutive_404s' w1 Hc1)
        as (Hc2 & (evs2 & Ht2 & Hg2) & Hd2 & Hl2 & Hf2).
      split_and!; [done| |by etransitivity| |congruence].
      * exists (evs2 ++ evs1). split; [by rewrite Ht2, Ht1, app_assoc|].
        intros i r [Hin|Hin]%elem_of_app.
        -- destruct (Hg2 i r Hin) as [Hle Hnone]. split; [lia|].
           apply not_elem_of_dom. apply not_elem_of_dom in Hnone.
           intros Hi. by apply Hnone, Hd1.
        -- destruct (Hg1 i r Hin) as [-> Hnone]. split; [lia|done].
      * destruct Hl2 as [Hl2|Hl2]; [|right; lia].
        rewrite Hl2. destruct Hl1 as [Hl1|Hl1]; [by left|right; lia].
    + split_and!; [done| |done| |done].
      * exists evs1. split; [done|]. intros i r Hin.
        destruct (Hg1 i r Hin) as [-> Hnone]. split; [lia|done].
      * destruct Hl1 as [Hl1|Hl1]; [by left|right; lia].
Qed.

(** The gate makes no GET. *)
Lemma gated_trace w :
  ∃ evs, trace (gated cfg w) = evs ++ trace w ∧ Forall (fun e => is_get e = false) evs.
Proof.
  unfold gated, waited. cbv zeta. destruct (_ <? _).
  - exists [EvRateCheck]. split; [done|]. by repeat constructor.
  - simpl. destruct (min_timestamp _) as [oldest|]; [destruct (_ <? _)|]; simpl.
    + eexists [_; _]. split; [done|]. by repeat constructor.
    + exists [EvRateCheck]. split; [done|]. by repeat constructor.
    + eexists [_; _]. split; [done|]. by repeat constructor.
Qed.

(** A fetch starts with a GET for its id. *)
Lemma fetch_course_first_get current_id w :
  ∃ evs r, trace (world_of (fetch_course remote current_id w))
           = evs ++ EvGet current_id r :: trace w.
Proof.
  unfold fetch_course. change (range 1 (RETRY_MAX_ATTEMPTS + 1)) with [1; 2; 3].
  cbn [fetch_attempts]. unfold bind at 1.
  assert (Hfirst : ∃ evs r, trace (world_of (fetch_attempt remote current_id 1 w))
                            = evs ++ EvGet current_id r :: trace w).
  { destruct (remote current_id (gets_of current_id (trace w)))
      as [elapsed [|status body]] eqn:Hr.
    - rewrite (fetch_attempt_no_response _ _ _ _ _ Hr). by eexists [_], _.
    - rewrite (fetch_attempt_http _ _ _ _ _ _ _ Hr). cbv zeta.
      destruct (status =? 200); [destruct body|]; try by eexists [_], _.
      { by eexists [], _. }
      destruct (status =? 404); [by eexists [], _|].
      destruct (status =? 401); [by eexists [], _|].
      destruct (status =? 429); by eexists [_], _. }
  destruct Hfirst as (evs1 & r & Ht1).
  destruct (fetch_attempt remote current_id 1 w) as [[v|] w1|e w1]; simpl in Ht1;
    [by exists evs1, r| |by exists evs1, r].
  destruct (fetch_attempts_effect remote [2; 3] current_id w1)
    as (evs2 & _ & Ht2 & _); [by repeat constructor|].
  exists (evs2 ++ evs1), r. cbn [fetch_attempts] in Ht2.
  by rewrite Ht2, Ht1, app_assoc.
Qed.

Lemma gets_first evs i r gate_evs :
  Forall (fun e => is_get e = false) gate_evs →
  head (gets (evs ++ EvGet i r :: gate_evs)) = Some (i, r).
Proof.
  intros Hgate. unfold gets. rewrite omap_app.
  assert (Hnil : omap get_of gate_evs = []).
  { induction Hgate as [|[] ? Hx ? IH]; csimpl; try done. }
  csimpl. rewrite Hnil. by rewrite reverse_snoc.
Qed.

(** The first GET of an iteration at an id without attempt record. *)
Lemma scrape_iteration_first_get current_id consecutive_404s w :
  clean w → scrape_attempts (db w) !! current_id = None →
  ∃ evs r gate_evs,
    trace (world_of (scrape_iteration cfg remote current_id consecutive_404s w))
    = evs ++ EvGet current_id r :: gate_evs ++ trace w ∧
    Forall (fun e => is_get e = false) gate_evs.
Proof.
  intros Hclean Hnone. rewrite scrape_iteration_fetch by done.
  destruct (gated_trace w) as (gate_evs & Hgt & Hgate).
  destruct (fetch_course_first_get current_id (gated cfg w)) as (evs1 & r & Ht1).
  rewrite Hgt in Ht1.
  pose proof (fetch_course_effect remote current_id (gated cfg w)) as Hf.
  assert (Hcg : clean (gated cfg w)).
  { by destruct (engine_step_gated cfg current_id w Hclean). }
  destruct Hf as (_ & _ & _ & _ & _ & _ & _ & _ & _ & Hc1). specialize (Hc1 Hcg).
  destruct (fetch_course remote current_id (gated cfg w)) as [fetched w1|e w1];
    simpl in *; [|by exists evs1, r, gate_evs].
  assert (Hrest : ∀ w2, engine_step current_id w1 w2 →
            ∃ evs, trace w2 = evs ++ EvGet current_id r :: gate_evs ++ trace w).
  { intros w2 H2. destruct (H2 Hc1) as (_ & (evs2 & Ht2 & _) & _).
    exists (evs2 ++ evs1). by rewrite Ht2, Ht1, app_assoc. }
  destruct (fetched_course fetched) as [course_data|]; simpl.
  - destruct (Hrest (ended current_id (positioned current_id 0
                       (saved current_id course_data w1)))) as [evs Hevs].
    { etransitivity; [apply engine_step_saved|].
      etransitivity; [apply engine_step_positioned | apply engine_step_ended]. }
    by exists evs, r, gate_evs.
  - destruct (Hrest (ended current_id (positioned current_id (consecutive_404s + 1)
                       (attempted current_id 404 false w1)))) as [evs Hevs].
    { etransitivity; [apply engine_step_attempted|].
      etransitivity; [apply engine_step_positioned | apply engine_step_ended]. }
    by exists evs, r, gate_evs.
Qed.

(** [scrape], by the completion flag and the end of its loop. *)
Lemma scrape_eq fuel w :
  scrape cfg remote fuel w =
  if complete w then Ok Finished w
  else match scrape_loop cfg remote fuel (last_id w + 1) (consecutive_misses w) w with
       | Ok Finished w1 => Ok Finished (completed w1)
       | Ok (Running current_id consecutive_404s) w1 =>
           Ok (Running current_id consecutive_404s) w1
       | Raise e w1 => Raise e w1
       end.
Proof.
  unfold scrape, bind, get_scrape_metadata, read, complete, last_id, consecutive_misses.
  destruct (metadata_true _ _); [done|].
  destruct (scrape_loop _ _ _ _ _ _) as [[|current_id consecutive_404s] w1|e w1];
    try done.
  by rewrite update_complete_eq.
Qed.

Lemma last_id_completed w : last_id (completed w) = last_id w.
Proof.
  unfold last_id, completed, put, db. cbn [conn working scrape_metadata set_scrape_metadata].
  by rewrite !metadata_get_insert_ne by done.
Qed.

Lemma complete_completed w : complete (completed w) = true.
Proof.
  unfold complete, metadata_true, completed, put, db.
  cbn [conn working scrape_metadata set_scrape_metadata].
  rewrite metadata_get_insert_ne by done. by rewrite metadata_get_insert.
Qed.

(** What a whole run does, from the last id on. *)
Lemma scrape_run fuel w :
  clean w →
  clean (world_of (scrape cfg remote fuel w)) ∧
  (∃ evs, trace (world_of (scrape cfg remote fuel w)) = evs ++ trace w ∧
          ∀ i r, EvGet i r ∈ evs →
                 last_id w + 1 ≤ i ∧ scrape_attempts (db w) !! i = None) ∧
  last_id w ≤ last_id (world_of (scrape cfg remote fuel w)) ∧
  (complete w = true → complete (world_of (scrape cfg remote fuel w)) = true).
Proof.
  intros Hclean. rewrite scrape_eq. destruct (complete w) eqn:Hcw; simpl.
  { split_and!; [done| |done|done]. exists []. split; [done|].
    by intros i r ?%elem_of_nil. }
  destruct (scrape_loop_run fuel (last_id w + 1) (consecutive_misses w) w Hclean)
    as (Hc1 & Hev & _ & Hl & _).
  assert (Hle : ∀ w1, (last_id w1 = last_id w ∨ last_id w + 1 ≤ last_id w1) →
                      last_id w ≤ last_id w1) by (intros w1 [?|?]; lia).
  destruct (scrape_loop _ _ _ _ _ _) as [[|current_id consecutive_404s] w1|e w1];
    simpl in *; (split_and!; [try done|try done| |done]).
  - rewrite last_id_completed. by apply Hle.
  - by apply Hle.
  - by apply Hle.
Qed.

(** A loop that is seen running after [n] iterations goes on from
    there. *)
Lemma scrape_loop_app n m current_id consecutive_404s w current_id' consecutive_404s' w1 :
  scrape_loop cfg remote n current_id consecutive_404s w
  = Ok (Running current_id' consecutive_404s') w1 →
  scrape_loop cfg remote (n + m) current_id consecutive_404s w
  = scrape_loop cfg remote m current_id' consecutive_404s' w1.
Proof.
  revert current_id consecutive_404s w.
  induction n as [|n IH]; intros current_id consecutive_404s w; simpl.
  - destruct (consecutive_404s <? _) eqn:Hlt; [|done]. by intros [= <- <- <-].
  - destruct (consecutive_404s <? _) eqn:Hlt; [|done]. unfold bind.
    destruct (scrape_iteration _ _ _ _ _) as [[c1 n1] w2|e w2]; [|done].
    apply IH.
Qed.

(** C1. Idempotent resume.  No run fetches an id that has an attempt
    record when it starts, nor an id up to the last id: every GET of the
    run is for an id without record, greater than the last id.  The skip
    of an id with a record moves the cursor and does nothing else: no
    rate-limit check, no GET, no write.  In particular, with records for
    1 to 100 and 100 as last id, no GET is for an id from 1 to 100, and
    the first GET, if 101 has no record and the loop is entered, is for
    101. *)
Theorem idempotent_resume fuel w :
  clean w →
  ∃ evs, trace (world_of (scrape cfg remote fuel w)) = evs ++ trace w ∧
    (∀ i r, EvGet i r ∈ evs → scrape_attempts (db w) !! i = None ∧ last_id w < i) ∧
    (∀ current_id consecutive_404s w0,
        is_Some (scrape_attempts (db w0) !! current_id) →
        scrape_iteration cfg remote current_id consecutive_404s w0
        = Ok (current_id + 1, consecutive_404s) w0) ∧
    ((∀ i, 1 ≤ i ≤ 100 → is_Some (scrape_attempts (db w) !! i)) →
     last_id w = 100 →
     (∀ i r, EvGet i r ∈ evs → 101 ≤ i) ∧
     (scrape_attempts (db w) !! 101 = None → complete w = false →
      consecutive_misses w < CONSECUTIVE_404_LIMIT cfg → (0 < fuel)%nat →
      ∃ r, head (gets evs) = Some (101, r))).
Proof.
  intros Hclean.
  destruct (scrape_run fuel w Hclean) as (_ & (evs & Ht & Hg) & _).
  exists evs. split_and!; [done| | |].
  - intros i r Hin. destruct (Hg i r Hin). split; [done|lia].
  - intros. by apply scrape_iteration_skip.
  - intros Hledger Hlast. split.
    { intros i r Hin. destruct (Hg i r Hin). lia. }
    intros Hnone Hcw Hlt Hfuel. destruct fuel as [|fuel]; [lia|].
    revert Ht. rewrite scrape_eq, Hcw, Hlast. change (100 + 1) with 101. simpl.
    rewrite (proj2 (Z.ltb_lt _ _) Hlt). unfold bind.
    destruct (scrape_iteration_first_get 101 (consecutive_misses w) w Hclean Hnone)
      as (evs1 & r & gate_evs & Ht1 & Hgate).
    destruct (scrape_iteration_step 101 (consecutive_misses w) w)
      as (Hstep & _ & _).
    destruct (Hstep Hclean) as (Hc1 & _).
    assert (Hhead : ∀ w2 evs2, trace w2 = evs2 ++ evs1 ++ EvGet 101 r :: gate_evs ++ trace w →
              trace w2 = evs ++ trace w → ∃ r, head (gets evs) = Some (101, r)).
    { intros w2 evs2 H2 H2'. rewrite H2' in H2.
      replace (evs2 ++ evs1 ++ EvGet 101 r :: gate_evs ++ trace w)
        with (((evs2 ++ evs1) ++ EvGet 101 r :: gate_evs) ++ trace w) in H2;
        [|rewrite <- !app_assoc; reflexivity].
      apply app_inv_tail in H2. subst evs. exists r. by apply gets_first. }
    destruct (scrape_iteration cfg remote 101 (consecutive_misses w) w)
      as [[current_id' consecutive_404s'] w1|e w1]; simpl in *; cycle 1.
    { intros Ht. apply (Hhead w1 []); [exact Ht1 | exact Ht]. }
    destruct (scrape_loop_run fuel current_id' consecutive_404s' w1 Hc1)
      as (_ & (evs2 & Ht2 & _) & _).
    destruct (scrape_loop cfg remote fuel current_id' consecutive_404s' w1)
      as [[|] w2|e w2]; simpl in *; intros Ht;
      (eapply (Hhead _ evs2); cycle 1; [exact Ht | simpl; by rewrite Ht2, Ht1]).
Qed.

(** C9. The crawl position is monotonic.  An iteration at a cursor
    greater than the last id leaves the last id as it is or sets it to
    the cursor, and then the cursor it ends with is greater again; it
    does not touch the completion flag.  Over a whole run the last id
    does not decrease and a flag that is set stays set; with the flag
    set the engine does not run: it returns at once and the world is
    the one it found. *)
Theorem crawl_position_monotone fuel w :
  clean w →
  last_id w ≤ last_id (world_of (scrape cfg remote fuel w)) ∧
  (complete w = true → complete (world_of (scrape cfg remote fuel w)) = true) ∧
  (complete w = true → scrape cfg remote fuel w = Ok Finished w) ∧
  (∀ current_id consecutive_404s,
      last_id w < current_id →
      let r := scrape_iteration cfg remote current_id consecutive_404s w in
      (last_id (world_of r) = last_id w ∨
       last_id (world_of r) = current_id ∧ last_id w < last_id (world_of r)) ∧
      complete (world_of r) = complete w ∧
      (∀ current_id' consecutive_404s' w',
          r = Ok (current_id', consecutive_404s') w' → last_id w' < current_id')).
Proof.
  intros Hclean. destruct (scrape_run fuel w Hclean) as (_ & _ & Hl & Hc).
  split_and!; [done|done| |].
  - intros Hcw. by rewrite scrape_eq, Hcw.
  - intros current_id consecutive_404s Hlt r.
    destruct (scrape_iteration_step current_id consecutive_404s w)
      as (Hstep & _ & Hcur).
    destruct (Hstep Hclean) as (_ & _ & _ & Hl1 & Hc1). fold r in Hl1, Hc1, Hcur.
    split_and!; [|done|].
    + destruct Hl1 as [Hl1|Hl1]; [by left|right; lia].
    + intros current_id' consecutive_404s' w' Hr. rewrite Hr in *. simpl in *.
      rewrite (Hcur _ _ _ eq_refl). lia.
Qed.

Lemma scrape_loop_running n current_id consecutive_404s w current_id' consecutive_404s' w1 :
  scrape_loop cfg remote n current_id consecutive_404s w
  = Ok (Running current_id' consecutive_404s') w1 →
  consecutive_404s' < CONSECUTIVE_404_LIMIT cfg.
Proof.
  revert current_id consecutive_404s w.
  induction n as [|n IH]; intros current_id consecutive_404s w; simpl.
  - destruct (consecutive_404s <? _) eqn:Hlt; [|done]. intros [= _ <- _]. lia.
  - destruct (consecutive_404s <? _) eqn:Hlt; [|done]. unfold bind.
    destruct (scrape_iteration _ _ _ _ _) as [[c1 n1] w2|e w2]; [|done].
    apply IH.
Qed.

(** The loop, one iteration on. *)
Lemma scrape_loop_S fuel current_id consecutive_404s w :
  consecutive_404s < CONSECUTIVE_404_LIMIT cfg →
  scrape_loop cfg remote (S fuel) current_id consecutive_404s w =
  match scrape_iteration cfg remote current_id consecutive_404s w with
  | Ok (current_id', consecutive_404s') w1 =>
      scrape_loop cfg remote fuel current_id' consecutive_404s' w1
  | Raise e w1 => Raise e w1
  end.
Proof.
  intros Hlt. simpl. rewrite (proj2 (Z.ltb_lt _ _) Hlt). unfold bind.
  by destruct (scrape_iteration _ _ _ _ _) as [[??] ?|??].
Qed.

Lemma scrape_loop_limit fuel current_id consecutive_404s w :
  CONSECUTIVE_404_LIMIT cfg ≤ consecutive_404s →
  scrape_loop cfg remote fuel current_id consecutive_404s w = Ok Finished w.
Proof.
  intros Hge. destruct fuel; simpl; by rewrite (proj2 (Z.ltb_ge _ _) Hge).
Qed.

(** [main] on a world whose crawl is complete, and on one whose crawl
    is not. *)
Lemma main_complete fuel w :
  validate cfg = None → complete w = true → clean w →
  main cfg remote fuel w = (Exit 0, logged EvClose w).
Proof.
  intros Hv Hc Hclean. unfold main, bind, get_scrape_metadata, read. rewrite Hv.
  fold (complete w). rewrite Hc. simpl. unfold rollback, logged, clean in *.
  destruct w as [[c wk] t tr]. simpl in *. by subst.
Qed.

Lemma main_scrape fuel w :
  validate cfg = None → complete w = false →
  main cfg remote fuel w =
  match scrape cfg remote fuel w with
  | Ok Finished w' => (Exit 0, world_of (close w'))
  | Ok (Running _ _) w' => (StillRunning, w')
  | Raise _ w' => (Exit 1, world_of (close w'))
  end.
Proof.
  intros Hv Hc. unfold main, bind, get_scrape_metadata, read. rewrite Hv.
  fold (complete w). by rewrite Hc.
Qed.

(** C5. Termination.  When an iteration brings the count of consecutive
    misses to the limit, the loop is left there, whatever is left of the
    observation: the run ends, and all it still does is set the
    completion flag.  (At the limit, the loop does not iterate at all.)
    From then on an invocation is a no-op: [scrape]
    returns at once and leaves the world it found, and so does [main],
    but for the close of the store; no fetch, no write. *)
Theorem crawl_terminates n m w current_id consecutive_404s w_n
    current_id' consecutive_404s' w1 :
  complete w = false →
  scrape_loop cfg remote n (last_id w + 1) (consecutive_misses w) w
  = Ok (Running current_id consecutive_404s) w_n →
  scrape_iteration cfg remote current_id consecutive_404s w_n
  = Ok (current_id', consecutive_404s') w1 →
  CONSECUTIVE_404_LIMIT cfg ≤ consecutive_404s' →
  scrape cfg remote (n + S m) w = Ok Finished (completed w1) ∧
  complete (completed w1) = true ∧
  trace (completed w1) = trace w1 ∧
  (∀ fuel current_id0 consecutive_404s0 w0,
      CONSECUTIVE_404_LIMIT cfg ≤ consecutive_404s0 →
      scrape_loop cfg remote fuel current_id0 consecutive_404s0 w0 = Ok Finished w0) ∧
  (∀ fuel w0, complete w0 = true →
      scrape cfg remote fuel w0 = Ok Finished w0 ∧
      (validate cfg = None → clean w0 →
       main cfg remote fuel w0 = (Exit 0, logged EvClose w0))).
Proof.
  intros Hc Hn Hit Hlim. split_and!.
  - rewrite scrape_eq, Hc. rewrite (scrape_loop_app _ _ _ _ _ _ _ _ Hn).
    rewrite scrape_loop_S by by eapply scrape_loop_running.
    rewrite Hit. by rewrite scrape_loop_limit.
  - apply complete_completed.
  - done.
  - intros. by apply scrape_loop_limit.
  - intros fuel w0 Hc0. split; [by rewrite scrape_eq, Hc0|].
    intros. by apply main_complete.
Qed.


(** The gate and the fetch leave the tables of courses alone. *)
Lemma course_tables_fetched current_id w :
  let w1 := world_of (fetch_course remote current_id (gated cfg w)) in
  courses (db w1) = courses (db w) ∧ locations (db w1) = locations (db w) ∧
  tees (db w1) = tees (db w) ∧ holes (db w1) = holes (db w) ∧
  scrape_metadata (db w1) = scrape_metadata (db w) ∧
  scrape_attempts (db w1) = scrape_attempts (db w).
Proof.
  intros w1.
  destruct (fetch_course_effect remote current_id (gated cfg w))
    as (_ & ts & _ & _ & _ & _ & Hdb & _).
  fold w1 in Hdb. rewrite Hdb. simpl.
  unfold gated, waited. cbv zeta. destruct (_ <? _); [done|]. simpl.
  by destruct (min_timestamp _); [destruct (_ <? _)|].
Qed.

(** C4, as the code has it.  A 401 is fatal at once, at whichever
    attempt of the fetch it comes: the fetcher records the call and
    raises, without retry or sleep, so that the GET that got the 401 is
    the last request of the fetch.  The loop does not catch the
    exception, and [main] closes the store and exits with code 1.  The
    id in flight gets no attempt record and the progress row stays as
    it was at the start of the iteration.  The ids and counts of the
    run are taken within the integers that SQLite binds.  (The code has
    no case for 403, which it handles as any unexpected status.) *)
Theorem auth_failure_aborts n m w current_id consecutive_404s w_n evs body :
  validate cfg = None →
  complete w = false →
  within_int64 w (S n) →
  scrape_loop cfg remote n (last_id w + 1) (consecutive_misses w) w
  = Ok (Running current_id consecutive_404s) w_n →
  scrape_attempts (db w_n) !! current_id = None →
  trace (world_of (fetch_course remote current_id (gated cfg w_n)))
  = evs ++ trace (gated cfg w_n) →
  EvGet current_id (Http 401 body) ∈ evs →
  (∃ elapsed w_k,
      let w' := called (got current_id elapsed (Http 401 body) w_k) in
      fetch_course remote current_id (gated cfg w_n)
      = Raise (ValueError "Invalid API key") w' ∧
      head evs = Some (EvGet current_id (Http 401 body)) ∧
      scrape cfg remote (n + S m) w = Raise (ValueError "Invalid API key") w' ∧
      main cfg remote (n + S m) w = (Exit 1, logged EvClose w') ∧
      scrape_attempts (db w') !! current_id = None ∧
      scrape_attempts (db w') = scrape_attempts (db w_n) ∧
      scrape_metadata (db w') = scrape_metadata (db w_n)) ∧
  (∀ attempt rest w0 elapsed0 body0,
      remote current_id (gets_of current_id (trace w0)) = (elapsed0, Http 401 body0) →
      fetch_attempts remote (attempt :: rest) current_id w0
      = Raise (ValueError "Invalid API key")
          (called (got current_id elapsed0 (Http 401 body0) w0))).
Proof.
  intros Hv Hc _ Hn Hnone Ht Hin. split; cycle 1.
  { intros attempt rest w0 elapsed0 body0 Hr. simpl. unfold bind.
    by rewrite (fetch_attempt_http _ _ _ _ _ _ _ Hr). }
  destruct (fetch_attempts_unauthorized remote _ _ _ _ _ _ Ht Hin)
    as (elapsed & w_k & Hf & Hhead).
  fold (fetch_course remote current_id (gated cfg w_n)) in Hf.
  exists elapsed, w_k. cbv zeta.
  assert (Hs : scrape cfg remote (n + S m) w
               = Raise (ValueError "Invalid API key")
                   (called (got current_id elapsed (Http 401 body) w_k))).
  { rewrite scrape_eq, Hc. rewrite (scrape_loop_app _ _ _ _ _ _ _ _ Hn).
    rewrite scrape_loop_S by by eapply scrape_loop_running.
    by rewrite scrape_iteration_fetch, Hf by done. }
  pose proof (course_tables_fetched current_id w_n) as Htab. cbv zeta in Htab.
  rewrite Hf in Htab. cbn [world_of] in Htab.
  destruct Htab as (_ & _ & _ & _ & Hme & Hat).
  split_and!; [done|done|done| |by rewrite Hat|done|done].
  rewrite main_scrape, Hs by done. done.
Qed.

(** C6. Atomic save.  When the save of a fetched course raises, at
    whatever statement, the rollback leaves the store exactly as it was
    before the save: no row of the course, of its location, tees or
    holes remains, and the counter of saved courses is as it was.  The
    engine then records the attempt as (id, 200, failure), sets the last
    id to the id and the count of misses to 0, and goes on with the next
    id: the iteration does not raise.  After it, the tables of courses,
    locations, tees and holes are those the iteration started with, so
    that an id that had no row has none. *)
Theorem failed_save_is_rolled_back current_id consecutive_404s w course_data w1 e w2 :
  clean w →
  scrape_attempts (db w) !! current_id = None →
  fetch_course remote current_id (gated cfg w) = Ok (Some course_data) w1 →
  truthy course_data = true →
  save_course course_data w1 = Raise e w2 →
  let w' := ended current_id (positioned current_id 0
              (attempted current_id 200 false w1)) in
  w2 = w1 ∧
  scrape_iteration cfg remote current_id consecutive_404s w
  = Ok (current_id + 1, 0) w' ∧
  scrape_attempts (db w') !! current_id
  = Some {| status_code := 200; success := false; attempted_at := now w1 |} ∧
  courses (db w') = courses (db w) ∧ locations (db w') = locations (db w) ∧
  tees (db w') = tees (db w) ∧ holes (db w') = holes (db w) ∧
  (∀ i, course_rows i (db w) = 0%nat → course_rows i (db w') = 0%nat) ∧
  total_saved w' = total_saved w ∧
  last_id w' = current_id ∧ consecutive_misses w' = 0 ∧
  (∀ fuel, consecutive_404s < CONSECUTIVE_404_LIMIT cfg →
      scrape_loop cfg remote (S fuel) current_id consecutive_404s w
      = scrape_loop cfg remote fuel (current_id + 1) 0 w').
Proof.
  intros Hclean Hnone Hfetch Htruthy Hsave w'.
  pose proof (course_tables_fetched current_id w) as Htables.
  rewrite Hfetch in Htables. simpl in Htables.
  destruct Htables as (Hco & Hlo & Hte & Hho & Hme & Hat).
  assert (Hc1 : clean w1).
  { pose proof (fetch_course_effect remote current_id (gated cfg w)) as Hf.
    rewrite Hfetch in Hf. destruct Hf as (_ & _ & _ & _ & _ & _ & _ & _ & _ & Hc).
    apply Hc. by destruct (engine_step_gated cfg current_id w Hclean). }
  pose proof (save_course_cases course_data w1 Hc1) as Hcases.
  rewrite Hsave in Hcases. subst w2.
  assert (Hit : scrape_iteration cfg remote current_id consecutive_404s w
                = Ok (current_id + 1, 0) w').
  { rewrite scrape_iteration_fetch, Hfetch by done. simpl. rewrite Htruthy.
    unfold saved. by rewrite Hsave. }
  assert (Htab : courses (db w') = courses (db w) ∧ locations (db w') = locations (db w) ∧
                 tees (db w') = tees (db w) ∧ holes (db w') = holes (db w)).
  { unfold w', ended. cbv zeta. rewrite <- Hco, <- Hlo, <- Hte, <- Hho.
    by destruct (_ =? 0). }
  destruct Htab as (Hco' & Hlo' & Hte' & Hho').
  split_and!; try done.
  - unfold w', ended. cbv zeta. destruct (_ =? 0); simpl; by rewrite lookup_insert_eq.
  - intros i. unfold course_rows. by rewrite Hco', Hlo', Hte', Hho'.
  - unfold total_saved in *. rewrite <- Hme.
    unfold w', ended. cbv zeta.
    destruct (_ =? 0); apply (total_saved_positioned current_id 0).
  - unfold w', ended. cbv zeta.
    destruct (_ =? 0); apply (last_id_positioned current_id 0).
  - unfold w', ended. cbv zeta.
    destruct (_ =? 0); apply (consecutive_misses_positioned current_id 0).
  - intros fuel Hlt. by rewrite scrape_loop_S, Hit.
Qed.

















(** ** The rolling window *)

Lemma in_window_true t ts : in_window t ts = true ↔ t - hours RATE_LIMIT_WINDOW_HOURS < ts.
Proof. unfold in_window, window_start. apply Z.ltb_lt. Qed.

(** As time goes on, no record enters the window. *)
Lemma window_narrows (l : list Z) t t' :
  t ≤ t' →
  filter (fun ts => in_window t' ts = true) l
  = filter (fun ts => in_window t' ts = true) (filter (fun ts => in_window t ts = true) l).
Proof.
  intros Hle. symmetry. apply list_filter_filter_l.
  intros ts. rewrite !in_window_true. lia.
Qed.

Lemma count_narrows (l : list Z) t t' :
  t ≤ t' →
  (length (filter (fun ts => in_window t' ts = true) l)
   ≤ length (filter (fun ts => in_window t ts = true) l))%nat.
Proof. intros Hle. rewrite (window_narrows l t t' Hle). apply length_filter. Qed.

Lemma min_timestamp_elem (l : list Z) m : min_timestamp l = Some m → m ∈ l.
Proof.
  destruct l as [|x l]; [done|]. simpl. intros [= <-].
  induction l as [|y l IH]; simpl; [by left|].
  destruct (Z.min_spec y (foldr Z.min x l)) as [[_ ->]|[_ ->]].
  - right. by left.
  - apply elem_of_cons in IH as [->|IH]; [by left|]. right. by right.
Qed.

(** The cleanup removes no record of the window. *)
Lemma count_in_window_cleaned w : count_in_window (cleaned w) = count_in_window w.
Proof.
  unfold count_in_window, cleaned, put, db.
  cbn [conn working api_calls set_api_calls now]. f_equal. f_equal.
  apply list_filter_filter_l. intros ts. rewrite in_window_true.
  unfold window_start. lia.
Qed.

(** The wait at a full window lets at least the oldest record out. *)
Lemma count_in_window_waited w :
  0 < count_in_window w → count_in_window (waited w) ≤ count_in_window w - 1.
Proof.
  unfold count_in_window, waited. intros Hpos.
  destruct (min_timestamp _) as [oldest|] eqn:Hmin; cycle 1.
  { destruct (filter _ (api_calls (db w))); [simpl in Hpos; lia | done]. }
  pose proof (min_timestamp_elem _ _ Hmin) as Hin.
  pose proof Hin as [Hw _]%list_elem_of_filter. apply in_window_true in Hw.
  cbv zeta. rewrite (proj2 (Z.ltb_lt _ _)) by lia.
  unfold slept, db. cbn [conn now].
  rewrite (window_narrows (api_calls (working (conn w))) (now w)) by (unfold seconds; lia).
  match goal with |- Z.of_nat (length (filter ?P ?l)) ≤ _ =>
    pose proof (length_filter_lt P l oldest Hin) as Hlt end.
  unfold db in *. cut (¬ in_window (now w + (oldest + hours RATE_LIMIT_WINDOW_HOURS
                                              - now w + seconds 1)) oldest = true).
  { intros Hout. specialize (Hlt Hout). lia. }
  rewrite in_window_true. unfold seconds. lia.
Qed.

(** The gate: what it is, and the count it leaves. *)
Lemma count_in_window_gated w :
  0 < MAX_CALLS_PER_DAY cfg →
  (count_in_window w < MAX_CALLS_PER_DAY cfg →
   gated cfg w = logged EvRateCheck w ∧ count_in_window (gated cfg w) = count_in_window w) ∧
  (MAX_CALLS_PER_DAY cfg ≤ count_in_window w →
   gated cfg w = cleaned (waited (logged EvRateCheck w)) ∧
   count_in_window (gated cfg w) ≤ count_in_window w - 1).
Proof.
  intros Hmax. unfold gated. cbv zeta.
  change (count_in_window (logged EvRateCheck w)) with (count_in_window w).
  split; intros Hc.
  - by rewrite (proj2 (Z.ltb_lt _ _)) by lia.
  - rewrite (proj2 (Z.ltb_ge _ _)) by lia. split; [done|].
    rewrite count_in_window_cleaned.
    change (count_in_window w) with (count_in_window (logged EvRateCheck w)).
    apply count_in_window_waited.
    change (count_in_window (logged EvRateCheck w)) with (count_in_window w). lia.
Qed.

(** A fetch raises the count by no more than the calls it records. *)
Lemma count_in_window_fetched current_id n w w' :
  fetch_effect current_id n w w' →
  ∃ evs, trace w' = evs ++ trace w ∧
         (length (List.filter is_answered_get evs) ≤ n)%nat ∧
         count_in_window w'
         ≤ count_in_window w + Z.of_nat (length (List.filter is_answered_get evs)).
Proof.
  intros (evs & ts & Ht & _ & Hn & Hlen & Hdb & _ & Hnow & _).
  exists evs. split_and!; [done| |].
  - assert (Hle : ∀ l, (length (List.filter is_answered_get l)
                        ≤ length (List.filter is_get l))%nat).
    { induction l as [|[? []| | |] l IH]; simpl; lia. }
    specialize (Hle evs). lia.
  - unfold count_in_window. rewrite Hdb. cbn [api_calls set_api_calls].
    rewrite filter_app, length_app, <- Hlen.
    pose proof (count_narrows (api_calls (db w)) _ _ Hnow).
    pose proof (length_filter (fun ts => in_window (now w') ts = true) ts). lia.
Qed.

(** C2, as the code has it.  The engine checks the rate limit once
    before the fetch of an id, not before each GET of the fetch.  When
    the check fails it waits for the oldest record of the window to
    expire, purges, and fetches without a second check; the count is
    then at least one below what it was.  The retries inside the fetch
    are not gated.  So, right after the gated fetch, the count in the
    window is at most the count the gate left plus the calls the fetch
    recorded, of which there are at most [RETRY_MAX_ATTEMPTS]; when the
    count was within the limit before the gate, it is within the limit
    after a fetch that needed one call, and at most
    [RETRY_MAX_ATTEMPTS - 1] above it otherwise. *)
Theorem quota_after_gated_fetch current_id w :
  0 < MAX_CALLS_PER_DAY cfg →
  gated_fetch cfg remote current_id w = fetch_course remote current_id (gated cfg w) ∧
  (count_in_window w < MAX_CALLS_PER_DAY cfg →
   gated cfg w = logged EvRateCheck w) ∧
  (MAX_CALLS_PER_DAY cfg ≤ count_in_window w →
   gated cfg w = cleaned (waited (logged EvRateCheck w)) ∧
   count_in_window (gated cfg w) ≤ count_in_window w - 1) ∧
  ∃ evs,
    trace (world_of (gated_fetch cfg remote current_id w)) = evs ++ trace (gated cfg w) ∧
    let calls := Z.of_nat (length (List.filter is_answered_get evs)) in
    calls ≤ RETRY_MAX_ATTEMPTS ∧
    count_in_window (world_of (gated_fetch cfg remote current_id w))
    ≤ count_in_window (gated cfg w) + calls ∧
    (count_in_window w ≤ MAX_CALLS_PER_DAY cfg →
     count_in_window (world_of (gated_fetch cfg remote current_id w))
     ≤ MAX_CALLS_PER_DAY cfg - 1 + calls).
Proof.
  intros Hmax. destruct (count_in_window_gated w Hmax) as [Hallowed Hfull].
  split_and!; [apply gated_fetch_eq | intros Hlt; by destruct (Hallowed Hlt) | done |].
  rewrite gated_fetch_eq.
  destruct (count_in_window_fetched _ _ _ _ (fetch_course_effect remote current_id
                                               (gated cfg w)))
    as (evs & Ht & Hn & Hcount).
  exists evs. split; [done|]. cbv zeta. split_and!; [|done|].
  - change RETRY_MAX_ATTEMPTS with (Z.of_nat (Z.to_nat RETRY_MAX_ATTEMPTS)). lia.
  - intros Hle. destruct (decide (count_in_window w < MAX_CALLS_PER_DAY cfg)) as [Hlt|Hge].
    + destruct (Hallowed Hlt) as [_ Heq]. lia.
    + destruct Hfull as [_ Hdec]; lia.
Qed.

End Engine.

(** ** The theorems at concrete inputs *)

Lemma idempotent_resume_witness :
  clean resumed_world ∧
  ∃ evs,
    trace (world_of (scrape default_config (always (Http 404 None)) 2 resumed_world))
    = evs ++ trace resumed_world ∧
    (∀ i r, EvGet i r ∈ evs → 101 ≤ i) ∧
    ∃ r, head (gets evs) = Some (101, r).
Proof.
  assert (Hledger : ∀ i, 1 ≤ i ≤ 100 →
                         is_Some (scrape_attempts (db resumed_world) !! i)).
  { intros i Hi.
    assert (Hall : Forall (fun i => is_Some (scrape_attempts resumed_store !! i))
                     (seqZ 1 100))
      by compute_done.
    rewrite Forall_forall in Hall. apply Hall. apply elem_of_seqZ. lia. }
  destruct (idempotent_resume default_config (always (Http 404 None)) 2 resumed_world
              eq_refl) as (evs & Ht & _ & _ & Hpart).
  destruct (Hpart Hledger eq_refl) as [Hge Hfirst].
  split; [reflexivity|]. exists evs. split_and!; [exact Ht | exact Hge |].
  apply Hfirst; [vm_compute; reflexivity | reflexivity | reflexivity | lia].
Defined.

Lemma quota_after_gated_fetch_witness :
  0 < MAX_CALLS_PER_DAY default_config ∧
  ∃ evs,
    trace (world_of (gated_fetch default_config scenario 1 fresh_world))
    = evs ++ trace (gated default_config fresh_world) ∧
    count_in_window (world_of (gated_fetch default_config scenario 1 fresh_world))
    ≤ MAX_CALLS_PER_DAY default_config - 1
      + Z.of_nat (length (List.filter is_answered_get evs)).
Proof.
  assert (Hmax : 0 < MAX_CALLS_PER_DAY default_config) by reflexivity.
  destruct (quota_after_gated_fetch default_config scenario 1 fresh_world Hmax)
    as (_ & _ & _ & evs & Ht & _ & _ & Hq).
  split; [exact Hmax|]. exists evs. split; [exact Ht|].
  apply Hq. vm_compute. discriminate.
Defined.

Lemma throttled_retry_takes_an_attempt_witness :
  throttled_then_errors 1 (gets_of 1 (trace fresh_world)) = (0%N, Http 429 None) ∧
  fetch_attempts throttled_then_errors [1; 2; 3] 1 fresh_world
  = fetch_attempts throttled_then_errors [2; 3] 1 throttled_world.
Proof.
  split; [reflexivity|].
  exact (proj1 (throttled_retry_takes_an_attempt throttled_then_errors 1 1 [2; 3]
                  fresh_world 0%N None eq_refl)).
Defined.

Lemma auth_failure_aborts_witness :
  validate default_config = None ∧
  within_int64 fresh_world 1 ∧
  ∃ w',
    fetch_course late_revoked 1 (gated default_config fresh_world)
    = Raise (ValueError "Invalid API key") w' ∧
    scrape default_config late_revoked 1 fresh_world
    = Raise (ValueError "Invalid API key") w' ∧
    main default_config late_revoked 1 fresh_world = (Exit 1, logged EvClose w') ∧
    scrape_attempts (db w') !! 1 = None.
Proof.
  assert (Hrange : within_int64 fresh_world 1) by (repeat split; by vm_compute).
  assert (Hin : EvGet 1 (Http 401 None)
                ∈ [EvGet 1 (Http 401 None); EvSleep (seconds RETRY_DELAY_SECONDS);
                   EvGet 1 (Http 500 None)]) by (by left).
  assert (Ht : trace (world_of (fetch_course late_revoked 1
                                  (gated default_config fresh_world)))
               = [EvGet 1 (Http 401 None); EvSleep (seconds RETRY_DELAY_SECONDS);
                  EvGet 1 (Http 500 None)]
                 ++ trace (gated default_config fresh_world))
    by (vm_compute; reflexivity).
  destruct (proj1 (auth_failure_aborts default_config late_revoked 0 0 fresh_world 1 0
                     fresh_world _ None eq_refl eq_refl Hrange eq_refl eq_refl Ht Hin))
    as (elapsed & w_k & Hf & _ & Hs & Hm & Hnone & _).
  split_and!; [reflexivity | exact Hrange |].
  eexists. split_and!; [exact Hf | exact Hs | exact Hm | exact Hnone].
Defined.

Lemma crawl_terminates_witness :
  complete fresh_world = false ∧
  CONSECUTIVE_404_LIMIT short_config ≤ 2 ∧
  scrape short_config (always (Http 404 None)) 2 fresh_world
  = Ok Finished
      (completed (world_of (scrape_loop short_config (always (Http 404 None)) 2 1 0
                              fresh_world))) ∧
  complete (completed (world_of (scrape_loop short_config (always (Http 404 None)) 2 1 0
                                   fresh_world))) = true.
Proof.
  destruct (crawl_terminates short_config (always (Http 404 None)) 1 0 fresh_world 2 1
              (world_of (scrape_loop short_config (always (Http 404 None)) 1 1 0
                           fresh_world))
              3 2
              (world_of (scrape_loop short_config (always (Http 404 None)) 2 1 0
                           fresh_world)))
    as (Hs & Hc & _); [reflexivity | vm_compute; reflexivity | vm_compute; reflexivity
                       | vm_compute; discriminate |].
  split_and!; [reflexivity | vm_compute; discriminate | exact Hs | exact Hc].
Defined.

Lemma failed_save_is_rolled_back_witness :
  clean fresh_world ∧
  save_course (a_bad_course 1)
    (world_of (fetch_course (always (Http 200 (Some (a_bad_course 1)))) 1
                 (gated default_config fresh_world)))
  = Raise (IntegrityError "CHECK constraint failed: holes.hole_number")
      (world_of (fetch_course (always (Http 200 (Some (a_bad_course 1)))) 1
                   (gated default_config fresh_world))) ∧
  scrape_iteration default_config (always (Http 200 (Some (a_bad_course 1)))) 1 0 fresh_world
  = Ok (2, 0)
      (ended 1 (positioned 1 0 (attempted 1 200 false
         (world_of (fetch_course (always (Http 200 (Some (a_bad_course 1)))) 1
                      (gated default_config fresh_world)))))).
Proof.
  assert (Hsave : save_course (a_bad_course 1)
            (world_of (fetch_course (always (Http 200 (Some (a_bad_course 1)))) 1
                         (gated default_config fresh_world)))
          = Raise (IntegrityError "CHECK constraint failed: holes.hole_number")
              (world_of (fetch_course (always (Http 200 (Some (a_bad_course 1)))) 1
                           (gated default_config fresh_world))))
    by (vm_compute; reflexivity).
  destruct (failed_save_is_rolled_back default_config
              (always (Http 200 (Some (a_bad_course 1)))) 1 0 fresh_world
              (a_bad_course 1) _ _ _ eq_refl eq_refl eq_refl eq_refl Hsave)
    as (_ & Hit & _).
  split_and!; [reflexivity | exact Hsave | exact Hit].
Defined.


Lemma crawl_position_monotone_witness :
  clean fresh_world ∧
  last_id fresh_world ≤ last_id (world_of (scrape default_config scenario 4 fresh_world)).
Proof.
  split; [reflexivity|].
  apply (crawl_position_monotone default_config scenario 4 fresh_world eq_refl).
Defined.

Lemma update_scrape_metadata_frame_witness :
  NoDup [("last_scraped_id", Some 7); ("consecutive_404s", Some 0)].*1 ∧
  update_scrape_metadata [("last_scraped_id", Some 7); ("consecutive_404s", Some 0)]
    fresh_world = Ok tt (positioned 7 0 fresh_world) ∧
  scrape_metadata (db (positioned 7 0 fresh_world)) !! "last_scraped_id" = Some 7 ∧
  scrape_metadata (db (positioned 7 0 fresh_world)) !! "total_courses_scraped"
  = scrape_metadata (db fresh_world) !! "total_courses_scraped" ∧
  scrape_metadata (db (positioned 7 0 fresh_world)) !! "scraping_complete"
  = scrape_metadata (db fresh_world) !! "scraping_complete".
Proof.
  assert (Hnd : NoDup [("last_scraped_id", Some 7); ("consecutive_404s", Some 0)].*1)
    by compute_done.
  destruct (update_scrape_metadata_frame
              [("last_scraped_id", Some 7); ("consecutive_404s", Some 0)]
              fresh_world (positioned 7 0 fresh_world) Hnd
              (update_position_eq 7 0 fresh_world))
    as (Hset & _ & Hframe & _).
  split_and!; [exact Hnd | apply update_position_eq | | |].
  - apply (Hset "last_scraped_id" (Some 7)); [compute_done | done].
  - apply Hframe; [compute_done | done].
  - apply Hframe; [compute_done | done].
Defined.

(** ** Where the code departs from the specification *)

(** Against C2 as the specification words it: with the default limit of
    295 calls and 294 calls in the window, the check lets the fetch
    through; the remote answers 500 three times, the fetch records its
    three calls, and right after it the count in the window is 297. *)
Lemma quota_exceeded_by_retries :
  count_in_window busy_world = 294 ∧
  MAX_CALLS_PER_DAY default_config = 295 ∧
  count_in_window
    (world_of (gated_fetch default_config (always (Http 500 None)) 1 busy_world)) = 297.
Proof. by vm_compute. Qed.

(** Against C3 as the specification words it: a first response 429 and
    two responses 500 exhaust the three attempts, and the fetch gives up
    with three GETs made; had the throttled attempt left the budget
    whole, the fetch from the world after it would go through two errors
    and reach the course, as it does when started afresh there. *)
Lemma throttled_retry_uses_the_budget :
  value_of (fetch_course throttled_then_errors 1 fresh_world) = Some None ∧
  length (gets (trace (world_of (fetch_course throttled_then_errors 1 fresh_world))))
  = 3%nat ∧
  value_of (fetch_attempts throttled_then_errors [2; 3] 1 throttled_world) = Some None ∧
  value_of (fetch_course throttled_then_errors 1 throttled_world)
  = Some (Some (a_course 1)).
Proof. by vm_compute. Qed.

(** Against C4 as the specification words it: on 403 the fetcher retries
    with backoff, three GETs in all, and then gives up; the engine
    records the id as not found, moves the last id to it, counts a miss
    and goes on: nothing is raised. *)
Lemma forbidden_is_not_fatal :
  ∃ w', scrape default_config (always (Http 403 None)) 1 fresh_world = Ok (Running 2 1) w' ∧
        length (gets (trace w')) = 3%nat ∧
        scrape_attempts (db w') !! 1
        = Some {| status_code := 404; success := false; attempted_at := 900000 |} ∧
        last_id w' = 1 ∧ consecutive_misses w' = 1 ∧
        fst (main default_config (always (Http 403 None)) 1 fresh_world) = StillRunning.
Proof. eexists. by vm_compute. Qed.

(** Against C8 as the specification words it: three attempts that end in
    a network exception make three GETs and add no call record. *)
Lemma network_errors_are_not_recorded :
  length (gets (trace (world_of (fetch_course (always NoResponse) 1 fresh_world))))
  = 3%nat ∧
  api_calls (db (world_of (fetch_course (always NoResponse) 1 fresh_world))) = [].
Proof. by vm_compute. Qed.

(** * Further properties of the code *)

(** ** The attempt ledger *)

(** X1. The attempt ledger is keyed by the course id and
    [record_scrape_attempt] is an upsert on it.  For an id and a status
    that SQLite binds, the call does not raise; after it
    [is_course_already_attempted] answers true for the id, and the row
    of the id holds the status and the success flag that were passed.
    The rows of the other ids, and the answers for them, are as before.
    The ledger has one row more when the id had none, and as many as
    before when it had one: a second record for an id replaces the
    first. *)
Theorem record_scrape_attempt_upsert course_id status ok w :
  int64 course_id → int64 status →
  ∃ w', record_scrape_attempt course_id status ok w = Ok tt w' ∧
        value_of (is_course_already_attempted course_id w') = Some true ∧
        status_code <$> scrape_attempts (db w') !! course_id = Some status ∧
        success <$> scrape_attempts (db w') !! course_id = Some ok ∧
        (∀ i, int64 i → i ≠ course_id →
              scrape_attempts (db w') !! i = scrape_attempts (db w) !! i ∧
              value_of (is_course_already_attempted i w')
              = value_of (is_course_already_attempted i w)) ∧
        size (scrape_attempts (db w'))
        = (if bool_decide (is_Some (scrape_attempts (db w) !! course_id))
           then size (scrape_attempts (db w))
           else S (size (scrape_attempts (db w)))).
Proof.
  intros _ _. exists (attempted course_id status ok w). split; [done|].
  unfold is_course_already_attempted, read, attempted, put, db. simpl.
  split_and!.
  - by rewrite lookup_insert_eq, bool_decide_eq_true_2.
  - by rewrite lookup_insert_eq.
  - by rewrite lookup_insert_eq.
  - intros i _ Hne. by rewrite lookup_insert_ne.
  - case_bool_decide as Hs.
    + by apply map_size_insert_Some.
    + apply map_size_insert_None. by apply eq_None_not_Some.
Qed.

Section EngineMore.

Variable cfg : Config.
Variable remote : Z → nat → N * Response.

(** ** The crawl position across iterations and restarts *)

Lemma metadata_ended current_id w :
  scrape_metadata (db (ended current_id w)) = scrape_metadata (db w) ∧
  scrape_attempts (db (ended current_id w)) = scrape_attempts (db w).
Proof. unfold ended. cbv zeta. by destruct (_ =? 0). Qed.

Lemma attempts_saved current_id course_data w :
  is_Some (scrape_attempts (db (saved current_id course_data w)) !! current_id).
Proof.
  unfold saved. destruct (save_course course_data w); simpl;
    rewrite lookup_insert_eq; eauto.
Qed.

(** What an iteration that does not raise leaves at its id. *)
Lemma scrape_iteration_position current_id consecutive_404s w
    current_id' consecutive_404s' w' :
  scrape_iteration cfg remote current_id consecutive_404s w
  = Ok (current_id', consecutive_404s') w' →
  current_id' = current_id + 1 ∧
  is_Some (scrape_attempts (db w') !! current_id) ∧
  (is_Some (scrape_attempts (db w) !! current_id) ∧ w' = w ∧
   consecutive_404s' = consecutive_404s
   ∨ scrape_attempts (db w) !! current_id = None ∧
     last_id w' = current_id ∧ consecutive_misses w' = consecutive_404s').
Proof.
  destruct (scrape_attempts (db w) !! current_id) as [row|] eqn:Hrow.
  { rewrite scrape_iteration_skip by by rewrite Hrow.
    intros [= <- <- <-]. split_and!; [done|by rewrite Hrow|left; eauto]. }
  rewrite scrape_iteration_fetch by done.
  destruct (fetch_course remote current_id (gated cfg w)) as [fetched w1|e w1]; [|done].
  destruct (fetched_course fetched) as [course_data|]; intros [= <- <- <-];
    (split_and!; [done| |right]).
  - destruct (metadata_ended current_id
                (positioned current_id 0 (saved current_id course_data w1))) as [_ ->].
    apply attempts_saved.
  - unfold last_id, consecutive_misses.
    destruct (metadata_ended current_id
                (positioned current_id 0 (saved current_id course_data w1))) as [-> _].
    split_and!; [done| |].
    + apply (last_id_positioned current_id 0).
    + apply (consecutive_misses_positioned current_id 0).
  - destruct (metadata_ended current_id
                (positioned current_id (consecutive_404s + 1)
                   (attempted current_id 404 false w1))) as [_ ->].
    simpl. rewrite lookup_insert_eq. eauto.
  - unfold last_id, consecutive_misses.
    destruct (metadata_ended current_id
                (positioned current_id (consecutive_404s + 1)
                   (attempted current_id 404 false w1))) as [-> _].
    split_and!; [done| |].
    + apply (last_id_positioned current_id (consecutive_404s + 1)).
    + apply (consecutive_misses_positioned current_id (consecutive_404s + 1)).
Qed.

(** The loop over ids that all have an attempt record. *)
Lemma scrape_loop_skips n current_id consecutive_404s w :
  consecutive_404s < CONSECUTIVE_404_LIMIT cfg →
  (∀ i, current_id ≤ i < current_id + Z.of_nat n →
        is_Some (scrape_attempts (db w) !! i)) →
  scrape_loop cfg remote n current_id consecutive_404s w
  = Ok (Running (current_id + Z.of_nat n) consecutive_404s) w.
Proof.
  intros Hlt. revert current_id. induction n as [|n IH]; intros current_id Hall.
  - simpl. rewrite (proj2 (Z.ltb_lt _ _) Hlt). by rewrite Z.add_0_r.
  - rewrite scrape_loop_S by done. rewrite scrape_iteration_skip by (apply Hall; lia).
    rewrite IH by (intros i Hi; apply Hall; lia). do 2 f_equal. lia.
Qed.

(** X2. Ids that have an attempt record cost nothing.  Below the limit
    of consecutive misses, the loop passes over [n] ids in a row that
    all have a record in [n] iterations and leaves the world exactly as
    it found it: no rate-limit check, no GET, no sleep, no write, and
    the count of consecutive misses as it was.  A longer observation
    goes on from the id after them. *)
Theorem skipped_ids_cost_nothing n current_id consecutive_404s w :
  consecutive_404s < CONSECUTIVE_404_LIMIT cfg →
  (∀ i, current_id ≤ i < current_id + Z.of_nat n →
        is_Some (scrape_attempts (db w) !! i)) →
  scrape_loop cfg remote n current_id consecutive_404s w
  = Ok (Running (current_id + Z.of_nat n) consecutive_404s) w ∧
  ∀ m, scrape_loop cfg remote (n + m) current_id consecutive_404s w
       = scrape_loop cfg remote m (current_id + Z.of_nat n) consecutive_404s w.
Proof.
  intros Hlt Hall. pose proof (scrape_loop_skips n _ _ w Hlt Hall) as Hn.
  split; [done|]. intros m. by apply scrape_loop_app.
Qed.

Lemma scrape_loop_resumable n current_id consecutive_404s w
    current_id' consecutive_404s' w' :
  scrape_loop cfg remote n current_id consecutive_404s w
  = Ok (Running current_id' consecutive_404s') w' →
  resumable current_id consecutive_404s w →
  resumable current_id' consecutive_404s' w'.
Proof.
  revert current_id consecutive_404s w.
  induction n as [|n IH]; intros current_id consecutive_404s w; simpl.
  - destruct (_ <? _); [|done]. by intros [= <- <- <-].
  - destruct (_ <? _); [|done]. unfold bind.
    destruct (scrape_iteration cfg remote current_id consecutive_404s w)
      as [[current_id1 consecutive_404s1] w1|e w1] eqn:Hit; [|done].
    intros Hloop (Hm & Hl & Hall). apply (IH _ _ _ Hloop).
    destruct (scrape_iteration_position _ _ _ _ _ _ Hit)
      as (-> & Hrec & [(Hsome & -> & ->)|(Hnone & Hl1 & Hm1)]).
    + split_and!; [done|lia|]. intros i Hi.
      destruct (decide (i = current_id)) as [->|]; [done|]. apply Hall. lia.
    + split_and!; [done|lia|]. intros i Hi. lia.
Qed.

(** X4. A run can be stopped between two iterations and started again.
    When a run from a connection with nothing pending is seen in its
    loop after [n] iterations, nothing is pending, the persisted count
    of consecutive misses is the count of the loop, and the last id is
    below the cursor.  A new run from that state first passes over the
    ids between the last id and the cursor, which all have a record,
    and then does what the first run would have done: for some [k],
    the new run observed for [k + m] iterations gives what the first
    run gives when observed for [n + m]. *)
Theorem restart_continues_the_run n w current_id consecutive_404s w' :
  clean w →
  scrape cfg remote n w = Ok (Running current_id consecutive_404s) w' →
  clean w' ∧ consecutive_misses w' = consecutive_404s ∧ last_id w' < current_id ∧
  ∃ k, ∀ m, scrape cfg remote (k + m) w' = scrape cfg remote (n + m) w.
Proof.
  intros Hclean. rewrite scrape_eq. destruct (complete w) eqn:Hcw; [done|].
  pose proof (scrape_loop_run cfg remote n (last_id w + 1) (consecutive_misses w) w Hclean)
    as (Hc' & _ & _ & _ & Hcw').
  destruct (scrape_loop cfg remote n (last_id w + 1) (consecutive_misses w) w)
    as [[|current_id1 consecutive_404s1] w1|e w1] eqn:Hloop; try done.
  intros [= -> -> ->]. simpl in Hc', Hcw'.
  destruct (scrape_loop_resumable _ _ _ _ _ _ _ Hloop) as (Hm & Hl & Hall).
  { split_and!; [done|lia|]. intros i Hi. lia. }
  split_and!; [done..|].
  exists (Z.to_nat (current_id - (last_id w' + 1))). intros m.
  rewrite !scrape_eq, Hcw, Hcw', Hcw, Hm.
  rewrite (scrape_loop_app cfg remote _ m _ _ _ _ _ _ Hloop).
  rewrite (scrape_loop_app cfg remote _ m (last_id w' + 1) consecutive_404s w'
             current_id consecutive_404s w'); [done|].
  rewrite scrape_loop_skips.
  - do 2 f_equal. lia.
  - by eapply scrape_loop_running.
  - intros i Hi. apply Hall. lia.
Qed.

(** X3. No GET without a record.  When a run from a connection with
    nothing pending returns, or is seen between two iterations, every
    id for which it made a GET has an attempt record. *)
Theorem fetched_ids_are_recorded fuel w r w' :
  clean w →
  scrape cfg remote fuel w = Ok r w' →
  ∃ evs, trace w' = evs ++ trace w ∧
         ∀ i resp, EvGet i resp ∈ evs → is_Some (scrape_attempts (db w') !! i).
Proof.
  intros Hclean. rewrite scrape_eq. destruct (complete w) eqn:Hcw.
  { intros [= <- <-]. exists []. split; [done|]. by intros ?? ?%elem_of_nil. }
  assert (Hloop : ∀ n current_id consecutive_404s w0 r0 w1,
             clean w0 →
             scrape_loop cfg remote n current_id consecutive_404s w0 = Ok r0 w1 →
             ∃ evs, trace w1 = evs ++ trace w0 ∧
                    ∀ i resp, EvGet i resp ∈ evs →
                              is_Some (scrape_attempts (db w1) !! i)).
  { clear. induction n as [|n IH]; intros current_id consecutive_404s w0 r0 w1 Hc0; simpl.
    - destruct (_ <? _); intros [= <- <-]; exists []; (split; [done|]);
        by intros ?? ?%elem_of_nil.
    - destruct (_ <? _); cycle 1.
      { intros [= <- <-]; exists []; (split; [done|]); by intros ?? ?%elem_of_nil. }
      unfold bind.
      destruct (scrape_iteration_step cfg remote current_id consecutive_404s w0)
        as (Hstep & _ & _).
      destruct (Hstep Hc0) as (Hc1 & (evs1 & Ht1 & Hg1) & _).
      destruct (scrape_iteration cfg remote current_id consecutive_404s w0)
        as [[current_id1 consecutive_404s1] w2|e w2] eqn:Hit; [|done].
      simpl in *. intros Hrest.
      destruct (scrape_iteration_position _ _ _ _ _ _ Hit) as (_ & Hrec & _).
      destruct (IH _ _ _ _ _ Hc1 Hrest) as (evs2 & Ht2 & Hg2).
      destruct (scrape_loop_run cfg remote n current_id1 consecutive_404s1 w2 Hc1)
        as (_ & _ & Hdom & _).
      rewrite Hrest in Hdom. simpl in Hdom.
      exists (evs2 ++ evs1). split; [by rewrite Ht2, Ht1, app_assoc|].
      intros i resp [Hin|Hin]%elem_of_app; [by eapply Hg2|].
      rewrite (Hg1 i resp Hin). apply elem_of_dom, Hdom, elem_of_dom, Hrec. }
  destruct (scrape_loop cfg remote fuel (last_id w + 1) (consecutive_misses w) w)
    as [[|current_id consecutive_404s] w1|e w1] eqn:Hl; try done.
  - intros [= <- <-]. destruct (Hloop _ _ _ _ _ _ Hclean Hl) as (evs & Ht & Hg).
    exists evs. split; [done|]. intros i resp Hin. by apply (Hg i resp).
  - intros [= <- <-]. by apply (Hloop _ _ _ _ _ _ Hclean Hl).
Qed.

(** ** What a fetch returns and raises *)

Lemma fetch_attempts_outcome attempts course_id w :
  match fetch_attempts remote attempts course_id w with
  | Ok (Some course_data) w' =>
      head (trace w') = Some (EvGet course_id (Http 200 (Some course_data)))
  | Ok None _ => True
  | Raise e w' =>
      e = ValueError "Invalid API key" ∧
      ∃ body, head (trace w') = Some (EvGet course_id (Http 401 body))
  end.
Proof.
  revert w. induction attempts as [|attempt rest IH]; intros w; [done|].
  simpl. unfold bind.
  destruct (remote course_id (gets_of course_id (trace w))) as [elapsed [|status body]] eqn:Hr.
  - rewrite (fetch_attempt_no_response _ _ _ _ _ Hr). unfold backoff.
    destruct (_ <? _); [apply IH|done].
  - rewrite (fetch_attempt_http _ _ _ _ _ _ _ Hr). cbv zeta.
    destruct (status =? 200) eqn:H200.
    { apply Z.eqb_eq in H200 as ->. destruct body as [course_data|]; [done|].
      unfold backoff. destruct (_ <? _); [apply IH|done]. }
    destruct (status =? 404); [done|].
    destruct (status =? 401) eqn:H401.
    { apply Z.eqb_eq in H401 as ->. split; [done|]. by exists body. }
    destruct (status =? 429); [apply IH|].
    unfold backoff. destruct (_ <? _); [apply IH|done].
Qed.

(** X5. What a fetch gives.  It returns a payload only as the decoded
    body of a response 200, and the GET that got that response is the
    last of its requests and sleeps.  The only exception that leaves it
    is the ValueError of an invalid key, and then the last of its
    requests and sleeps is a GET for its id that got 401. *)
Theorem fetch_course_outcomes course_id w :
  match fetch_course remote course_id w with
  | Ok (Some course_data) w' =>
      head (trace w') = Some (EvGet course_id (Http 200 (Some course_data)))
  | Ok None _ => True
  | Raise e w' =>
      e = ValueError "Invalid API key" ∧
      ∃ body, head (trace w') = Some (EvGet course_id (Http 401 body))
  end.
Proof. apply fetch_attempts_outcome. Qed.

(** An exception that leaves the loop. *)
Lemma scrape_loop_Raise n current_id consecutive_404s w e w' :
  scrape_loop cfg remote n current_id consecutive_404s w = Raise e w' →
  e = ValueError "Invalid API key" ∧
  ∃ i body, head (trace w') = Some (EvGet i (Http 401 body)).
Proof.
  revert current_id consecutive_404s w.
  induction n as [|n IH]; intros current_id consecutive_404s w; simpl.
  - by destruct (_ <? _).
  - destruct (_ <? _); [|done]. unfold bind.
    destruct (scrape_iteration cfg remote current_id consecutive_404s w)
      as [[current_id1 consecutive_404s1] w1|e1 w1] eqn:Hit; [apply IH|].
    intros [= -> ->]. revert Hit.
    destruct (scrape_attempts (db w) !! current_id) as [row|] eqn:Hrow.
    { by rewrite scrape_iteration_skip by by rewrite Hrow. }
    rewrite scrape_iteration_fetch by done.
    pose proof (fetch_attempts_outcome (range 1 (RETRY_MAX_ATTEMPTS + 1))
                  current_id (gated cfg w)) as Hout.
    fold (fetch_course remote current_id (gated cfg w)) in Hout.
    destruct (fetch_course remote current_id (gated cfg w)) as [fetched w2|e2 w2].
    { by destruct (fetched_course fetched). }
    intros [= -> ->]. destruct Hout as [-> [body Hb]]. eauto.
Qed.

(** X7. With payloads as the embedding has them (the body of a 200 is
    a JSON object whose course, when it has one, is an object), and for
    a run whose ids and counts are within the integers that SQLite
    binds, the only exception that leaves [scrape] is the ValueError of
    an invalid key, and the last request or sleep of the run before it
    is a GET that got 401: a failed save, a network error or any other
    status never ends the run. *)
Theorem scrape_raises_only_on_401 fuel w e w' :
  within_int64 w fuel →
  scrape cfg remote fuel w = Raise e w' →
  e = ValueError "Invalid API key" ∧
  ∃ i body, head (trace w') = Some (EvGet i (Http 401 body)).
Proof.
  intros _. rewrite scrape_eq. destruct (complete w); [done|].
  destruct (scrape_loop cfg remote fuel (last_id w + 1) (consecutive_misses w) w)
    as [[|current_id consecutive_404s] w1|e1 w1] eqn:Hloop; try done.
  intros [= -> ->]. by eapply scrape_loop_Raise.
Qed.

(** ** Transient errors *)

Lemma sleeps_cons_sleep ms tr : sleeps (EvSleep ms :: tr) = sleeps tr ++ [ms].
Proof. unfold sleeps. csimpl. by rewrite reverse_cons. Qed.

Lemma sleeps_cons_get i r tr : sleeps (EvGet i r :: tr) = sleeps tr.
Proof. done. Qed.

Lemma gets_cons_get i r tr : gets (EvGet i r :: tr) = gets tr ++ [(i, r)].
Proof. unfold gets. csimpl. by rewrite reverse_cons. Qed.

Lemma gets_cons_sleep ms tr : gets (EvSleep ms :: tr) = gets tr.
Proof. done. Qed.

(** An attempt that meets a transient error: the GET, the record of the
    call when there was a response, and the backoff. *)
Lemma fetch_attempt_transient course_id attempt w :
  transient (remote course_id (gets_of course_id (trace w))).2 = true →
  ∃ w1, fetch_attempt remote course_id attempt w = backoff attempt w1 ∧
        trace w1 = EvGet course_id (remote course_id (gets_of course_id (trace w))).2
                   :: trace w ∧
        now w1 = now w + Z.of_N (remote course_id (gets_of course_id (trace w))).1 ∧
        scrape_attempts (db w1) = scrape_attempts (db w) ∧
        scrape_metadata (db w1) = scrape_metadata (db w).
Proof.
  destruct (remote course_id (gets_of course_id (trace w))) as [elapsed [|status body]] eqn:Hr;
    simpl; intros Htr.
  - rewrite (fetch_attempt_no_response _ _ _ _ _ Hr). by eexists.
  - rewrite (fetch_attempt_http _ _ _ _ _ _ _ Hr). cbv zeta.
    destruct (status =? 200).
    { destruct body; [done|]. by eexists. }
    destruct (status =? 404); [done|]. destruct (status =? 401); [done|].
    destruct (status =? 429); [done|]. by eexists.
Qed.

(** The fetch of an id that meets transient errors only. *)
Lemma fetch_course_transient course_id w :
  (∀ k, transient (remote course_id k).2 = true) →
  ∃ w', fetch_course remote course_id w = Ok None w' ∧
        sleeps (trace w') = sleeps (trace w)
                            ++ [seconds RETRY_DELAY_SECONDS; seconds (2 * RETRY_DELAY_SECONDS)] ∧
        length (gets (trace w')) = (length (gets (trace w)) + 3)%nat ∧
        now w + seconds (3 * RETRY_DELAY_SECONDS) ≤ now w' ∧
        scrape_attempts (db w') = scrape_attempts (db w) ∧
        scrape_metadata (db w') = scrape_metadata (db w).
Proof.
  intros Hall. unfold fetch_course. change (range 1 (RETRY_MAX_ATTEMPTS + 1)) with [1; 2; 3].
  cbn [fetch_attempts]. unfold bind at 1.
  destruct (fetch_attempt_transient course_id 1 w (Hall _))
    as (w1 & -> & Ht1 & Hn1 & Ha1 & Hm1).
  unfold backoff at 1. change (1 <? RETRY_MAX_ATTEMPTS) with true. cbv iota.
  unfold bind at 1.
  destruct (fetch_attempt_transient course_id 2
              (slept (seconds (RETRY_DELAY_SECONDS * 1)) w1) (Hall _))
    as (w2 & -> & Ht2 & Hn2 & Ha2 & Hm2).
  unfold backoff at 1. change (2 <? RETRY_MAX_ATTEMPTS) with true. cbv iota.
  unfold bind at 1.
  destruct (fetch_attempt_transient course_id 3
              (slept (seconds (RETRY_DELAY_SECONDS * 2)) w2) (Hall _))
    as (w3 & -> & Ht3 & Hn3 & Ha3 & Hm3).
  unfold backoff at 1. change (3 <? RETRY_MAX_ATTEMPTS) with false. cbv iota.
  exists w3. split; [done|]. split_and!.
  - rewrite Ht3. rewrite sleeps_cons_get. cbn [trace slept].
    rewrite sleeps_cons_sleep, Ht2, sleeps_cons_get. cbn [trace slept].
    rewrite sleeps_cons_sleep, Ht1, sleeps_cons_get. by rewrite <- app_assoc.
  - rewrite Ht3, gets_cons_get. cbn [trace slept].
    rewrite gets_cons_sleep, Ht2, gets_cons_get. cbn [trace slept].
    rewrite gets_cons_sleep, Ht1, gets_cons_get. rewrite !length_app. simpl. lia.
  - rewrite Hn3. cbn [now slept]. rewrite Hn2. cbn [now slept]. rewrite Hn1.
    unfold seconds, RETRY_DELAY_SECONDS. lia.
  - rewrite Ha3. change (db (slept _ w2)) with (db w2). rewrite Ha2.
    by change (db (slept _ w1)) with (db w1).
  - rewrite Hm3. change (db (slept _ w2)) with (db w2). rewrite Hm2.
    by change (db (slept _ w1)) with (db w1).
Qed.

(** X6. Transient errors.  When every GET for an id ends in a network
    exception, in a 200 whose body is no JSON, or in a status that is
    none of 200, 404, 401 and 429, the fetch makes three GETs, sleeps
    300 seconds after the first and 600 seconds after the second and
    not after the third, and returns nothing; it takes at least 900
    seconds. *)
Theorem transient_errors_back_off course_id w :
  (∀ k, transient (remote course_id k).2 = true) →
  ∃ w', fetch_course remote course_id w = Ok None w' ∧
        sleeps (trace w') = sleeps (trace w) ++ [seconds 300; seconds 600] ∧
        length (gets (trace w')) = (length (gets (trace w)) + 3)%nat ∧
        now w + seconds 900 ≤ now w'.
Proof.
  intros Hall. destruct (fetch_course_transient course_id w Hall)
    as (w' & Hf & Hs & Hg & Hn & _).
  exists w'. by split_and!.
Qed.

End EngineMore.

(** ** The ledger of API calls *)

Lemma record_api_call_eq w : record_api_call w = Ok tt (called w).
Proof. done. Qed.

Lemma cleanup_old_api_calls_eq w : cleanup_old_api_calls w = Ok tt (cleaned w).
Proof. done. Qed.

Lemma min_timestamp_le (l : list Z) m : min_timestamp l = Some m → ∀ ts, ts ∈ l → m ≤ ts.
Proof.
  destruct l as [|x l]; [done|]. simpl. intros [= <-].
  induction l as [|y l IH]; simpl; intros ts Hin.
  - apply list_elem_of_singleton in Hin as ->. lia.
  - apply elem_of_cons in Hin as [->|Hin].
    { pose proof (IH x (list_elem_of_here _ _)). lia. }
    apply elem_of_cons in Hin as [->|Hin]; [lia|].
    pose proof (IH ts (list_elem_of_further _ _ _ Hin)). lia.
Qed.

(** X8. A recorded call counts for 24 hours.  [record_api_call] never
    raises, commits, and leaves the clock and the outside alone; a
    count of the window taken [ms] milliseconds later is the count that
    would have been taken then without the call, plus one exactly when
    [ms] is less than 24 hours. *)
Theorem recorded_call_counts_for_a_day w ms :
  ∃ w1, record_api_call w = Ok tt w1 ∧ clean w1 ∧ now w1 = now w ∧ trace w1 = trace w ∧
        get_api_calls_in_window (slept ms w1) = Ok (count_in_window (slept ms w1)) (slept ms w1) ∧
        count_in_window (slept ms w1)
        = count_in_window (slept ms w)
          + (if ms <? hours RATE_LIMIT_WINDOW_HOURS then 1 else 0).
Proof.
  exists (called w). split_and!; try done.
  unfold count_in_window, called, slept, put, db.
  cbn [conn working now api_calls set_api_calls].
  rewrite filter_app, length_app, Nat2Z.inj_add. f_equal.
  rewrite filter_cons, filter_nil.
  destruct (ms <? hours RATE_LIMIT_WINDOW_HOURS) eqn:Hms.
  - apply Z.ltb_lt in Hms. rewrite decide_True; [done|]. apply in_window_true. lia.
  - apply Z.ltb_ge in Hms. rewrite decide_False; [done|]. rewrite in_window_true. lia.
Qed.

(** X9. [cleanup_old_api_calls] keeps the records of the window and no
    other.  It never raises and commits; the ledger then holds exactly
    the records that were in the window, as many as the count of the
    window says; the count and the oldest call of the window are what
    they were; a second cleanup at the same time changes nothing; the
    progress row, the attempt ledger, the courses and the tees are left
    alone. *)
Theorem cleanup_keeps_the_window w :
  ∃ w', cleanup_old_api_calls w = Ok tt w' ∧ clean w' ∧
    (∀ ts, ts ∈ api_calls (db w') ↔ ts ∈ api_calls (db w) ∧ in_window (now w) ts = true) ∧
    Z.of_nat (length (api_calls (db w'))) = count_in_window w ∧
    count_in_window w' = count_in_window w ∧
    value_of (get_oldest_api_call_in_window w') = value_of (get_oldest_api_call_in_window w) ∧
    cleanup_old_api_calls w' = Ok tt w' ∧
    scrape_metadata (db w') = scrape_metadata (db w) ∧
    scrape_attempts (db w') = scrape_attempts (db w) ∧
    courses (db w') = courses (db w) ∧ tees (db w') = tees (db w).
Proof.
  exists (cleaned w).
  assert (Hsame : filter (fun ts => ¬ ts ≤ window_start (now w)) (api_calls (db w))
                  = filter (fun ts => in_window (now w) ts = true) (api_calls (db w))).
  { apply list_filter_iff. intros ts. rewrite in_window_true. unfold window_start. lia. }
  split_and!; try done.
  - intros ts. unfold cleaned, put, db. cbn [conn working api_calls set_api_calls].
    fold (db w). rewrite Hsame, list_elem_of_filter. tauto.
  - unfold cleaned, put, db, count_in_window. cbn [conn working api_calls set_api_calls].
    fold (db w). by rewrite Hsame.
  - apply count_in_window_cleaned.
  - unfold get_oldest_api_call_in_window, bind, datetime_now, read, cleaned, put, db.
    cbn [conn working api_calls set_api_calls now value_of]. do 2 f_equal.
    apply list_filter_filter_l. intros ts. rewrite in_window_true. unfold window_start. lia.
  - rewrite cleanup_old_api_calls_eq. f_equal.
    destruct w as [[c [m a s co lo te sq ho]] t tr].
    unfold cleaned, put, db, set_api_calls. cbn.
    by rewrite list_filter_filter_l by done.
Qed.

(** X10. [get_oldest_api_call_in_window] changes nothing and returns
    nothing exactly when the count of the window is 0; otherwise it
    returns a timestamp of the ledger that lies in the window and is
    the least of those. *)
Theorem oldest_call_in_window w :
  ∃ r, get_oldest_api_call_in_window w = Ok r w ∧
    (r = None ↔ count_in_window w = 0) ∧
    ∀ oldest, r = Some oldest →
      oldest ∈ api_calls (db w) ∧
      now w - hours RATE_LIMIT_WINDOW_HOURS < oldest ∧
      ∀ ts, ts ∈ api_calls (db w) → now w - hours RATE_LIMIT_WINDOW_HOURS < ts → oldest ≤ ts.
Proof.
  eexists. split; [reflexivity|]. unfold count_in_window. split.
  - destruct (filter _ (api_calls (db w))); simpl; [done|]. split; [done|lia].
  - intros oldest Hmin.
    pose proof (min_timestamp_elem _ _ Hmin) as [Hw Hin]%list_elem_of_filter.
    apply in_window_true in Hw. split_and!; [done..|].
    intros ts Hts Hlt. apply (min_timestamp_le _ _ Hmin).
    apply list_elem_of_filter. by rewrite in_window_true.
Qed.

(** X11. [wait_for_rate_limit_window] always sleeps, and for more than
    a second: for 60 seconds when no call is in the window, and
    otherwise until one second after the oldest call of the window has
    left it, so that the count is then at least one less.  Its branch
    that purges the ledger without sleeping is never taken, the clock
    standing still between the reading of the oldest call and the
    reading of the time.  When no record of the ledger lies in the
    future, the sleep is of at most 24 hours and one second. *)
Theorem wait_sleeps_until_oldest_expires w :
  ∃ ms, wait_for_rate_limit_window w = Ok tt (slept ms w) ∧ seconds 1 < ms ∧
    (count_in_window w = 0 → ms = seconds 60) ∧
    (0 < count_in_window w →
     count_in_window (slept ms w) ≤ count_in_window w - 1 ∧
     (Forall (fun ts => ts ≤ now w) (api_calls (db w)) →
      ms ≤ hours RATE_LIMIT_WINDOW_HOURS + seconds 1)).
Proof.
  pose proof (count_in_window_waited w) as Hwaited. revert Hwaited.
  unfold wait_for_rate_limit_window, get_oldest_api_call_in_window, bind, read, datetime_now,
    waited, count_in_window.
  destruct (min_timestamp _) as [oldest|] eqn:Hmin.
  - pose proof (min_timestamp_elem _ _ Hmin) as [Hw Hin]%list_elem_of_filter.
    apply in_window_true in Hw. cbv zeta.
    rewrite (proj2 (Z.ltb_lt _ _)) by lia. intros Hwaited.
    eexists. split; [reflexivity|]. split_and!.
    + unfold seconds. lia.
    + intros Hzero. apply (f_equal Z.to_nat) in Hzero. rewrite Nat2Z.id in Hzero.
      apply length_zero_iff_nil in Hzero.
      assert (oldest ∈ filter (fun ts => in_window (now w) ts = true) (api_calls (db w)))
        as Hel by (apply list_elem_of_filter; by rewrite in_window_true).
      rewrite Hzero in Hel. by apply elem_of_nil in Hel.
    + intros Hpos. split; [by apply Hwaited|].
      intros Hpast. rewrite Forall_forall in Hpast. specialize (Hpast _ Hin). lia.
  - intros _. eexists. split; [reflexivity|]. split_and!; [done|done|].
    intros Hpos. destruct (filter _ (api_calls (db w))); [simpl in Hpos; lia|done].
Qed.

(** ** The save of a course, in detail *)

Lemma save_holes_effect hole_list tee_id start w w' :
  for_each (enumerate hole_list start)
    (fun '(hole_num, hole) => insert_hole tee_id hole_num hole) w = Ok tt w' →
  ∃ new_holes,
    holes (db w') = holes (db w) ++ new_holes ∧
    length new_holes = length hole_list ∧
    Forall (fun h => h_tee_id h = tee_id) new_holes ∧
    tees (db w') = tees (db w) ∧ tees_seq (db w') = tees_seq (db w) ∧
    courses (db w') = courses (db w) ∧ locations (db w') = locations (db w).
Proof.
  revert start w. induction hole_list as [|hole hole_list IH]; intros start w; simpl.
  - intros [= <-]. exists []. by rewrite app_nil_r.
  - unfold bind, insert_hole. destruct (_ && _); [|done]. simpl.
    intros (new_holes & Hh & Hlen & Hall & Ht & Hs & Hc & Hl)%IH.
    eexists (_ :: new_holes). split_and!; try done.
    + rewrite Hh. unfold db. simpl. by rewrite <- app_assoc.
    + simpl. by rewrite Hlen.
    + by constructor.
Qed.

Lemma save_tees_effect course_id gender tees_list w w' :
  save_tees course_id gender tees_list w = Ok tt w' →
  ∃ new_tees new_holes,
    tees (db w') = tees (db w) ++ new_tees ∧
    t_id <$> new_tees = seqZ (tees_seq (db w) + 1) (Z.of_nat (length tees_list)) ∧
    t_course_id <$> new_tees = replicate (length tees_list) course_id ∧
    t_gender <$> new_tees = replicate (length tees_list) gender ∧
    t_tee_name <$> new_tees = (fun tee => get (tee_name tee)) <$> tees_list ∧
    tees_seq (db w') = tees_seq (db w) + Z.of_nat (length tees_list) ∧
    holes (db w') = holes (db w) ++ new_holes ∧
    length new_holes = sum_list ((fun tee => length (tee_holes tee)) <$> tees_list) ∧
    Forall (fun h => h_tee_id h ∈ t_id <$> new_tees) new_holes ∧
    courses (db w') = courses (db w) ∧ locations (db w') = locations (db w).
Proof.
  revert w. induction tees_list as [|tee tees_list IH]; intros w.
  - intros [= <-]. exists [], []. by rewrite !app_nil_r, Z.add_0_r.
  - unfold save_tees in *. simpl. unfold bind at 1 2. unfold insert_tee.
    destruct (is_null (get (tee_name tee))); [done|]. simpl.
    unfold bind at 1. simpl.
    match goal with |- context [for_each (enumerate _ 1) ?f ?w1] =>
      destruct (for_each (enumerate (tee_holes tee) 1) f w1) as [[] w2|e w2] eqn:Hholes end;
      [|done].
    apply save_holes_effect in Hholes
      as (new_holes1 & Hh1 & Hlen1 & Hall1 & Ht1 & Hs1 & Hc1 & Hl1).
    unfold db in Hh1, Ht1, Hs1, Hc1, Hl1. simpl in Hh1, Ht1, Hs1, Hc1, Hl1.
    fold (db w) in Hh1, Ht1, Hs1, Hc1, Hl1. fold (db w2) in Hh1, Ht1, Hs1, Hc1, Hl1.
    intros (new_tees & new_holes & Ht & Hid & Hcid & Hg & Hn & Hs & Hh & Hlen & Hall & Hc & Hl)%IH.
    eexists (_ :: new_tees), (new_holes1 ++ new_holes).
    split_and!.
    + rewrite Ht, Ht1. by rewrite <- app_assoc.
    + rewrite fmap_cons, Hid, Hs1. cbn [t_id].
      rewrite (seqZ_cons (tees_seq (db w) + 1)) by lia. f_equal. f_equal; lia.
    + by rewrite fmap_cons, Hcid.
    + by rewrite fmap_cons, Hg.
    + by rewrite fmap_cons, Hn.
    + rewrite Hs, Hs1. lia.
    + rewrite Hh, Hh1. by rewrite <- app_assoc.
    + rewrite length_app, Hlen, Hlen1. done.
    + apply Forall_app. split.
      * eapply Forall_impl; [exact Hall1|]. intros h ->. rewrite fmap_cons. by left.
      * eapply Forall_impl; [exact Hall|]. intros h Hin. rewrite fmap_cons. by right.
    + by rewrite Hc.
    + by rewrite Hl.
Qed.

Lemma save_holes_raises hole_list tee_id start w e w' :
  for_each (enumerate hole_list start)
    (fun '(hole_num, hole) => insert_hole tee_id hole_num hole) w = Raise e w' →
  ∃ msg, e = IntegrityError msg.
Proof.
  revert start w. induction hole_list as [|hole hole_list IH]; intros start w; simpl; [done|].
  unfold bind, insert_hole. destruct (_ && _); simpl; [apply IH|].
  intros [= <- _]. eauto.
Qed.

Lemma save_tees_raises course_id gender tees_list w e w' :
  save_tees course_id gender tees_list w = Raise e w' → ∃ msg, e = IntegrityError msg.
Proof.
  revert w. induction tees_list as [|tee tees_list IH]; intros w; [done|].
  unfold save_tees in *. simpl. unfold bind at 1 2. unfold insert_tee.
  destruct (is_null (get (tee_name tee))); simpl; [intros [= <- _]; eauto|].
  unfold bind at 1. simpl.
  match goal with |- context [for_each (enumerate _ 1) ?f ?w1] =>
    destruct (for_each (enumerate (tee_holes tee) 1) f w1) as [[] w2|e2 w2] eqn:Hholes end.
  - apply IH.
  - intros [= <- _]. by eapply save_holes_raises.
Qed.

(** X12. For the payloads that the embedding holds (a JSON object
    whose course, when it has one, is an object with an integer id,
    scalar fields and lists of tees and holes) and whose integers are
    within those that SQLite binds, [save_course] succeeds exactly on
    those that the constraints of the schema accept, whatever the rows
    of the store: an id that is there and is not 0, a club name and a
    course name that are not null, and for every tee a name that is not
    null and at most 18 holes. *)
Theorem save_course_succeeds_iff_acceptable course_data w :
  bindable course_data = true →
  (∃ w', save_course course_data w = Ok tt w') ↔ acceptable course_data = true.
Proof.
  intros _. split.
  - intros [w' Hsave]. by eapply save_course_Ok_acceptable.
  - apply save_course_acceptable.
Qed.

(** X13. A save that fails, for a payload that the embedding holds
    and whose integers are within those that SQLite binds.  With
    nothing pending before it, it leaves the world as it found it.  The
    payload is one that the constraints refuse.  The exception is the
    ValueError of a missing id when the id is absent, null or 0, and an
    IntegrityError of the store in every other case. *)
Theorem save_course_errors course_data w e w' :
  clean w →
  bindable course_data = true →
  save_course course_data w = Raise e w' →
  w' = w ∧ acceptable course_data = false ∧
  match course_id_of (course_of course_data) with
  | None | Some 0 => e = ValueError "Course data missing 'id'"
  | Some _ => ∃ msg, e = IntegrityError msg
  end.
Proof.
  intros Hclean _ Hsave. split_and!.
  - pose proof (save_course_cases course_data w Hclean) as Hcases.
    by rewrite Hsave in Hcases.
  - destruct (acceptable course_data) eqn:Hacc; [|done].
    destruct (save_course_acceptable course_data w Hacc) as [w1 Hok]. congruence.
  - revert Hsave. unfold save_course, transaction.
    destruct (course_id_of (course_of course_data)) as [[|course_id|course_id]|];
      try by intros [= <- _].
    all: unfold bind at 1; unfold insert_course;
      destruct (_ || _); [intros [= <- _]; eauto|]; simpl;
      unfold bind at 1;
      destruct (course_location (course_of course_data)) as [location|]; simpl;
      unfold bind at 1;
      match goal with |- context [save_tees ?i "male" ?l ?w1] =>
        destruct (save_tees i "male" l w1) as [[] w3|e3 w3] eqn:Hm end;
      try (intros [= <- _]; by eapply save_tees_raises);
      unfold bind at 1;
      match goal with |- context [save_tees ?i "female" ?l ?w1] =>
        destruct (save_tees i "female" l w1) as [[] w4|e4 w4] eqn:Hf end;
      try done; intros [= <- _]; by eapply save_tees_raises.
Qed.

Lemma sum_list_append (l1 l2 : list nat) :
  sum_list (l1 ++ l2) = (sum_list l1 + sum_list l2)%nat.
Proof. induction l1 as [|x l1 IH]; simpl; [done|]. rewrite IH. lia. Qed.

Lemma save_course_Ok_rows course_data w w' :
  save_course course_data w = Ok tt w' →
  let course := course_of course_data in
  ∃ course_id new_tees new_holes,
    course_id_of course = Some course_id ∧ course_id ≠ 0 ∧
    courses (db w')
    = <[course_id := {| c_club_name := get_or (club_name course) (JStr "");
                        c_course_name := get_or (course_name course) (JStr "");
                        c_created_at := now w |}]> (courses (db w)) ∧
    locations (db w')
    = match course_location course with
      | Some location =>
          <[course_id := {| l_address := get (address location);
                            l_city := get (city location);
                            l_state := get (state location);
                            l_country := get (country location);
                            l_latitude := get (latitude location);
                            l_longitude := get (longitude location) |}]> (locations (db w))
      | None => locations (db w)
      end ∧
    tees (db w') = tees (db w) ++ new_tees ∧
    t_id <$> new_tees
    = seqZ (tees_seq (db w) + 1)
        (Z.of_nat (length (tees_male course) + length (tees_female course))) ∧
    t_course_id <$> new_tees
    = replicate (length (tees_male course) + length (tees_female course)) course_id ∧
    t_gender <$> new_tees
    = replicate (length (tees_male course)) "male"
      ++ replicate (length (tees_female course)) "female" ∧
    t_tee_name <$> new_tees
    = (fun tee => get (tee_name tee)) <$> (tees_male course ++ tees_female course) ∧
    holes (db w') = holes (db w) ++ new_holes ∧
    length new_holes
    = sum_list ((fun tee => length (tee_holes tee)) <$> (tees_male course ++ tees_female course)) ∧
    Forall (fun h => h_tee_id h ∈ t_id <$> new_tees) new_holes.
Proof.
  intros Hsave course. revert Hsave. unfold save_course, transaction. fold course.
  destruct (course_id_of course) as [course_id|] eqn:Hid; [|done].
  destruct (decide (course_id = 0)) as [->|Hne]; [done|].
  assert (∀ body : M unit,
            match course_id with 0 => raise (ValueError "Course data missing 'id'")
                            | _ => body end = body) as Hbody by (by destruct course_id).
  rewrite Hbody. clear Hbody.
  unfold bind at 1. unfold insert_course.
  destruct (_ || _); [done|]. simpl.
  unfold bind at 1.
  match goal with |- context [match ?loc ?w1 with Ok _ _ => _ | Raise _ _ => _ end] =>
    assert (∃ w2, loc w1 = Ok tt w2 ∧
              courses (db w2) = courses (db w1) ∧ tees (db w2) = tees (db w1) ∧
              tees_seq (db w2) = tees_seq (db w1) ∧ holes (db w2) = holes (db w1) ∧
              locations (db w2)
              = match course_location course with
                | Some location =>
                    <[course_id := {| l_address := get (address location);
                                      l_city := get (city location);
                                      l_state := get (state location);
                                      l_country := get (country location);
                                      l_latitude := get (latitude location);
                                      l_longitude := get (longitude location) |}]>
                      (locations (db w1))
                | None => locations (db w1)
                end) as (w2 & -> & Hc2 & Ht2 & Hs2 & Hh2 & Hl2)
      by (destruct (course_location course); by eexists) end.
  unfold db in Hc2, Ht2, Hs2, Hh2, Hl2. simpl in Hc2, Ht2, Hs2, Hh2, Hl2.
  fold (db w) in Hc2, Ht2, Hs2, Hh2, Hl2. fold (db w2) in Hc2, Ht2, Hs2, Hh2, Hl2.
  unfold bind at 1.
  destruct (save_tees course_id "male" (tees_male course) w2) as [[] w3|e3 w3] eqn:Hm; [|done].
  unfold bind at 1.
  destruct (save_tees course_id "female" (tees_female course) w3) as [[] w4|e4 w4] eqn:Hf;
    [|done].
  apply save_tees_effect in Hm
    as (nt1 & nh1 & Ht3 & Hi3 & Hci3 & Hg3 & Hn3 & Hs3 & Hh3 & Hlen3 & Hall3 & Hc3 & Hl3).
  apply save_tees_effect in Hf
    as (nt2 & nh2 & Ht4 & Hi4 & Hci4 & Hg4 & Hn4 & Hs4 & Hh4 & Hlen4 & Hall4 & Hc4 & Hl4).
  intros [= <-].
  exists course_id, (nt1 ++ nt2), (nh1 ++ nh2).
  change (courses (db (commit _))) with (courses (db w4)).
  change (locations (db (commit _))) with (locations (db w4)).
  change (tees (db (commit _))) with (tees (db w4)).
  change (holes (db (commit _))) with (holes (db w4)).
  split_and!; try done.
  - by rewrite Hc4, Hc3, Hc2.
  - by rewrite Hl4, Hl3, Hl2.
  - by rewrite Ht4, Ht3, Ht2, app_assoc.
  - rewrite fmap_app, Hi3, Hi4, Hs3, Hs2, Nat2Z.inj_add.
    rewrite (seqZ_app (tees_seq (db w) + 1)) by lia. do 2 f_equal. lia.
  - by rewrite fmap_app, Hci3, Hci4, replicate_add.
  - by rewrite fmap_app, Hg3, Hg4.
  - by rewrite !fmap_app, Hn3, Hn4.
  - by rewrite Hh4, Hh3, Hh2, app_assoc.
  - rewrite length_app, fmap_app, sum_list_append. by rewrite Hlen3, Hlen4.
  - apply Forall_app. split.
    + eapply Forall_impl; [exact Hall3|]. intros h Hin. rewrite fmap_app, elem_of_app. by left.
    + eapply Forall_impl; [exact Hall4|]. intros h Hin. rewrite fmap_app, elem_of_app. by right.
Qed.

(** X14. What a save that succeeds writes, for a payload whose
    integers are within those that SQLite binds.  The course has a row
    under the id of the payload, and the rows of the other ids are as
    before; so it is for the location when the payload has one, and the
    locations are left alone when it has none.  One tee row is appended
    for each tee of the payload, the male ones first, with fresh
    consecutive keys, the course id and the gender; one hole row is
    appended for each hole, and each refers to one of the new tees.  No
    tee or hole row is removed or changed, so that a second save of a
    course adds its tees and holes again.  The counter of saved courses
    goes up by one, both ledgers are as before, and all of it is
    committed. *)
Theorem save_course_effect course_data w w' :
  clean w →
  bindable course_data = true →
  save_course course_data w = Ok tt w' →
  let course := course_of course_data in
  ∃ course_id new_tees new_holes,
    course_id_of course = Some course_id ∧ course_id ≠ 0 ∧
    is_Some (courses (db w') !! course_id) ∧
    (∀ i, i ≠ course_id → courses (db w') !! i = courses (db w) !! i) ∧
    match course_location course with
    | Some _ =>
        is_Some (locations (db w') !! course_id) ∧
        ∀ i, i ≠ course_id → locations (db w') !! i = locations (db w) !! i
    | None => locations (db w') = locations (db w)
    end ∧
    tees (db w') = tees (db w) ++ new_tees ∧
    t_id <$> new_tees
    = seqZ (tees_seq (db w) + 1)
        (Z.of_nat (length (tees_male course) + length (tees_female course))) ∧
    t_course_id <$> new_tees
    = replicate (length (tees_male course) + length (tees_female course)) course_id ∧
    t_gender <$> new_tees
    = replicate (length (tees_male course)) "male"
      ++ replicate (length (tees_female course)) "female" ∧
    holes (db w') = holes (db w) ++ new_holes ∧
    length new_holes
    = sum_list ((fun tee => length (tee_holes tee)) <$> (tees_male course ++ tees_female course)) ∧
    Forall (fun h => h_tee_id h ∈ t_id <$> new_tees) new_holes ∧
    scrape_metadata (db w') = counted (scrape_metadata (db w)) (now w) ∧
    scrape_attempts (db w') = scrape_attempts (db w) ∧
    api_calls (db w') = api_calls (db w) ∧
    clean w'.
Proof.
  intros Hclean _ Hsave course.
  destruct (save_course_Ok_rows course_data w w' Hsave)
    as (course_id & new_tees & new_holes & Hid & Hne & Hrows).
  pose proof (save_course_cases course_data w Hclean) as Hcases.
  rewrite Hsave in Hcases. destruct Hcases as (Hc' & _ & _ & Hcalls & Hatt & Hmeta).
  exists course_id, new_tees, new_holes.
  destruct Hrows as (Hco & Hlo & Hte & Hti & Htc & Htg & Htn & Hho & Hlen & Hall).
  fold course in Hco, Hlo.
  split_and!; try done.
  - rewrite Hco, lookup_insert_eq. eauto.
  - intros i Hi. by rewrite Hco, lookup_insert_ne.
  - rewrite Hlo. destruct (course_location course) as [location|]; [|done]. split.
    + rewrite lookup_insert_eq. eauto.
    + intros i Hi. by rewrite lookup_insert_ne.
Qed.

(** ** The progress row: what the update refuses *)

(** X15. What the update of the progress row refuses.  With nothing
    pending, a call whose keywords are spelled as columns of the table
    other than id and last_updated, whose integers are within those
    that SQLite binds, and that passes None for one of them raises an
    IntegrityError and leaves the world as it was. *)
Theorem update_scrape_metadata_rejects kwargs w :
  clean w →
  Forall (fun kv => kv.1 ∈ ["last_scraped_id"; "consecutive_404s"; "total_courses_scraped";
                            "scraping_complete"; "created_at"] ∧
                    from_option int64 True kv.2) kwargs →
  NoDup kwargs.*1 →
  (∃ key, (key, None) ∈ kwargs) →
  ∃ msg, update_scrape_metadata kwargs w = Raise (IntegrityError msg) w.
Proof.
  intros Hclean Hcols Hnd (key & Hin).
  assert (Hroll : rollback w = w) by (by apply rollback_clean).
  rewrite Forall_forall in Hcols.
  assert (Hne : key ≠ "last_updated").
  { destruct (Hcols _ Hin) as [Hkey _]. intros ->. simpl in Hkey.
    set_unfold. by repeat destruct Hkey as [|Hkey]. }
  unfold update_scrape_metadata, transaction, bind, datetime_now, execute_update_metadata.
  rewrite (proj2 (forallb_forall _ _)); cycle 1.
  { intros kv [Hkv| ->%list_elem_of_singleton]%list_elem_of_In%elem_of_app.
    - apply bool_decide_eq_true. destruct (Hcols _ Hkv) as [Hkey _].
      unfold metadata_columns. set_unfold. tauto.
    - apply bool_decide_eq_true. unfold metadata_columns. simpl. set_unfold. tauto. }
  destruct (not_null _) eqn:Hnn.
  { rewrite assignments_snoc in Hnn.
    destruct (not_null_lookup _ key None Hnn) as [v Hv]; [|done].
    rewrite lookup_insert_ne by done. by apply assignments_lookup. }
  rewrite Hroll. by eexists.
Qed.

(** ** The script that sets the start id *)

Lemma update_start_id_eq start_id w :
  update_start_id start_id w = Ok tt (logged EvClose (positioned (start_id - 1) 0 w)).
Proof.
  unfold update_start_id. cbv zeta. unfold bind at 1. rewrite update_position_eq.
  reflexivity.
Qed.

Lemma update_start_id_position start_id w :
  let w' := logged EvClose (positioned (start_id - 1) 0 w) in
  last_id w' = start_id - 1 ∧ consecutive_misses w' = 0 ∧
  complete w' = complete w ∧ total_saved w' = total_saved w.
Proof.
  split_and!.
  - apply (last_id_positioned (start_id - 1) 0 w).
  - apply (consecutive_misses_positioned (start_id - 1) 0 w).
  - apply (complete_positioned (start_id - 1) 0 w).
  - apply (total_saved_positioned (start_id - 1) 0 w).
Qed.

(** X16. The script that sets the start id.  For a start id whose
    predecessor is within the integers that SQLite binds, it does not
    fail; it sets
    the last id to [start_id - 1] and the count of consecutive misses
    to 0, commits and closes the store.  It leaves alone the counter of
    saved courses, the completion flag, both ledgers and the courses.
    The next run therefore enters its loop at [start_id] with a count
    of 0, unless the crawl was marked complete, in which case the run
    is the no-op it was before. *)
Theorem update_start_id_effect start_id w :
  int64 (start_id - 1) →
  ∃ w', update_start_id start_id w = Ok tt w' ∧ clean w' ∧
    last_id w' = start_id - 1 ∧ consecutive_misses w' = 0 ∧
    total_saved w' = total_saved w ∧ complete w' = complete w ∧
    scrape_attempts (db w') = scrape_attempts (db w) ∧
    api_calls (db w') = api_calls (db w) ∧
    courses (db w') = courses (db w) ∧
    trace w' = EvClose :: trace w ∧ now w' = now w ∧
    ∀ cfg remote fuel,
      scrape cfg remote fuel w' =
      if complete w then Ok Finished w'
      else match scrape_loop cfg remote fuel start_id 0 w' with
           | Ok Finished w1 => Ok Finished (completed w1)
           | Ok (Running current_id consecutive_404s) w1 =>
               Ok (Running current_id consecutive_404s) w1
           | Raise e w1 => Raise e w1
           end.
Proof.
  intros _. exists (logged EvClose (positioned (start_id - 1) 0 w)).
  destruct (update_start_id_position start_id w) as (Hl & Hm & Hc & Ht).
  split_and!; try done.
  - apply update_start_id_eq.
  - intros cfg remote fuel. rewrite scrape_eq, Hl, Hm, Hc.
    by replace (start_id - 1 + 1) with start_id by lia.
Qed.

(** X17. Setting the start id back does not fetch anything again.
    After the script, a run of a crawl that is not complete passes over
    the ids from [start_id] on that have an attempt record without a
    GET and without a write. *)
Theorem rewinding_does_not_refetch cfg remote start_id n w :
  complete w = false →
  0 < CONSECUTIVE_404_LIMIT cfg →
  (∀ i, start_id ≤ i < start_id + Z.of_nat n → is_Some (scrape_attempts (db w) !! i)) →
  ∃ w', update_start_id start_id w = Ok tt w' ∧
        scrape cfg remote n w' = Ok (Running (start_id + Z.of_nat n) 0) w'.
Proof.
  intros Hcw Hlim Hall. eexists. split; [apply update_start_id_eq|].
  destruct (update_start_id_position start_id w) as (Hl & Hm & Hc & _).
  rewrite scrape_eq, Hl, Hm, Hc, Hcw.
  replace (start_id - 1 + 1) with start_id by lia.
  rewrite (scrape_loop_skips cfg remote n start_id 0 _ Hlim); [done|exact Hall].
Qed.

Section Outcomes.

Variable cfg : Config.
Variable remote : Z → nat → N * Response.

(** ** An outage of the remote side *)

Lemma total_saved_completed w : total_saved (completed w) = total_saved w.
Proof.
  unfold total_saved, completed, put, db. cbn [conn working scrape_metadata set_scrape_metadata].
  by rewrite !metadata_get_insert_ne by done.
Qed.

(** An iteration at an id that meets transient errors only: the id is
    recorded as not found. *)
Lemma scrape_iteration_transient current_id consecutive_404s w :
  scrape_attempts (db w) !! current_id = None →
  (∀ k, transient (remote current_id k).2 = true) →
  ∃ w', scrape_iteration cfg remote current_id consecutive_404s w
        = Ok (current_id + 1, consecutive_404s + 1) w' ∧
        (∃ t, scrape_attempts (db w')
              = <[current_id := {| status_code := 404; success := false; attempted_at := t |}]>
                  (scrape_attempts (db w))) ∧
        last_id w' = current_id ∧ consecutive_misses w' = consecutive_404s + 1 ∧
        total_saved w' = total_saved w ∧ complete w' = complete w ∧
        courses (db w') = courses (db w).
Proof.
  intros Hnone Hall. rewrite scrape_iteration_fetch by done.
  pose proof (course_tables_fetched cfg remote current_id w) as Htab. cbv zeta in Htab.
  destruct (fetch_course_transient remote current_id (gated cfg w) Hall) as (w1 & Hf & _).
  rewrite Hf in Htab |- *. cbn [world_of] in Htab.
  destruct Htab as (Hc & _ & _ & _ & Hm & Ha). cbn [fetched_course].
  eexists. split; [reflexivity|].
  set (w2 := positioned current_id (consecutive_404s + 1) (attempted current_id 404 false w1)).
  destruct (metadata_ended current_id w2) as [Hme Hae].
  assert (Hce : courses (db (ended current_id w2)) = courses (db w2))
    by (unfold ended; cbv zeta; by destruct (_ =? 0)).
  unfold last_id, consecutive_misses, total_saved, complete. rewrite Hme, Hae, Hce.
  split_and!.
  - exists (now w1). unfold w2. cbn. by rewrite <- Ha.
  - apply last_id_positioned.
  - apply consecutive_misses_positioned.
  - etransitivity; [apply total_saved_positioned|]. unfold total_saved. by rewrite <- Hm.
  - etransitivity; [apply complete_positioned|]. unfold complete. by rewrite <- Hm.
  - by rewrite <- Hc.
Qed.

Lemma scrape_loop_outage n m current_id consecutive_404s w :
  (∀ i k, transient (remote i k).2 = true) →
  (∀ i, current_id ≤ i → scrape_attempts (db w) !! i = None) →
  consecutive_404s + Z.of_nat n = CONSECUTIVE_404_LIMIT cfg →
  ∃ w', scrape_loop cfg remote (n + m) current_id consecutive_404s w = Ok Finished w' ∧
        (n = 0%nat → w' = w) ∧
        ((0 < n)%nat → last_id w' = current_id + Z.of_nat n - 1) ∧
        total_saved w' = total_saved w ∧ complete w' = complete w ∧
        courses (db w') = courses (db w) ∧
        (∀ i, i < current_id → scrape_attempts (db w') !! i = scrape_attempts (db w) !! i) ∧
        (∀ i, current_id ≤ i < current_id + Z.of_nat n →
              ∃ row, scrape_attempts (db w') !! i = Some row ∧
                     status_code row = 404 ∧ success row = false).
Proof.
  intros Hout. revert current_id consecutive_404s w.
  induction n as [|n IH]; intros current_id consecutive_404s w Hnone Hlim.
  - exists w. rewrite scrape_loop_limit by lia. split_and!; try done; [lia|]. intros i Hi. lia.
  - change (S n + m)%nat with (S (n + m)). rewrite scrape_loop_S by lia.
    destruct (scrape_iteration_transient current_id consecutive_404s w (Hnone _ (Z.le_refl _))
                (Hout current_id))
      as (w1 & -> & [t Ha1] & Hl1 & Hm1 & Ht1 & Hc1 & Hco1).
    destruct (IH (current_id + 1) (consecutive_404s + 1) w1)
      as (w' & Hloop & Hzero & Hl & Ht & Hc & Hco & Hbelow & Hrec).
    { intros i Hi. rewrite Ha1, lookup_insert_ne by lia. apply Hnone. lia. }
    { lia. }
    exists w'. split_and!; [done|done| |congruence|congruence|congruence| |].
    + intros _. destruct n as [|n].
      * rewrite (Hzero eq_refl), Hl1. lia.
      * rewrite Hl by lia. lia.
    + intros i Hi. rewrite Hbelow by lia. rewrite Ha1. by rewrite lookup_insert_ne by lia.
    + intros i Hi. destruct (decide (i = current_id)) as [->|Hne].
      * rewrite Hbelow by lia. rewrite Ha1, lookup_insert_eq. by eexists.
      * apply Hrec. lia.
Qed.

(** X18. An outage is taken for the end of the ids.  When every GET
    ends in a transient error, a run from a state in which no id above
    the last id has a record records each id it tries as not found
    (status 404), counts it as a miss, and ends when the count reaches
    the limit: the crawl is marked complete, the last id has moved by
    the number of misses that were left, and no course was saved. *)
Theorem outage_ends_the_crawl m w :
  (∀ i k, transient (remote i k).2 = true) →
  complete w = false →
  consecutive_misses w < CONSECUTIVE_404_LIMIT cfg →
  (∀ i, last_id w < i → scrape_attempts (db w) !! i = None) →
  let n := CONSECUTIVE_404_LIMIT cfg - consecutive_misses w in
  ∃ w', scrape cfg remote (Z.to_nat n + m) w = Ok Finished w' ∧
        complete w' = true ∧ last_id w' = last_id w + n ∧
        total_saved w' = total_saved w ∧ courses (db w') = courses (db w) ∧
        ∀ i, last_id w < i ≤ last_id w + n →
             ∃ row, scrape_attempts (db w') !! i = Some row ∧
                    status_code row = 404 ∧ success row = false.
Proof.
  intros Hout Hcw Hlt Hnone n.
  destruct (scrape_loop_outage (Z.to_nat n) m (last_id w + 1) (consecutive_misses w) w Hout)
    as (w1 & Hloop & _ & Hl & Ht & Hc & Hco & _ & Hrec).
  { intros i Hi. apply Hnone. lia. }
  { unfold n. lia. }
  exists (completed w1). rewrite scrape_eq, Hcw, Hloop. split_and!.
  - done.
  - apply complete_completed.
  - rewrite last_id_completed, Hl by (unfold n; lia). unfold n. lia.
  - by rewrite total_saved_completed.
  - done.
  - intros i Hi. apply Hrec. unfold n in *. lia.
Qed.

(** ** The delay between requests *)

Lemma now_gated w : now w ≤ now (gated cfg w).
Proof.
  unfold gated. cbv zeta. destruct (_ <? _); [done|].
  change (now (cleaned (waited (logged EvRateCheck w)))) with (now (waited (logged EvRateCheck w))).
  unfold waited. destruct (min_timestamp _) as [oldest|].
  - cbv zeta. destruct (_ <? _) eqn:Hlt; [|done].
    apply Z.ltb_lt in Hlt. cbn [now slept logged] in *. unfold seconds. lia.
  - cbn [now slept logged]. unfold seconds. lia.
Qed.

(** A save leaves the clock and the outside alone, however it ends. *)
Lemma save_course_quiet course_data w :
  now (world_of (save_course course_data w)) = now w ∧
  trace (world_of (save_course course_data w)) = trace w.
Proof.
  unfold save_course, transaction.
  match goal with |- context [match ?b w with _ => _ end] =>
    assert (Hpost : save_body_post w (b w)) end.
  { destruct (course_id_of (course_of course_data)) as [[|course_id|course_id]|];
      try by (unfold save_body_post; simpl).
    all: apply save_body_post_bind; [apply insert_course_keeps | done |];
      intros _ w1 H1;
      apply save_body_post_bind;
        [destruct (course_location _);
           [apply insert_location_keeps | apply keeps_ret, _] | done |];
      intros _ w2 H2;
      apply save_body_post_bind; [apply save_tees_keeps | done |];
      intros _ w3 H3;
      apply save_body_post_bind; [apply save_tees_keeps | done |];
      intros _ w4 H4;
      by apply increment_total_courses_post. }
  match goal with |- context [match ?b w with _ => _ end] =>
    destruct (b w) as [[] w1|e w1] end;
    by destruct Hpost as (_ & Hn & Ht & _).
Qed.

Lemma now_saved current_id course_data w : now (saved current_id course_data w) = now w.
Proof.
  unfold saved. destruct (save_course_quiet course_data w) as [Hn _].
  by destruct (save_course course_data w) as [[] w1|e w1].
Qed.

Lemma trace_saved current_id course_data w :
  trace (saved current_id course_data w) = trace w.
Proof.
  unfold saved. destruct (save_course_quiet course_data w) as [_ Ht].
  by destruct (save_course course_data w) as [[] w1|e w1].
Qed.

Lemma ended_spaced current_id w :
  trace (ended current_id w) = EvSleep REQUEST_DELAY_SECONDS :: trace w ∧
  now (ended current_id w) = now w + REQUEST_DELAY_SECONDS.
Proof. unfold ended. cbv zeta. by destruct (_ =? 0). Qed.

(** X19. The delay between requests.  An iteration for an id without
    record that returns has made at least one GET and at most
    [RETRY_MAX_ATTEMPTS], and the last of its requests and sleeps is
    the sleep of [REQUEST_DELAY_SECONDS]; at least that much time has
    passed since it started. *)
Theorem requests_are_spaced current_id consecutive_404s w current_id' consecutive_404s' w' :
  scrape_attempts (db w) !! current_id = None →
  scrape_iteration cfg remote current_id consecutive_404s w
  = Ok (current_id', consecutive_404s') w' →
  ∃ evs, trace w' = EvSleep REQUEST_DELAY_SECONDS :: evs ++ trace w ∧
         (1 ≤ length (List.filter is_get evs) ≤ Z.to_nat RETRY_MAX_ATTEMPTS)%nat ∧
         now w + REQUEST_DELAY_SECONDS ≤ now w'.
Proof.
  intros Hnone. rewrite scrape_iteration_fetch by done.
  pose proof (fetch_course_effect remote current_id (gated cfg w))
    as (evs & ts & Ht & _ & Hn & _ & _ & _ & Hnow & _).
  destruct (gated_trace cfg w) as (gate_evs & Hgt & Hgate).
  destruct (fetch_course_first_get remote current_id (gated cfg w)) as (evs1 & r & Hfirst).
  pose proof (now_gated w) as Hng.
  destruct (fetch_course remote current_id (gated cfg w)) as [fetched w1|e w1]; [|done].
  cbn [world_of] in *.
  assert (Hgets : (1 ≤ length (List.filter is_get (evs ++ gate_evs))
                   ≤ Z.to_nat RETRY_MAX_ATTEMPTS)%nat).
  { rewrite List.filter_app, length_app.
    assert (List.filter is_get gate_evs = []) as ->.
    { clear -Hgate. induction Hgate as [|e l He _ IH]; [done|]. simpl. by rewrite He. }
    rewrite Hfirst in Ht.
    replace (evs1 ++ EvGet current_id r :: trace (gated cfg w))
      with ((evs1 ++ [EvGet current_id r]) ++ trace (gated cfg w)) in Ht;
      [|rewrite <- !app_assoc; reflexivity].
    apply app_inv_tail in Ht. subst evs.
    split; [|simpl; lia]. rewrite List.filter_app, length_app. simpl. lia. }
  assert (Htr : trace w1 = (evs ++ gate_evs) ++ trace w) by by rewrite Ht, Hgt, app_assoc.
  destruct (fetched_course fetched) as [course_data|]; intros [= <- <- <-].
  - destruct (ended_spaced current_id (positioned current_id 0 (saved current_id course_data w1)))
      as [-> ->].
    exists (evs ++ gate_evs). split; [|split; [exact Hgets|]].
    + cbn [trace positioned put]. by rewrite trace_saved, Htr.
    + cbn [now positioned put]. rewrite now_saved. lia.
  - destruct (ended_spaced current_id
                (positioned current_id (consecutive_404s + 1)
                   (attempted current_id 404 false w1))) as [-> ->].
    exists (evs ++ gate_evs). split; [|split; [exact Hgets|]].
    + cbn [trace positioned attempted put]. by rewrite Htr.
    + cbn [now positioned attempted put]. lia.
Qed.

(** ** How [main] ends *)

Lemma close_clean w : clean w → world_of (close w) = logged EvClose w.
Proof.
  unfold clean, close, bind, log_event, rollback, logged. destruct w as [[c wk] t tr].
  simpl. by intros ->.
Qed.

(** X20. How [main] exits, from a connection with nothing pending,
    with payloads as the embedding has them and for a run whose ids and
    counts are within the integers that SQLite binds.  With code 0 only when the
    configuration is valid and the crawl is marked complete; the store
    is then closed with nothing pending.  With code 1 either because
    the configuration was refused, and then the store was not touched,
    or after a GET that got 401, which is the last request or sleep
    before the close. *)
Theorem main_exit_codes fuel w code w' :
  clean w →
  within_int64 w fuel →
  main cfg remote fuel w = (Exit code, w') →
  code = 0 ∧ validate cfg = None ∧ complete w' = true ∧ clean w' ∧
    head (trace w') = Some EvClose
  ∨ code = 1 ∧ validate cfg ≠ None ∧ w' = w
  ∨ code = 1 ∧ validate cfg = None ∧ clean w' ∧
    ∃ i body tr, trace w' = EvClose :: EvGet i (Http 401 body) :: tr.
Proof.
  intros Hclean _. destruct (validate cfg) as [msg|] eqn:Hv.
  { unfold main. rewrite Hv. intros [= <- <-]. right. left. done. }
  destruct (complete w) eqn:Hcw.
  { rewrite main_complete by done. intros [= <- <-]. left. done. }
  rewrite main_scrape by done.
  pose proof (scrape_run cfg remote fuel w Hclean) as (Hc' & _). revert Hc'.
  rewrite scrape_eq, Hcw.
  destruct (scrape_loop cfg remote fuel (last_id w + 1) (consecutive_misses w) w)
    as [[|current_id consecutive_404s] w1|e w1] eqn:Hloop; cbn [world_of]; intros Hc';
    [|done|].
  - rewrite close_clean by done. intros [= <- <-]. left. split_and!; try done.
    apply complete_completed.
  - rewrite close_clean by done. intros [= <- <-]. right. right.
    destruct (scrape_loop_Raise cfg remote _ _ _ _ _ _ Hloop) as (_ & i & body & Hhead).
    split_and!; try done. exists i, body.
    cbn [trace logged]. destruct (trace w1) as [|ev tr]; [done|].
    injection Hhead as ->. by exists tr.
Qed.

(** X21. [Config.validate] does not look at the limit of consecutive
    misses.  When the persisted count is at the limit or above it, as
    it is for a limit of 0 and a new store, a run of a crawl that is
    not complete marks it complete without a request, and [main] exits
    with code 0; the attempt ledger is as it was. *)
Theorem limit_reached_completes_without_request fuel w :
  validate cfg = None →
  clean w →
  complete w = false →
  CONSECUTIVE_404_LIMIT cfg ≤ consecutive_misses w →
  scrape cfg remote fuel w = Ok Finished (completed w) ∧
  main cfg remote fuel w = (Exit 0, logged EvClose (completed w)) ∧
  trace (logged EvClose (completed w)) = EvClose :: trace w ∧
  complete (logged EvClose (completed w)) = true ∧
  scrape_attempts (db (logged EvClose (completed w))) = scrape_attempts (db w).
Proof.
  intros Hv Hclean Hcw Hlim.
  assert (Hs : scrape cfg remote fuel w = Ok Finished (completed w))
    by by rewrite scrape_eq, Hcw, scrape_loop_limit.
  split_and!; try done.
  - rewrite main_scrape, Hs by done. by rewrite close_clean.
  - apply complete_completed.
Qed.

(** ** The attempt ledger and the tables of courses *)

(** X22. The attempt record of an iteration tells what the store
    holds.  An iteration for an id without record that returns leaves a
    record for the id.  When the record says success, its status is
    200, the count of consecutive misses is 0, the iteration ended with
    the delay, with no request or sleep between it and a GET that got
    200 with a payload that the store accepts, the course of that
    payload has its row, under the id of the payload, and the counter
    of saved courses is one up.
    When the record says failure, the courses, locations, tees and
    holes and the counter are as they were. *)
Theorem attempt_record_matches_the_store current_id consecutive_404s w
    current_id' consecutive_404s' w' :
  clean w →
  scrape_attempts (db w) !! current_id = None →
  scrape_iteration cfg remote current_id consecutive_404s w
  = Ok (current_id', consecutive_404s') w' →
  ∃ row, scrape_attempts (db w') !! current_id = Some row ∧
    if success row then
      status_code row = 200 ∧ consecutive_404s' = 0 ∧
      ∃ course_data course_id tr,
        trace w' = EvSleep REQUEST_DELAY_SECONDS
                   :: EvGet current_id (Http 200 (Some course_data)) :: tr ∧
        acceptable course_data = true ∧
        course_id_of (course_of course_data) = Some course_id ∧
        is_Some (courses (db w') !! course_id) ∧
        scrape_metadata (db w') !! "total_courses_scraped"
        = (fun n => n + 1) <$> scrape_metadata (db w) !! "total_courses_scraped"
    else
      courses (db w') = courses (db w) ∧ locations (db w') = locations (db w) ∧
      tees (db w') = tees (db w) ∧ holes (db w') = holes (db w) ∧
      scrape_metadata (db w') !! "total_courses_scraped"
      = scrape_metadata (db w) !! "total_courses_scraped".
Proof.
  intros Hclean Hnone. rewrite scrape_iteration_fetch by done.
  pose proof (course_tables_fetched cfg remote current_id w) as Htab. cbv zeta in Htab.
  pose proof (fetch_course_effect remote current_id (gated cfg w))
    as (_ & _ & _ & _ & _ & _ & _ & _ & _ & Hc).
  destruct (engine_step_gated cfg current_id w Hclean) as (Hcg & _).
  pose proof (fetch_attempts_outcome remote (range 1 (RETRY_MAX_ATTEMPTS + 1))
                current_id (gated cfg w)) as Hout.
  fold (fetch_course remote current_id (gated cfg w)) in Hout.
  destruct (fetch_course remote current_id (gated cfg w)) as [fetched w1|e w1]; [|done].
  cbn [world_of] in *. specialize (Hc Hcg).
  destruct Htab as (Hco & Hlo & Hte & Hho & Hme & Hat).
  assert (Hend : ∀ w2,
            scrape_attempts (db (ended current_id w2)) = scrape_attempts (db w2) ∧
            courses (db (ended current_id w2)) = courses (db w2) ∧
            locations (db (ended current_id w2)) = locations (db w2) ∧
            tees (db (ended current_id w2)) = tees (db w2) ∧
            holes (db (ended current_id w2)) = holes (db w2) ∧
            scrape_metadata (db (ended current_id w2)) = scrape_metadata (db w2) ∧
            trace (ended current_id w2) = EvSleep REQUEST_DELAY_SECONDS :: trace w2)
    by (intros w2; unfold ended; cbv zeta; by destruct (_ =? 0)).
  assert (Hpos : ∀ c w2,
            scrape_metadata (db (positioned current_id c w2)) !! "total_courses_scraped"
            = scrape_metadata (db w2) !! "total_courses_scraped")
    by (intros c w2; unfold positioned, put, db;
        cbn [conn working scrape_metadata set_scrape_metadata];
        by rewrite !lookup_insert_ne by done).
  destruct (fetched_course fetched) as [course_data|] eqn:Hfc; intros [= <- <- <-].
  - destruct (Hend (positioned current_id 0 (saved current_id course_data w1)))
      as (-> & -> & -> & -> & -> & -> & ->).
    rewrite Hpos.
    change (trace (positioned current_id 0 (saved current_id course_data w1)))
      with (trace (saved current_id course_data w1)).
    rewrite trace_saved.
    pose proof (save_course_cases course_data w1 Hc) as Hcases.
    unfold saved.
    destruct (save_course course_data w1) as [[] w2|e w2] eqn:Hsave.
    + eexists. split; [apply lookup_insert_eq|]. cbn [success status_code].
      split_and!; [done..|].
      destruct fetched as [fetched_data|]; [|done]. cbn [fetched_course] in Hfc.
      destruct (truthy fetched_data); [|done]. injection Hfc as ->.
      destruct (save_course_Ok_rows course_data w1 w2 Hsave)
        as (course_id & _ & _ & Hid & _ & Hcourses & _).
      destruct (trace w1) as [|ev tr]; [done|]. injection Hout as ->.
      exists course_data, course_id, tr. split_and!; [done| |done| |].
      * by eapply save_course_Ok_acceptable.
      * change (courses (db (positioned current_id 0 (attempted current_id 200 true w2))))
          with (courses (db w2)).
        rewrite Hcourses, lookup_insert_eq. eauto.
      * destruct Hcases as (_ & _ & _ & _ & _ & Hmeta).
        change (scrape_metadata (db (attempted current_id 200 true w2)))
          with (scrape_metadata (db w2)).
        rewrite Hmeta. unfold counted. rewrite lookup_insert_ne by done.
        by rewrite lookup_alter_eq, Hme.
    + subst w2. eexists. split; [apply lookup_insert_eq|]. cbn [success].
      split_and!; try done.
      by rewrite <- Hme.
  - destruct (Hend (positioned current_id (consecutive_404s + 1)
                      (attempted current_id 404 false w1)))
      as (-> & -> & -> & -> & -> & -> & _).
    rewrite Hpos.
    eexists. split; [apply lookup_insert_eq|]. cbn [success].
    split_and!; try done.
    by rewrite <- Hme.
Qed.

(** ** A response 200, by its body *)


(** ** The counter of saved courses *)

Lemma successful_insert (m : gmap Z AttemptRow) course_id row :
  m !! course_id = None →
  size (filter (fun kv : Z * AttemptRow => success kv.2 = true) (<[course_id := row]> m))
  = (size (filter (fun kv : Z * AttemptRow => success kv.2 = true) m)
     + (if success row then 1 else 0))%nat.
Proof.
  intros Hnone. destruct (success row) eqn:Hs.
  - rewrite map_filter_insert_True by done.
    rewrite map_size_insert_None; [lia|]. apply map_lookup_filter_None_2. by left.
  - rewrite map_filter_insert_False by (simpl; congruence).
    rewrite delete_id by done. lia.
Qed.

(** What an iteration that fetches adds to the attempt ledger and to
    the counter. *)
Lemma scrape_iteration_record current_id consecutive_404s w
    current_id' consecutive_404s' w' :
  clean w →
  scrape_attempts (db w) !! current_id = None →
  scrape_iteration cfg remote current_id consecutive_404s w
  = Ok (current_id', consecutive_404s') w' →
  ∃ row, scrape_attempts (db w') = <[current_id := row]> (scrape_attempts (db w)) ∧
         scrape_metadata (db w') !! "total_courses_scraped"
         = (fun n => if success row then n + 1 else n)
             <$> scrape_metadata (db w) !! "total_courses_scraped".
Proof.
  intros Hclean Hnone. rewrite scrape_iteration_fetch by done.
  pose proof (course_tables_fetched cfg remote current_id w) as Htab. cbv zeta in Htab.
  pose proof (fetch_course_effect remote current_id (gated cfg w))
    as (_ & _ & _ & _ & _ & _ & _ & _ & _ & Hc).
  destruct (engine_step_gated cfg current_id w Hclean) as (Hcg & _).
  destruct (fetch_course remote current_id (gated cfg w)) as [fetched w1|e w1]; [|done].
  cbn [world_of] in *. specialize (Hc Hcg).
  destruct Htab as (_ & _ & _ & _ & Hme & Hat).
  assert (Hpos : ∀ c w2,
            scrape_metadata (db (positioned current_id c w2)) !! "total_courses_scraped"
            = scrape_metadata (db w2) !! "total_courses_scraped")
    by (intros c w2; unfold positioned, put, db;
        cbn [conn working scrape_metadata set_scrape_metadata];
        by rewrite !lookup_insert_ne by done).
  assert (Hsame : ∀ x : option Z, x = (fun n => n) <$> x) by (by intros []).
  destruct (fetched_course fetched) as [course_data|]; intros [= <- <- <-].
  - destruct (metadata_ended current_id
                (positioned current_id 0 (saved current_id course_data w1))) as [-> ->].
    rewrite Hpos.
    change (scrape_attempts (db (positioned current_id 0 (saved current_id course_data w1))))
      with (scrape_attempts (db (saved current_id course_data w1))).
    pose proof (save_course_cases course_data w1 Hc) as Hcases. unfold saved.
    destruct (save_course course_data w1) as [[] w2|e w2].
    + destruct Hcases as (_ & _ & _ & _ & Hat2 & Hme2). eexists. split.
      * cbn. by rewrite Hat2, Hat.
      * cbn [success].
        change (scrape_metadata (db (attempted current_id 200 true w2)))
          with (scrape_metadata (db w2)).
        rewrite Hme2. unfold counted. rewrite lookup_insert_ne by done.
        by rewrite lookup_alter_eq, Hme.
    + subst w2. eexists. split.
      * cbn. by rewrite Hat.
      * cbn [success].
        change (scrape_metadata (db (attempted current_id 200 false w1)))
          with (scrape_metadata (db w1)).
        rewrite Hme. apply Hsame.
  - destruct (metadata_ended current_id
                (positioned current_id (consecutive_404s + 1)
                   (attempted current_id 404 false w1))) as [-> ->].
    rewrite Hpos. eexists. split.
    + cbn. by rewrite Hat.
    + cbn [success].
      change (scrape_metadata (db (attempted current_id 404 false w1)))
        with (scrape_metadata (db w1)).
      rewrite Hme. apply Hsame.
Qed.

Lemma scrape_loop_counts n current_id consecutive_404s w r w' :
  clean w →
  scrape_loop cfg remote n current_id consecutive_404s w = Ok r w' →
  (successful (db w) ≤ successful (db w'))%nat ∧
  scrape_metadata (db w') !! "total_courses_scraped"
  = (fun total => total + Z.of_nat (successful (db w')) - Z.of_nat (successful (db w)))
      <$> scrape_metadata (db w) !! "total_courses_scraped".
Proof.
  assert (Hrefl : ∀ w0 : World,
            scrape_metadata (db w0) !! "total_courses_scraped"
            = (fun total => total + Z.of_nat (successful (db w0))
                            - Z.of_nat (successful (db w0)))
                <$> scrape_metadata (db w0) !! "total_courses_scraped").
  { intros w0. destruct (scrape_metadata (db w0) !! "total_courses_scraped"); simpl; [|done].
    f_equal. lia. }
  revert current_id consecutive_404s w.
  induction n as [|n IH]; intros current_id consecutive_404s w Hclean; simpl.
  - destruct (_ <? _); intros [= <- <-]; by split.
  - destruct (_ <? _); [|intros [= <- <-]; by split]. unfold bind.
    destruct (scrape_iteration_step cfg remote current_id consecutive_404s w) as (Hstep & _).
    destruct (Hstep Hclean) as (Hc1 & _).
    destruct (scrape_iteration cfg remote current_id consecutive_404s w)
      as [[current_id1 consecutive_404s1] w1|e w1] eqn:Hit; [|done].
    cbn [world_of] in Hc1. intros Hloop.
    destruct (IH _ _ _ Hc1 Hloop) as [Hle Htot].
    destruct (scrape_attempts (db w) !! current_id) as [row0|] eqn:Hrow.
    { rewrite scrape_iteration_skip in Hit by by rewrite Hrow.
      injection Hit as <- <- <-. by split. }
    destruct (scrape_iteration_record _ _ _ _ _ _ Hclean Hrow Hit) as (row & Hat & Hme).
    assert (Hs : successful (db w1)
                 = (successful (db w) + (if success row then 1 else 0))%nat).
    { unfold successful. rewrite Hat. by apply successful_insert. }
    split; [lia|]. rewrite Htot, Hme.
    destruct (scrape_metadata (db w) !! "total_courses_scraped"); simpl; [|done].
    f_equal. destruct (success row); lia.
Qed.

(** X24. The counter of saved courses counts the successful attempts.
    Over a run from a connection with nothing pending that returns or
    is seen between two iterations, the number of attempt records that
    say success does not go down, and total_courses_scraped goes up by
    as much as it: a store in which the two agree is left in agreement.
    (The counter counts saves, not rows of courses: a payload is stored
    under its own id, whatever the id that was requested.) *)
Theorem counter_counts_successes fuel w r w' total :
  clean w →
  scrape_metadata (db w) !! "total_courses_scraped" = Some total →
  scrape cfg remote fuel w = Ok r w' →
  (successful (db w) ≤ successful (db w'))%nat ∧
  scrape_metadata (db w') !! "total_courses_scraped"
  = Some (total + Z.of_nat (successful (db w')) - Z.of_nat (successful (db w))) ∧
  (total = Z.of_nat (successful (db w)) →
   scrape_metadata (db w') !! "total_courses_scraped"
   = Some (Z.of_nat (successful (db w')))).
Proof.
  intros Hclean Htotal. rewrite scrape_eq. destruct (complete w).
  { intros [= <- <-]. split_and!; [done| |by intros <-]. rewrite Htotal. f_equal. lia. }
  pose proof (scrape_loop_run cfg remote fuel (last_id w + 1) (consecutive_misses w) w Hclean)
    as (Hc1 & _).
  destruct (scrape_loop cfg remote fuel (last_id w + 1) (consecutive_misses w) w)
    as [r1 w1|e w1] eqn:Hloop; [|done].
  destruct (scrape_loop_counts _ _ _ _ _ _ Hclean Hloop) as [Hle Htot].
  rewrite Htotal in Htot. simpl in Htot.
  assert (Hend : (successful (db w) ≤ successful (db w'))%nat ∧
                 scrape_metadata (db w') !! "total_courses_scraped"
                 = Some (total + Z.of_nat (successful (db w'))
                         - Z.of_nat (successful (db w))) →
                 (successful (db w) ≤ successful (db w'))%nat ∧
                 scrape_metadata (db w') !! "total_courses_scraped"
                 = Some (total + Z.of_nat (successful (db w'))
                         - Z.of_nat (successful (db w))) ∧
                 (total = Z.of_nat (successful (db w)) →
                  scrape_metadata (db w') !! "total_courses_scraped"
                  = Some (Z.of_nat (successful (db w'))))).
  { intros [H1 H2]. split_and!; [done..|]. intros ->. rewrite H2. f_equal. lia. }
  destruct r1 as [|current_id consecutive_404s]; intros [= <- <-]; apply Hend.
  - split; [done|].
    change (successful (db (completed w1))) with (successful (db w1)).
    unfold completed, put, db. cbn [conn working scrape_metadata set_scrape_metadata].
    by rewrite !lookup_insert_ne by done.
  - by split.
Qed.

End Outcomes.

(** ** The further properties at concrete inputs *)

Lemma skipped_ids_cost_nothing_witness :
  0 < CONSECUTIVE_404_LIMIT default_config ∧
  scrape_loop default_config (always (Http 404 None)) 100 1 0 resumed_world
  = Ok (Running 101 0) resumed_world.
Proof.
  assert (Hledger : ∀ i, 1 ≤ i < 1 + Z.of_nat 100 →
                         is_Some (scrape_attempts (db resumed_world) !! i)).
  { intros i Hi.
    assert (Hall : Forall (fun i => is_Some (scrape_attempts resumed_store !! i))
                     (seqZ 1 100))
      by compute_done.
    rewrite Forall_forall in Hall. apply Hall. apply elem_of_seqZ. lia. }
  split; [reflexivity|].
  exact (proj1 (skipped_ids_cost_nothing default_config (always (Http 404 None)) 100 1 0
                  resumed_world eq_refl Hledger)).
Defined.

Lemma fetched_ids_are_recorded_witness :
  clean fresh_world ∧
  ∃ evs,
    trace (world_of (scrape default_config scenario 4 fresh_world))
    = evs ++ trace fresh_world ∧
    ∀ i resp, EvGet i resp ∈ evs →
      is_Some (scrape_attempts (db (world_of (scrape default_config scenario 4 fresh_world)))
                 !! i).
Proof.
  split; [reflexivity|].
  apply (fetched_ids_are_recorded default_config scenario 4 fresh_world (Running 5 0)
           (world_of (scrape default_config scenario 4 fresh_world)) eq_refl).
  vm_compute; reflexivity.
Defined.

Lemma restart_continues_the_run_witness :
  clean fresh_world ∧
  consecutive_misses (world_of (scrape default_config scenario 2 fresh_world)) = 0 ∧
  last_id (world_of (scrape default_config scenario 2 fresh_world)) < 3 ∧
  ∃ k, ∀ m,
    scrape default_config scenario (k + m)
      (world_of (scrape default_config scenario 2 fresh_world))
    = scrape default_config scenario (2 + m) fresh_world.
Proof.
  split; [reflexivity|].
  apply (restart_continues_the_run default_config scenario 2 fresh_world 3 0
           (world_of (scrape default_config scenario 2 fresh_world)) eq_refl).
  vm_compute; reflexivity.
Defined.

Lemma transient_errors_back_off_witness :
  ∃ w', fetch_course (always (Http 500 None)) 1 fresh_world = Ok None w' ∧
        sleeps (trace w') = sleeps (trace fresh_world) ++ [seconds 300; seconds 600] ∧
        length (gets (trace w')) = (length (gets (trace fresh_world)) + 3)%nat ∧
        now fresh_world + seconds 900 ≤ now w'.
Proof.
  apply (transient_errors_back_off (always (Http 500 None)) 1 fresh_world).
  intros k. reflexivity.
Defined.

Lemma scrape_raises_only_on_401_witness :
  within_int64 fresh_world 2 ∧
  scrape default_config revoked 2 fresh_world
  = Raise (ValueError "Invalid API key")
      (world_of (scrape default_config revoked 2 fresh_world)) ∧
  ∃ i body, head (trace (world_of (scrape default_config revoked 2 fresh_world)))
            = Some (EvGet i (Http 401 body)).
Proof.
  assert (Hrange : within_int64 fresh_world 2) by (repeat split; by vm_compute).
  assert (Hs : scrape default_config revoked 2 fresh_world
               = Raise (ValueError "Invalid API key")
                   (world_of (scrape default_config revoked 2 fresh_world)))
    by (vm_compute; reflexivity).
  split_and!; [exact Hrange | exact Hs |].
  exact (proj2 (scrape_raises_only_on_401 default_config revoked 2 fresh_world _ _
                  Hrange Hs)).
Defined.

Lemma save_course_errors_witness :
  clean fresh_world ∧
  bindable (a_bad_course 1) = true ∧
  (∃ msg, save_course (a_bad_course 1) fresh_world = Raise (IntegrityError msg) fresh_world) ∧
  acceptable (a_bad_course 1) = false.
Proof.
  assert (Hsave : ∃ msg, save_course (a_bad_course 1) fresh_world
                         = Raise (IntegrityError msg) fresh_world)
    by (eexists; vm_compute; reflexivity).
  destruct Hsave as [msg Hsave].
  destruct (save_course_errors (a_bad_course 1) fresh_world _ _ eq_refl eq_refl Hsave)
    as (_ & Hacc & _).
  split_and!; [reflexivity | reflexivity | by exists msg | exact Hacc].
Defined.

Lemma save_course_effect_witness :
  clean fresh_world ∧
  bindable (a_course 1) = true ∧
  ∃ new_tees,
    tees (db (world_of (save_course (a_course 1) fresh_world)))
    = tees (db fresh_world) ++ new_tees ∧
    t_id <$> new_tees = [1] ∧ t_gender <$> new_tees = ["male"].
Proof.
  assert (Hsave : save_course (a_course 1) fresh_world
                  = Ok tt (world_of (save_course (a_course 1) fresh_world)))
    by (vm_compute; reflexivity).
  destruct (save_course_effect (a_course 1) fresh_world _ eq_refl eq_refl Hsave)
    as (course_id & new_tees & new_holes & _ & _ & _ & _ & _ & Ht & Hi & _ & Hg & _).
  split_and!; [reflexivity | reflexivity |].
  exists new_tees. split_and!; [exact Ht | exact Hi | exact Hg].
Defined.

Lemma update_scrape_metadata_rejects_witness :
  clean fresh_world ∧
  ∃ msg, update_scrape_metadata [("last_scraped_id", None); ("consecutive_404s", Some 0)]
           fresh_world
         = Raise (IntegrityError msg) fresh_world.
Proof.
  split; [reflexivity|].
  apply (update_scrape_metadata_rejects
           [("last_scraped_id", None); ("consecutive_404s", Some 0)] fresh_world eq_refl).
  - repeat constructor; simpl; try done; set_unfold; tauto.
  - compute_done.
  - exists "last_scraped_id". by left.
Defined.

Lemma rewinding_does_not_refetch_witness :
  complete resumed_world = false ∧
  ∃ w', update_start_id 1 resumed_world = Ok tt w' ∧
        scrape default_config (always (Http 200 (Some (a_course 1)))) 100 w'
        = Ok (Running 101 0) w'.
Proof.
  assert (Hledger : ∀ i, 1 ≤ i < 1 + Z.of_nat 100 →
                         is_Some (scrape_attempts (db resumed_world) !! i)).
  { intros i Hi.
    assert (Hall : Forall (fun i => is_Some (scrape_attempts resumed_store !! i))
                     (seqZ 1 100))
      by compute_done.
    rewrite Forall_forall in Hall. apply Hall. apply elem_of_seqZ. lia. }
  split; [reflexivity|].
  exact (rewinding_does_not_refetch default_config (always (Http 200 (Some (a_course 1))))
           1 100 resumed_world eq_refl eq_refl Hledger).
Defined.

Lemma outage_ends_the_crawl_witness :
  complete fresh_world = false ∧
  ∃ w', scrape short_config (always NoResponse) 2 fresh_world = Ok Finished w' ∧
        complete w' = true ∧ last_id w' = 2 ∧ total_saved w' = 0.
Proof.
  split; [reflexivity|].
  destruct (outage_ends_the_crawl short_config (always NoResponse) 0 fresh_world)
    as (w' & Hs & Hc & Hl & Ht & _).
  - intros i k. reflexivity.
  - reflexivity.
  - reflexivity.
  - intros i Hi. apply lookup_empty.
  - exists w'. split_and!; [exact Hs | exact Hc | exact Hl | exact Ht].
Defined.

Lemma requests_are_spaced_witness :
  scrape_attempts (db fresh_world) !! 1 = None ∧
  ∃ evs,
    trace (world_of (scrape_iteration default_config scenario 1 0 fresh_world))
    = EvSleep REQUEST_DELAY_SECONDS :: evs ++ trace fresh_world ∧
    now fresh_world + REQUEST_DELAY_SECONDS
    ≤ now (world_of (scrape_iteration default_config scenario 1 0 fresh_world)).
Proof.
  split; [reflexivity|].
  destruct (requests_are_spaced default_config scenario 1 0 fresh_world 2 0
              (world_of (scrape_iteration default_config scenario 1 0 fresh_world))
              eq_refl)
    as (evs & Ht & _ & Hn); [vm_compute; reflexivity|].
  exists evs. split; [exact Ht | exact Hn].
Defined.

Lemma main_exit_codes_witness :
  within_int64 fresh_world 2 ∧
  main default_config revoked 2 fresh_world
  = (Exit 1, (main default_config revoked 2 fresh_world).2) ∧
  (1 = 0 ∧ validate default_config = None ∧
   complete (main default_config revoked 2 fresh_world).2 = true ∧
   clean (main default_config revoked 2 fresh_world).2 ∧
   head (trace (main default_config revoked 2 fresh_world).2) = Some EvClose
   ∨ 1 = 1 ∧ validate default_config ≠ None ∧
     (main default_config revoked 2 fresh_world).2 = fresh_world
   ∨ 1 = 1 ∧ validate default_config = None ∧
     clean (main default_config revoked 2 fresh_world).2 ∧
     ∃ i body tr, trace (main default_config revoked 2 fresh_world).2
                  = EvClose :: EvGet i (Http 401 body) :: tr).
Proof.
  assert (Hrange : within_int64 fresh_world 2) by (repeat split; by vm_compute).
  assert (Hm : main default_config revoked 2 fresh_world
               = (Exit 1, (main default_config revoked 2 fresh_world).2))
    by (vm_compute; reflexivity).
  split_and!; [exact Hrange | exact Hm |].
  exact (main_exit_codes default_config revoked 2 fresh_world 1 _ eq_refl Hrange Hm).
Defined.

Lemma limit_reached_completes_without_request_witness :
  validate {| API_KEY := Some "key"; MAX_CALLS_PER_DAY := 295;
              CONSECUTIVE_404_LIMIT := 0 |} = None ∧
  main {| API_KEY := Some "key"; MAX_CALLS_PER_DAY := 295; CONSECUTIVE_404_LIMIT := 0 |}
    scenario 5 fresh_world
  = (Exit 0, logged EvClose (completed fresh_world)) ∧
  trace (logged EvClose (completed fresh_world)) = EvClose :: trace fresh_world.
Proof.
  destruct (limit_reached_completes_without_request
              {| API_KEY := Some "key"; MAX_CALLS_PER_DAY := 295;
                 CONSECUTIVE_404_LIMIT := 0 |}
              scenario 5 fresh_world eq_refl eq_refl eq_refl)
    as (_ & Hm & Ht & _); [vm_compute; discriminate|].
  split_and!; [reflexivity | exact Hm | exact Ht].
Defined.

Lemma attempt_record_matches_the_store_witness :
  clean fresh_world ∧
  ∃ row,
    scrape_attempts (db (world_of (scrape_iteration default_config scenario 1 0 fresh_world)))
      !! 1 = Some row.
Proof.
  split; [reflexivity|].
  destruct (attempt_record_matches_the_store default_config scenario 1 0 fresh_world 2 0
              (world_of (scrape_iteration default_config scenario 1 0 fresh_world))
              eq_refl eq_refl)
    as (row & Hrow & _); [vm_compute; reflexivity|].
  exists row. exact Hrow.
Defined.


Lemma counter_counts_successes_witness :
  clean fresh_world ∧
  scrape_metadata (db fresh_world) !! "total_courses_scraped" = Some 0 ∧
  scrape_metadata (db (world_of (scrape default_config scenario 4 fresh_world)))
    !! "total_courses_scraped"
  = Some (Z.of_nat (successful (db (world_of (scrape default_config scenario 4
                                                 fresh_world))))).
Proof.
  destruct (counter_counts_successes default_config scenario 4 fresh_world (Running 5 0)
              (world_of (scrape default_config scenario 4 fresh_world)) 0
              eq_refl eq_refl)
    as (_ & _ & Hagree); [vm_compute; reflexivity|].
  split_and!; [reflexivity | reflexivity | apply Hagree; reflexivity].
Defined.

Lemma record_scrape_attempt_upsert_witness :
  int64 7 ∧ int64 200 ∧
  ∃ w', record_scrape_attempt 7 200 true fresh_world = Ok tt w' ∧
        value_of (is_course_already_attempted 7 w') = Some true ∧
        success <$> scrape_attempts (db w') !! 7 = Some true.
Proof.
  assert (Hid : int64 7) by (split; by vm_compute).
  assert (Hst : int64 200) by (split; by vm_compute).
  destruct (record_scrape_attempt_upsert 7 200 true fresh_world Hid Hst)
    as (w' & Hrec & Hatt & _ & Hok & _).
  split_and!; [exact Hid | exact Hst |]. exists w'.
  split_and!; [exact Hrec | exact Hatt | exact Hok].
Defined.

Lemma save_course_succeeds_iff_acceptable_witness :
  bindable (a_course 1) = true ∧
  ∃ w', save_course (a_course 1) fresh_world = Ok tt w'.
Proof.
  split; [reflexivity|].
  apply (proj2 (save_course_succeeds_iff_acceptable (a_course 1) fresh_world eq_refl)).
  reflexivity.
Defined.

Lemma update_start_id_effect_witness :
  int64 (5 - 1) ∧
  ∃ w', update_start_id 5 fresh_world = Ok tt w' ∧
        last_id w' = 4 ∧ consecutive_misses w' = 0.
Proof.
  assert (Hid : int64 (5 - 1)) by (split; by vm_compute).
  destruct (update_start_id_effect 5 fresh_world Hid) as (w' & Hs & _ & Hl & Hm & _).
  split; [exact Hid|]. exists w'. split_and!; [exact Hs | exact Hl | exact Hm].
Defined.
